(** * ClipStream backend: clip ingestion and social aggregation

    A shallow embedding of [services/youtubeService.js], of the Mongoose
    schemas [Clip], [Comment], [Like] and of the handlers of
    [routes/clips.js] and [routes/users.js], followed by the properties of
    the specification that were checked against them and by further
    properties of the code.

    Conventions.
    - JavaScript strings are modelled by [string] (one character per code
      unit; the embedding covers ASCII text).
    - JavaScript numbers are modelled by [JS.number]: an integer or [NaN].
      The integers of the model are exact where doubles round, from 2^53
      on: a statement that needs exact arithmetic carries the bound.
      [JS.Number] reads the texts a time code is made of, i.e. groups of
      decimal digits with or without a sign; see [JS.Number].
    - A value of a JSON body that need not be a string is a [Texts.json].
    - A Mongoose collection is a finite map from [_id] to document.
    - A thrown exception is the [Throw] case of [completion]. *)

From Stdlib Require Import String Ascii ZArith Decimal DecimalString DecimalZ DecimalPos.
From stdpp Require Import base option list gmap strings sorting.

(** ** JavaScript values and built-ins used by the sources *)

Module JS.

Inductive number : Type :=
  | Int (z : Z)
  | NaN.

(** Truthiness of a number: [0] and [NaN] are falsy. *)
Definition number_truthy (n : number) : bool :=
  match n with
  | Int z => negb (z =? 0)%Z
  | NaN => false
  end.

(** Truthiness of a string: only the empty string is falsy. *)
Definition string_truthy (s : string) : bool :=
  match s with
  | EmptyString => false
  | String _ _ => true
  end.

Definition add (a b : number) : number :=
  match a, b with
  | Int x, Int y => Int (x + y)
  | _, _ => NaN
  end.

Definition sub (a b : number) : number :=
  match a, b with
  | Int x, Int y => Int (x - y)
  | _, _ => NaN
  end.

Definition mul (a b : number) : number :=
  match a, b with
  | Int x, Int y => Int (x * y)
  | _, _ => NaN
  end.

(** [a < b]; any comparison with [NaN] is false. *)
Definition lt (a b : number) : bool :=
  match a, b with
  | Int x, Int y => (x <? y)%Z
  | _, _ => false
  end.

(** [Math.floor(a / k)] for a positive integer constant [k]. *)
Definition floor_div (a : number) (k : Z) : number :=
  match a with
  | Int x => Int (x / k)
  | NaN => NaN
  end.

(** [a % k]: the remainder takes the sign of the dividend. *)
Definition rem (a : number) (k : Z) : number :=
  match a with
  | Int x => Int (Z.rem x k)
  | NaN => NaN
  end.

(** The value of a group of decimal digits (leading zeros allowed); the
    empty group is [0], a text with any other character is [NaN]. *)
Definition unsigned_digits (s : string) : number :=
  match NilEmpty.uint_of_string s with
  | Some d => Int (Z.of_uint d)
  | None => NaN
  end.

Definition neg (a : number) : number :=
  match a with
  | Int x => Int (- x)
  | NaN => NaN
  end.

(** [Number(s)] on the fragment the time codes live in: the empty string
    is [0], a group of decimal digits, with or without a leading [-] or
    [+], is its value, and any other text is mapped to [NaN]. Blank
    padding, fractions, exponents, radix prefixes and [Infinity] are not
    modelled: the statements below that depend on parsed values are
    restricted to digit groups by [decimal_timecode] or [integer_timecode],
    whose groups have at most nine digits, so that every number computed
    from them is an integer a double represents exactly. *)
Definition Number (s : string) : number :=
  match s with
  | String c (String c' s') =>
      if Ascii.eqb c "-" then neg (unsigned_digits (String c' s'))
      else if Ascii.eqb c "+" then unsigned_digits (String c' s')
      else unsigned_digits s
  | _ => unsigned_digits s
  end.

(** [n.toString()] and template interpolation of a number. *)
Definition toString (n : number) : string :=
  match n with
  | Int z => NilEmpty.string_of_int (Z.to_int z)
  | NaN => "NaN"
  end.

Fixpoint replicate_char (n : nat) (c : ascii) : string :=
  match n with
  | O => EmptyString
  | S n' => String c (replicate_char n' c)
  end.

(** [s.padStart(target, fill)] for a one-character filler. *)
Definition padStart (target : nat) (fill : ascii) (s : string) : string :=
  replicate_char (target - String.length s) fill +:+ s.

(** [s.split(sep)] for a one-character separator. *)
Fixpoint split (sep : ascii) (s : string) : list string :=
  match s with
  | EmptyString => [EmptyString]
  | String c s' =>
      if Ascii.eqb c sep then EmptyString :: split sep s'
      else match split sep s' with
           | h :: t => String c h :: t
           | [] => [String c EmptyString]
           end
  end.

(** [hay.includes(needle)]. *)
Definition includes (needle hay : string) : bool :=
  bool_decide (is_Some (String.index 0 needle hay)).

(** The outcome of evaluating a piece of code: a value or an exception. *)
Inductive completion (A : Type) : Type :=
  | Return (a : A)
  | Throw (e : string).
Arguments Return {A} a.
Arguments Throw {A} e.

#[global] Instance completion_ret : MRet completion := fun A a => Return a.

#[global] Instance completion_bind : MBind completion := fun A B f c =>
  match c with
  | Return a => f a
  | Throw e => Throw e
  end.

(** [try { c } catch (e) { handler e }]. *)
Definition try_catch {A : Type} (c : completion A) (handler : string -> completion A)
    : completion A :=
  match c with
  | Return a => Return a
  | Throw e => handler e
  end.

End JS.

(** ** Backtracking regular expressions

    The constructs of the pattern in [extractVideoId], with the matching
    order of JavaScript: alternatives left to right, greedy quantifiers,
    numbered capture groups. The matcher is written in continuation-passing
    style; a failed continuation makes the matcher try the next choice. *)

Module Regex.

Inductive regex : Type :=
  | Eps
  | Bol
  | Chr (c : ascii)
  | Dot
  | Word
  | NoneOf (cs : list ascii)
  | Seq (r1 r2 : regex)
  | Alt (r1 r2 : regex)
  | Opt (r : regex)
  | Star (r : regex)
  | Group (n : nat) (r : regex).

Definition is_line_terminator (c : ascii) : bool :=
  Ascii.eqb c "010" || Ascii.eqb c "013".

Definition in_range (lo hi c : ascii) : bool :=
  ((nat_of_ascii lo <=? nat_of_ascii c) && (nat_of_ascii c <=? nat_of_ascii hi))%nat.

Definition is_word_char (c : ascii) : bool :=
  in_range "a" "z" c || in_range "A" "Z" c || in_range "0" "9" c || Ascii.eqb c "_".

(** The captured substrings, by group number. *)
Abbreviation captures := (gmap nat string).

Definition cont : Type := nat -> string -> captures -> option captures.

Definition one_char (p : ascii -> bool) (pos : nat) (s : string)
    (caps : captures) (k : cont) : option captures :=
  match s with
  | String c s' => if p c then k (S pos) s' caps else None
  | EmptyString => None
  end.

(** The iteration of a greedy star: try one more round of [step], which
    must consume input, before leaving the loop through [k]. The input
    length bounds the number of rounds. *)
Definition star_loop (step : nat -> string -> captures -> cont -> option captures)
    (k : cont) : nat -> nat -> string -> captures -> option captures :=
  fix loop (fuel : nat) (pos : nat) (s : string) (caps : captures)
    : option captures :=
    match fuel with
    | O => k pos s caps
    | S fuel' =>
        match step pos s caps (fun pos' s' caps' =>
                if (String.length s' <? String.length s)%nat
                then loop fuel' pos' s' caps' else None) with
        | Some res => Some res
        | None => k pos s caps
        end
    end.

(** [m r pos s caps k]: match [r] at offset [pos], where [s] is the rest of
    the input, then continue with [k]. *)
Fixpoint m (r : regex) (pos : nat) (s : string) (caps : captures) (k : cont)
    {struct r} : option captures :=
  match r with
  | Eps => k pos s caps
  | Bol => if (pos =? 0)%nat then k pos s caps else None
  | Chr c => one_char (Ascii.eqb c) pos s caps k
  | Dot => one_char (fun c => negb (is_line_terminator c)) pos s caps k
  | Word => one_char is_word_char pos s caps k
  | NoneOf cs => one_char (fun c => negb (existsb (Ascii.eqb c) cs)) pos s caps k
  | Seq r1 r2 => m r1 pos s caps (fun pos' s' caps' => m r2 pos' s' caps' k)
  | Alt r1 r2 =>
      match m r1 pos s caps k with
      | Some res => Some res
      | None => m r2 pos s caps k
      end
  | Opt r1 =>
      match m r1 pos s caps k with
      | Some res => Some res
      | None => k pos s caps
      end
  | Star r1 => star_loop (m r1) k (S (String.length s)) pos s caps
  | Group n r1 =>
      m r1 pos s caps (fun pos' s' caps' =>
        k pos' s' (<[n := substring 0 (pos' - pos) s]> caps'))
  end.

(** [str.match(r)] without the global flag: the first start offset, from
    the left, at which the pattern matches. *)
Fixpoint exec_from (r : regex) (fuel : nat) (pos : nat) (s : string) : option captures :=
  match m r pos s ∅ (fun _ _ caps => Some caps) with
  | Some caps => Some caps
  | None =>
      match fuel, s with
      | S fuel', String _ s' => exec_from r fuel' (S pos) s'
      | _, _ => None
      end
  end.

Definition exec (r : regex) (s : string) : option captures :=
  exec_from r (String.length s) 0%nat s.

Fixpoint lit (s : string) : regex :=
  match s with
  | EmptyString => Eps
  | String c s' => Seq (Chr c) (lit s')
  end.

(** What a greedy star over a one-character class computes: the longest
    run first, then shorter ones, until the continuation succeeds. *)
Fixpoint star_char (p : ascii -> bool) (k : cont) (pos : nat) (s : string)
    (caps : captures) : option captures :=
  match s with
  | String c s' =>
      if p c then
        match star_char p k (S pos) s' caps with
        | Some res => Some res
        | None => k pos s caps
        end
      else k pos s caps
  | EmptyString => k pos s caps
  end.

Fixpoint string_forallb (p : ascii -> bool) (s : string) : bool :=
  match s with
  | String c s' => p c && string_forallb p s'
  | EmptyString => true
  end.

Inductive suffix_of : string -> string -> Prop :=
  | suffix_refl s : suffix_of s s
  | suffix_tail t c s : suffix_of t s -> suffix_of t (String c s).

(** The text has no occurrence of [x]. *)
Definition lacks (x : ascii) (s : string) : bool :=
  string_forallb (fun c => negb (Ascii.eqb x c)) s.

(** Every capture set in [caps] is set in [caps']. *)
Definition keeps (caps caps' : captures) : Prop :=
  forall n, is_Some (caps !! n) -> is_Some (caps' !! n).

(** The continuation at the end of a pattern. *)
Definition accept : cont := fun _ _ caps => Some caps.

Definition not_terminator (c : ascii) : bool := negb (is_line_terminator c).

End Regex.

(** ** services/youtubeService.js *)

Module YoutubeService.
Import JS Regex.

(** Convert time format (mm:ss or hh:mm:ss) to seconds. *)
Definition timeToSeconds (timeStr : string) : number :=
  if negb (string_truthy timeStr) || String.eqb timeStr "0:00" then Int 0
  else
    match Number <$> split ":" timeStr with
    | [p0; p1] => add (mul p0 (Int 60)) p1
    | [p0; p1; p2] => add (add (mul p0 (Int 3600)) (mul p1 (Int 60))) p2
    | _ => Int 0
    end.

(** The pattern of [extractVideoId] is written in three parts. First the
    reference forms, group 1: the alternation of [(youtu.be\/)], [(v\/)],
    [(\/u\/\w\/)], [(embed\/)] and [(watch\?)], groups 2 to 6. The dot
    of [youtu.be] is not escaped in the source. *)
Definition url_forms : regex :=
  Group 1 (Alt (Group 2 (Seq (lit "youtu") (Seq Dot (lit "be/"))))
          (Alt (Group 3 (lit "v/"))
          (Alt (Group 4 (Seq (lit "/u/") (Seq Word (lit "/"))))
          (Alt (Group 5 (lit "embed/"))
               (Group 6 (lit "watch?")))))).

(** Group 7, a greedy run of characters other than [#], [&] and [?],
    followed by [.*]. *)
Definition id_capture : regex :=
  Seq (Group 7 (Star (NoneOf ["#"; "&"; "?"]%char))) (Star Dot).

(** [\??v?=?] and the capture: what follows any of the reference forms. *)
Definition after_forms : regex :=
  Seq (Opt (Chr "?")) (Seq (Opt (Chr "v")) (Seq (Opt (Chr "=")) id_capture)).

(** The whole pattern: [^.*], the reference forms, and what follows. *)
Definition regExp : regex :=
  Seq Bol (Seq (Star Dot) (Seq url_forms after_forms)).

(** What is left to match once the leading [.*] has chosen where to stop. *)
Definition after_prefix : cont :=
  fun pos s caps => m (Seq url_forms after_forms) pos s caps accept.

(** Extract YouTube video ID from URL. [None] is [null]; reading [length]
    of a group that did not take part in the match would throw. *)
Definition extractVideoId (url : string) : completion (option string) :=
  match exec regExp url with
  | None => Return None
  | Some caps =>
      match caps !! 7%nat with
      | Some tok => Return (if (String.length tok =? 11)%nat then Some tok else None)
      | None => Throw "TypeError: Cannot read properties of undefined (reading 'length')"
      end
  end.

(** What the metadata provider ([youtube-dl-exec]) reports. *)
Record VideoInfo : Type := {
  vi_title : string;
  vi_duration : option number;
  vi_thumbnail : option string
}.

(** The record returned by [extractVideoInfo]. *)
Record ClipMedia : Type := {
  videoId : string;
  title : string;
  thumbnailUrl : string;
  duration : string;
  startTimeSeconds : number;
  endTimeSeconds : option number
}.

(** "Format duration for display": the value of the local [duration]. *)
Definition formatDuration (d : option number) : string :=
  match d with
  | Some totalSeconds =>
      if number_truthy totalSeconds then
        let hours := floor_div totalSeconds 3600 in
        let minutes := floor_div (rem totalSeconds 3600) 60 in
        let seconds := rem totalSeconds 60 in
        if lt (Int 0) hours
        then toString hours +:+ ":" +:+ padStart 2 "0" (toString minutes)
               +:+ ":" +:+ padStart 2 "0" (toString seconds)
        else toString minutes +:+ ":" +:+ padStart 2 "0" (toString seconds)
      else ""
  | None => ""
  end.

(** The [m:ss] rendering of a number of seconds used for the trim span. *)
Definition formatSpan (durationSeconds : number) : string :=
  let minutes := floor_div durationSeconds 60 in
  let seconds := rem durationSeconds 60 in
  toString minutes +:+ ":" +:+ padStart 2 "0" (toString seconds).

(** "Calculate clip duration if both start and end times are provided":
    the value of the local [clipDuration]. *)
Definition clipDuration (startTimeSeconds : number) (endTimeSeconds : option number)
    : string :=
  match endTimeSeconds with
  | Some e =>
      if number_truthy e && lt startTimeSeconds e
      then formatSpan (sub e startTimeSeconds)
      else ""
  | None => ""
  end.

(** [a || b] on strings. *)
Definition or_else (a b : string) : string :=
  if string_truthy a then a else b.

Definition extraction_failed : string :=
  "Failed to extract YouTube video information. Please check the URL and try again.".

(** Extract video information from YouTube. The provider call is the
    parameter [youtubeDl]; an absent [startTime] or [endTime] takes the
    default of the parameter list. *)
Definition extractVideoInfo (youtubeDl : string -> completion VideoInfo)
    (youtubeUrl : string) (startTime endTime : option string) : completion ClipMedia :=
  let startTime := default "0:00" startTime in
  let endTime := default "" endTime in
  try_catch
    (id ← extractVideoId youtubeUrl;
     match id with
     | None => Throw "Invalid YouTube URL"
     | Some videoId =>
         videoInfo ← youtubeDl youtubeUrl;
         let startTimeSeconds := timeToSeconds startTime in
         let endTimeSeconds :=
           if string_truthy endTime then Some (timeToSeconds endTime) else None in
         let duration := formatDuration (vi_duration videoInfo) in
         let clipDuration := clipDuration startTimeSeconds endTimeSeconds in
         Return {| videoId := videoId;
                   title := vi_title videoInfo;
                   thumbnailUrl :=
                     or_else (default "" (vi_thumbnail videoInfo))
                       ("https://img.youtube.com/vi/" +:+ videoId +:+ "/hqdefault.jpg");
                   duration := or_else clipDuration duration;
                   startTimeSeconds := startTimeSeconds;
                   endTimeSeconds := endTimeSeconds |}
     end)
    (fun _ => Throw extraction_failed).

(** The alphabet of video identifiers: letters, digits, [_] and [-]. *)
Definition id_char (c : ascii) : bool := is_word_char c || Ascii.eqb c "-".

Definition id_text (s : string) : bool := string_forallb id_char s.

Definition first_is (c : ascii) (s : string) : bool :=
  match s with
  | String c' _ => Ascii.eqb c c'
  | EmptyString => false
  end.

(** The time codes on which [Number] is exact: every group between colons
    is made of at most nine decimal digits. *)
Definition decimal_group (s : string) : bool :=
  match NilEmpty.uint_of_string s with
  | Some _ => (String.length s <=? 9)%nat
  | None => false
  end.

Definition decimal_timecode (s : string) : bool :=
  forallb decimal_group (split ":" s).

(** The formatter as the specification words it: [h:mm:ss] from one hour
    on, [m:ss] below, minutes and seconds padded to two digits. *)
Definition TimeCode_format (totalSeconds : Z) : string :=
  let pad := fun z => padStart 2 "0" (toString (Int z)) in
  if (3600 <=? totalSeconds)%Z
  then toString (Int (totalSeconds / 3600)) +:+ ":" +:+ pad ((totalSeconds mod 3600) / 60)%Z
         +:+ ":" +:+ pad (totalSeconds mod 60)%Z
  else toString (Int (totalSeconds / 60)) +:+ ":" +:+ pad (totalSeconds mod 60)%Z.


(** Both ends of the trim window present implies end after start. *)
Definition trim_window_ordered (media : ClipMedia) : Prop :=
  forall e, endTimeSeconds media = Some e -> lt (startTimeSeconds media) e = true.





End YoutubeService.

(** ** models/Clip.js, models/Comment.js, models/Like.js *)

Module Models.
Import JS YoutubeService.

(** A document identifier ([ObjectId]). A path segment that is not the
    text of one is [ClipsListings.NotOid]. *)
Abbreviation ObjectId := N (only parsing).

Record Clip : Type := {
  clip_user : ObjectId;
  clip_title : string;
  clip_description : string;
  clip_youtubeUrl : string;
  clip_youtubeVideoId : string;
  clip_thumbnailUrl : string;
  clip_duration : string;
  clip_startTimeSeconds : number;
  clip_endTimeSeconds : option number;
  clip_createdAt : N
}.

Record Comment : Type := {
  comment_user : ObjectId;
  comment_clip : ObjectId;
  comment_content : string;
  comment_createdAt : N
}.

Inductive LikeType : Type := type_clip | type_comment.

#[global] Instance LikeType_eq_dec : EqDecision LikeType.
Proof. solve_decision. Defined.

Record Like : Type := {
  like_user : ObjectId;
  like_clip : option ObjectId;
  like_comment : option ObjectId;
  like_type : LikeType;
  like_createdAt : N
}.

(** The query operations of a Mongoose model, on a collection keyed by
    [_id]. A query is a predicate on documents. *)
Section Collection.
Context {Doc : Type}.

Definition matching (q : Doc -> bool) (coll : gmap N Doc) : gmap N Doc :=
  filter (fun kv => q kv.2 = true) coll.

Definition findById (id : N) (coll : gmap N Doc) : option Doc := coll !! id.

Definition findOne (q : Doc -> bool) (coll : gmap N Doc) : option (N * Doc) :=
  head (map_to_list (matching q coll)).

Definition countDocuments (q : Doc -> bool) (coll : gmap N Doc) : nat :=
  size (matching q coll).

Definition deleteMany (q : Doc -> bool) (coll : gmap N Doc) : gmap N Doc :=
  filter (fun kv => q kv.2 = false) coll.

Definition findByIdAndDelete (id : N) (coll : gmap N Doc) : gmap N Doc :=
  delete id coll.

(** Inserting a document: [_id] is the primary key. *)
Definition insertOne (id : N) (doc : Doc) (coll : gmap N Doc)
    : completion (gmap N Doc) :=
  match coll !! id with
  | Some _ => Throw "E11000 duplicate key error: _id"
  | None => Return (<[id := doc]> coll)
  end.

End Collection.

(** The unique indexes of the schema,
    [LikeSchema.index({ user: 1, clip: 1, type: 1 }, { unique: true, sparse: true })]
    and the same with [comment], declared so that "a user can only like a
    clip or comment once". A sparse compound index leaves a document out
    only when it has none of the indexed fields; [user] and [type] are
    required, so every Like has an entry in both indexes, in which the
    target field it lacks counts as [null] ([None]). *)
Definition index_user_clip_type (l : Like)
    : option (ObjectId * option ObjectId * LikeType) :=
  Some (like_user l, like_clip l, like_type l).

Definition index_user_comment_type (l : Like)
    : option (ObjectId * option ObjectId * LikeType) :=
  Some (like_user l, like_comment l, like_type l).

Definition same_key {K : Type} `{EqDecision K} (key : Like -> option K) (l d : Like) : bool :=
  match key l with
  | Some k => bool_decide (key d = Some k)
  | None => false
  end.

(** [like.save()] for a new document: refused when a unique index already
    holds its key. *)
Definition Like_save (id : ObjectId) (l : Like) (coll : gmap ObjectId Like)
    : completion (gmap ObjectId Like) :=
  match findOne (same_key index_user_clip_type l) coll,
        findOne (same_key index_user_comment_type l) coll with
  | None, None => insertOne id l coll
  | _, _ => Throw "E11000 duplicate key error"
  end.

(** Mongoose casts the value of a [Number] path and refuses [NaN]. *)
Definition mongoose_cast_number (n : option number) : completion (option number) :=
  match n with
  | Some NaN => Throw "Clip validation failed: Cast to Number failed"
  | _ => Return n
  end.

(** [clip.save()] for a new document. *)
Definition Clip_save (id : ObjectId) (c : Clip) (coll : gmap ObjectId Clip)
    : completion (gmap ObjectId Clip) :=
  _ ← mongoose_cast_number (Some (clip_startTimeSeconds c));
  _ ← mongoose_cast_number (clip_endTimeSeconds c);
  insertOne id c coll.

(** The three collections, and the source of fresh [_id] values. *)
Record State : Type := {
  clips : gmap ObjectId Clip;
  comments : gmap ObjectId Comment;
  likes : gmap ObjectId Like;
  nextObjectId : ObjectId
}.

Definition init : State :=
  {| clips := ∅; comments := ∅; likes := ∅; nextObjectId := 0%N |}.

(** The target a Like refers to, by its kind. *)
Definition like_target (l : Like) : option ObjectId :=
  match like_type l with
  | type_clip => like_clip l
  | type_comment => like_comment l
  end.

(** At most one Like per (actor, target, kind). *)
Definition likes_unique (ls : gmap ObjectId Like) : Prop :=
  forall i j a b t,
    ls !! i = Some a -> ls !! j = Some b ->
    like_user a = like_user b -> like_type a = like_type b ->
    like_target a = Some t -> like_target b = Some t ->
    i = j.

(** The writes the handlers issue on the Like collection, one store
    operation at a time, in whatever order concurrent requests interleave
    them. *)
Inductive LikeWrite : Type :=
  | WriteSave (id : ObjectId) (l : Like)
  | WriteDeleteById (id : ObjectId)
  | WriteDeleteMany (q : Like -> bool).

Definition apply_write (ls : gmap ObjectId Like) (w : LikeWrite) : gmap ObjectId Like :=
  match w with
  | WriteSave id l =>
      match Like_save id l ls with
      | Return ls' => ls'
      | Throw _ => ls
      end
  | WriteDeleteById id => findByIdAndDelete id ls
  | WriteDeleteMany q => deleteMany q ls
  end.

(** Every stored [_id] was handed out before. *)
Definition ids_below (st : State) : Prop :=
  forall i l, likes st !! i = Some l -> (i < nextObjectId st)%N.

(** The (actor, target, kind) triples present in a Like collection. *)
Definition has_triple (ls : gmap ObjectId Like) (u : ObjectId) (t : option ObjectId)
    (k : LikeType) : Prop :=
  exists i l, ls !! i = Some l /\ like_user l = u /\ like_target l = t /\ like_type l = k.

End Models.

(** ** routes/clips.js *)

Module ClipsRoutes.
Import JS YoutubeService Models.

(** A clip of a feed or of the single-item fetch: the stored document
    spread together with the computed fields. *)
Record EnrichedClip : Type := {
  ec_id : ObjectId;
  ec_clip : Clip;
  likesCount : nat;
  commentsCount : nat;
  isLiked : bool
}.

Inductive Body : Type :=
  | Message (message : string)
  | ValidationErrors (errors : list string) (message : string)
  | ClipCreated (message : string) (id : ObjectId) (clip : Clip)
  | ClipsPage (clips : list EnrichedClip) (page : positive)
      (totalPages totalClips : nat) (hasMore : bool)
  | ClipDetail (clip : EnrichedClip)
  | LikeToggled (message : string) (isLiked : bool) (likesCount : nat)
  | CommentCreated (message : string) (id : ObjectId) (comment : Comment).

Record Response : Type := { status : nat; body : Body }.

(** The names bound at the top of [routes/clips.js] (its [const]
    declarations), and the globals of the runtime the file refers to. *)
Definition module_bindings : list string :=
  ["express"; "router"; "body"; "validationResult"; "auth";
   "Clip"; "Comment"; "Like"; "youtubeService"].

Definition node_globals : list string :=
  ["require"; "module"; "exports"; "process"; "console"; "Promise"; "Math"; "parseInt"].

(** Evaluating an identifier that is bound nowhere throws. *)
Definition resolve_identifier (x : string) : completion unit :=
  if bool_decide (x ∈ module_bindings ++ node_globals) then Return tt
  else Throw ("ReferenceError: " +:+ x +:+ " is not defined").

(** [{ user, clip, type: 'clip' }] *)
Definition clip_like_of (user clip : ObjectId) (l : Like) : bool :=
  bool_decide (like_user l = user) && bool_decide (like_clip l = Some clip)
  && bool_decide (like_type l = type_clip).

(** [{ clip, type: 'clip' }] *)
Definition clip_likes (clip : ObjectId) (l : Like) : bool :=
  bool_decide (like_clip l = Some clip) && bool_decide (like_type l = type_clip).

(** [{ clip }] on comments *)
Definition clip_comments (clip : ObjectId) (c : Comment) : bool :=
  bool_decide (comment_clip c = clip).

Definition is_space (c : ascii) : bool :=
  Ascii.eqb c " " || ((9 <=? nat_of_ascii c) && (nat_of_ascii c <=? 13))%nat.

Fixpoint ltrim (s : string) : string :=
  match s with
  | String c s' => if is_space c then ltrim s' else s
  | EmptyString => EmptyString
  end.

(** The [trim()] sanitizer of the validation chains. *)
Definition trim (s : string) : string :=
  String.rev (ltrim (String.rev (ltrim s))).

(** [sort({ createdAt: -1 })] *)
Definition newest_first (a b : ObjectId * Clip) : Prop :=
  (clip_createdAt b.2 ≤ clip_createdAt a.2)%N.

#[global] Instance newest_first_dec : RelDecision newest_first.
Proof. intros a b. unfold newest_first. apply _. Defined.

(** [Math.ceil(a / b)] *)
Definition ceil_div (a b : nat) : nat := (a + b - 1) / b.

(** [GET /]: [page] and [limit] are the values of
    [parseInt(req.query.page)] and [parseInt(req.query.limit)] when they are
    positive, [None] when the source falls back to its default. A query
    with a negative page or limit is a [ClipsListings.FeedRequest]. *)
Record ListRequest : Type := {
  list_page : option positive;
  list_limit : option positive;
  list_authorization : option string
}.

(** [GET /:id]: the path parameter, the query parameter of the same name
    and the authorization header. *)
Record ItemRequest : Type := {
  params_id : ObjectId;
  query_id : option ObjectId;
  item_authorization : option string
}.

(** The body of [POST /]. *)
Record ClipPayload : Type := {
  body_youtubeUrl : string;
  body_title : string;
  body_description : option string;
  body_startTime : option string;
  body_endTime : option string
}.

Definition with_likes (st : State) (ls : gmap ObjectId Like) : State :=
  {| clips := clips st; comments := comments st; likes := ls;
     nextObjectId := nextObjectId st |}.

(** [new Model(...)] draws a fresh [_id]. *)
Definition fresh_id (st : State) : ObjectId * State :=
  (nextObjectId st,
   {| clips := clips st; comments := comments st; likes := likes st;
      nextObjectId := N.succ (nextObjectId st) |}).

(** [new Like({ user: req.user.id, clip: clipId, type: 'clip' })];
    [createdAt] defaults to the current time. *)
Definition new_like (user clipId : ObjectId) (now : N) : Like :=
  {| like_user := user; like_clip := Some clipId; like_comment := None;
     like_type := type_clip; like_createdAt := now |}.

(** The Likes that hold the entry [(user, null, 'clip')] of the index on
    [comment]: the Likes of [user] with type [clip] and no [comment]. *)
Definition clip_like_by (user : ObjectId) (l : Like) : bool :=
  bool_decide (like_user l = user) && bool_decide (like_comment l = None)
  && bool_decide (like_type l = type_clip).

(** The Likes of [user] other than a Like of the clip [clipId]. *)
Definition other_like (user clipId : ObjectId) (l : Like) : bool :=
  bool_decide (like_user l = user) && negb (clip_like_of user clipId l).

(** Whether the viewer has a Like of kind clip on the clip. *)
Definition liked_by (user clipId : ObjectId) (st : State) : bool :=
  bool_decide (is_Some (findOne (clip_like_of user clipId) (likes st))).

Definition server_error : Response :=
  {| status := 500; body := Message "Server error" |}.

Definition clip_not_found : Response :=
  {| status := 404; body := Message "Clip not found" |}.

Definition not_authorized : Response :=
  {| status := 403; body := Message "User not authorized to delete this clip" |}.

(** The handlers. The collaborators are parameters: the metadata provider,
    the [isURL] validator, and [jwt_verify token], which stands for
    [jwt.verify(token, process.env.JWT_SECRET).user.id] of the
    [jsonwebtoken] package. The private routes run behind the [auth]
    middleware and receive [req.user.id] as [user]. *)
Section Handlers.
Variable youtubeDl : string -> completion VideoInfo.
Variable isURL : string -> bool.
Variable jwt_verify : option string -> completion ObjectId.

(** "Check if the user has liked the clip (if authenticated)": the value of
    [isLiked] after the [if] and its [try]/[catch]. *)
Definition viewer_isLiked (authorization : option string) (clip : ObjectId)
    (st : State) : bool :=
  match authorization with
  | Some header =>
      if string_truthy header then
        match (let token := split " " header !! 1%nat in
               _ ← resolve_identifier "jwt";
               userId ← jwt_verify token;
               let like := findOne (clip_like_of userId clip) (likes st) in
               Return (bool_decide (is_Some like))) with
        | Return b => b
        | Throw _ => false
        end
      else false
  | None => false
  end.

Definition enrich (authorization : option string) (st : State)
    (doc : ObjectId * Clip) : EnrichedClip :=
  {| ec_id := doc.1;
     ec_clip := doc.2;
     likesCount := countDocuments (clip_likes doc.1) (likes st);
     commentsCount := countDocuments (clip_comments doc.1) (comments st);
     isLiked := viewer_isLiked authorization doc.1 st |}.

(** [router.get('/')], for a positive page and limit, and with clips
    created at the same time in the order the sort of the model leaves them
    in. [ClipsListings.GET_feed] is the handler on any parsed page and
    limit, and for any order of such clips. *)
Definition GET_clips (req : ListRequest) (st : State) : Response :=
  let page := default 1%positive (list_page req) in
  let limit := default 10%positive (list_limit req) in
  let skip := ((Pos.to_nat page - 1) * Pos.to_nat limit)%nat in
  let found :=
    take (Pos.to_nat limit)
      (drop skip (merge_sort newest_first (map_to_list (clips st)))) in
  let total := size (clips st) in
  let clipsWithCounts := enrich (list_authorization req) st <$> found in
  {| status := 200;
     body := ClipsPage clipsWithCounts page (ceil_div total (Pos.to_nat limit)) total
               (bool_decide (Pos.to_nat page * Pos.to_nat limit < total)%nat) |}.

(** [router.get('/:id')]: the lookup key is [req.query.id]; [findById] of
    an absent id finds nothing. *)
Definition GET_clip (req : ItemRequest) (st : State) : Response :=
  match query_id req with
  | Some id =>
      match findById id (clips st) with
      | Some clip =>
          {| status := 200;
             body := ClipDetail (enrich (item_authorization req) st (id, clip)) |}
      | None => clip_not_found
      end
  | None => clip_not_found
  end.

(** [router.post('/:id/like', auth, ...)] *)
Definition POST_like (user clipId : ObjectId) (now : N) (st : State)
    : State * Response :=
  match findById clipId (clips st) with
  | None => (st, clip_not_found)
  | Some _ =>
      match findOne (clip_like_of user clipId) (likes st) with
      | Some existingLike =>
          let st' := with_likes st (findByIdAndDelete existingLike.1 (likes st)) in
          (st', {| status := 200;
                   body := LikeToggled "Clip unliked successfully" false
                             (countDocuments (clip_likes clipId) (likes st')) |})
      | None =>
          let '(id, st1) := fresh_id st in
          let like := new_like user clipId now in
          match Like_save id like (likes st1) with
          | Throw _ => (st1, server_error)
          | Return ls =>
              let st' := with_likes st1 ls in
              (st', {| status := 200;
                       body := LikeToggled "Clip liked successfully" true
                                 (countDocuments (clip_likes clipId) (likes st')) |})
          end
      end
  end.

(** [router.post('/:id/comments', [auth, ...], ...)] *)
Definition POST_comment (user clipId : ObjectId) (content : string) (now : N)
    (st : State) : State * Response :=
  let content := trim content in
  let errors :=
    if ((1 <=? String.length content) && (String.length content <=? 500))%nat
    then [] else ["Comment cannot be empty and must be less than 500 characters"] in
  match errors with
  | msg :: _ => (st, {| status := 400; body := ValidationErrors errors msg |})
  | [] =>
      match findById clipId (clips st) with
      | None => (st, clip_not_found)
      | Some _ =>
          let '(id, st1) := fresh_id st in
          let comment := {| comment_user := user; comment_clip := clipId;
                            comment_content := content; comment_createdAt := now |} in
          match insertOne id comment (comments st1) with
          | Throw _ => (st1, server_error)
          | Return cs =>
              ({| clips := clips st1; comments := cs; likes := likes st1;
                  nextObjectId := nextObjectId st1 |},
               {| status := 201;
                  body := CommentCreated "Comment added successfully" id comment |})
          end
      end
  end.

(** [router.delete('/:id', auth, ...)] *)
Definition DELETE_clip (user clipId : ObjectId) (st : State) : State * Response :=
  match findById clipId (clips st) with
  | None => (st, clip_not_found)
  | Some clip =>
      if bool_decide (clip_user clip ≠ user) then (st, not_authorized)
      else
        ({| clips := findByIdAndDelete clipId (clips st);
            comments := deleteMany (clip_comments clipId) (comments st);
            likes := deleteMany (clip_likes clipId) (likes st);
            nextObjectId := nextObjectId st |},
         {| status := 200; body := Message "Clip deleted successfully" |})
  end.

(** [router.post('/', [auth, ...], ...)] *)
Definition POST_clip (user : ObjectId) (payload : ClipPayload) (now : N) (st : State)
    : State * Response :=
  let title := trim (body_title payload) in
  let description := trim <$> body_description payload in
  let errors :=
    (if isURL (body_youtubeUrl payload) then []
     else ["Please provide a valid YouTube URL"]) ++
    (if ((1 <=? String.length title) && (String.length title <=? 100))%nat then []
     else ["Title is required and must be less than 100 characters"]) ++
    (match description with
     | Some d => if (String.length d <=? 500)%nat then []
                 else ["Description must be less than 500 characters"]
     | None => []
     end) in
  match errors with
  | msg :: _ => (st, {| status := 400; body := ValidationErrors errors msg |})
  | [] =>
      match extractVideoInfo youtubeDl (body_youtubeUrl payload)
              (body_startTime payload) (body_endTime payload) with
      | Throw msg =>
          (st, if includes "YouTube" msg
               then {| status := 400; body := Message msg |}
               else server_error)
      | Return videoInfo =>
          let '(id, st1) := fresh_id st in
          let clip := {| clip_user := user;
                         clip_title := title;
                         clip_description := default "" description;
                         clip_youtubeUrl := body_youtubeUrl payload;
                         clip_youtubeVideoId := videoId videoInfo;
                         clip_thumbnailUrl := thumbnailUrl videoInfo;
                         clip_duration := duration videoInfo;
                         clip_startTimeSeconds := startTimeSeconds videoInfo;
                         clip_endTimeSeconds := endTimeSeconds videoInfo;
                         clip_createdAt := now |} in
          match Clip_save id clip (clips st1) with
          | Throw _ => (st1, server_error)
          | Return cs =>
              ({| clips := cs; comments := comments st1; likes := likes st1;
                  nextObjectId := nextObjectId st1 |},
               {| status := 201; body := ClipCreated "Clip created successfully" id clip |})
          end
      end
  end.

(** The requests that change the stores, and the states they lead to from
    the empty database. *)
Inductive Request : Type :=
  | CreateClip (user : ObjectId) (payload : ClipPayload) (now : N)
  | ToggleLike (user clipId : ObjectId) (now : N)
  | AddComment (user clipId : ObjectId) (content : string) (now : N)
  | DeleteClip (user clipId : ObjectId).

Definition handle (st : State) (r : Request) : State :=
  match r with
  | CreateClip user payload now => (POST_clip user payload now st).1
  | ToggleLike user clipId now => (POST_like user clipId now st).1
  | AddComment user clipId content now => (POST_comment user clipId content now st).1
  | DeleteClip user clipId => (DELETE_clip user clipId st).1
  end.

Definition run (rs : list Request) : State := foldl handle init rs.

End Handlers.

(** Toggling twice gives back the Like collection and reports the liked
    state and the count from before the first call. *)
Definition toggle_twice_restores (user clipId : ObjectId) (now1 now2 : N) (st : State)
    : Prop :=
  let st1 := (POST_like user clipId now1 st).1 in
  let '(st2, r2) := POST_like user clipId now2 st1 in
  (exists msg, body r2 = LikeToggled msg (liked_by user clipId st)
                           (countDocuments (clip_likes clipId) (likes st)))
  /\ likes st2 = likes st.

(** A provider answer, a request body and a verifier used in the examples. *)
Definition demo_provider (_ : string) : completion VideoInfo :=
  Return {| vi_title := "Demo"; vi_duration := Some (Int 600); vi_thumbnail := None |}.

Definition demo_payload : ClipPayload :=
  {| body_youtubeUrl := "https://youtu.be/dQw4w9WgXcQ";
     body_title := "Demo clip";
     body_description := None;
     body_startTime := Some "2:00";
     body_endTime := Some "1:00" |}.

Definition demo_verify (token : option string) : completion ObjectId :=
  match token with
  | Some "viewer-token" => Return 7%N
  | _ => Throw "JsonWebTokenError: invalid token"
  end.

Definition demo_isURL (_ : string) : bool := true.

(** User 1 posts a clip (it gets [_id] 0), user 7 likes it. *)
Definition demo_liked : State :=
  run demo_provider demo_isURL [CreateClip 1 demo_payload 10; ToggleLike 7 0 20].

End ClipsRoutes.

(** ** Further notions on time codes and URLs *)

Module Texts.
Import JS Regex YoutubeService.

(** The number of colons of a time code. *)
Fixpoint colons (s : string) : nat :=
  match s with
  | String c s' => (if Ascii.eqb c ":" then 1 else 0) + colons s'
  | EmptyString => 0
  end.

(** What may follow an identifier in a URL without getting in the way of
    the pattern: nothing, or a fragment or a further query parameter,
    introduced by [#] or [&], with no [/] and no [?] in it. *)
Definition trailing_noise (tail : string) : bool :=
  match tail with
  | EmptyString => true
  | String c t =>
      (Ascii.eqb c "#" || Ascii.eqb c "&") && lacks "/" t && lacks "?" t
  end.

(** A value of the request body where the code expects a string: a
    string, or any other JSON value, of which only the truthiness matters.
    An absent field ([undefined]) is [None]. *)
Inductive json : Type :=
  | JString (s : string)
  | JOther (truthy : bool).

Definition json_truthy (v : json) : bool :=
  match v with
  | JString s => string_truthy s
  | JOther b => b
  end.

(** [timeToSeconds] on any value: a falsy value is 0, and a truthy value
    that is not a string has no [split] method. *)
Definition timeToSeconds_json (timeStr : json) : completion number :=
  match timeStr with
  | JString s => Return (timeToSeconds s)
  | JOther false => Return (Int 0)
  | JOther true => Throw "TypeError: timeStr.split is not a function"
  end.

(** [extractVideoId] on any value: only a string has a [match] method. *)
Definition extractVideoId_json (url : json) : completion (option string) :=
  match url with
  | JString u => extractVideoId u
  | JOther _ => Throw "TypeError: url.match is not a function"
  end.

(** [extractVideoInfo] on the values a request body can carry. The
    provider receives the URL as it is; it is called for strings only,
    since no other value yields an identifier. *)
Definition extractVideoInfo_json (youtubeDl : string -> completion VideoInfo)
    (youtubeUrl : json) (startTime endTime : option json) : completion ClipMedia :=
  let startTime := default (JString "0:00") startTime in
  let endTime := default (JString "") endTime in
  try_catch
    (id ← extractVideoId_json youtubeUrl;
     match id, youtubeUrl with
     | Some videoId, JString url =>
         videoInfo ← youtubeDl url;
         startTimeSeconds ← timeToSeconds_json startTime;
         endTimeSeconds ←
           (if json_truthy endTime
            then (e ← timeToSeconds_json endTime; Return (Some e))
            else Return None);
         let duration := formatDuration (vi_duration videoInfo) in
         let clipDuration := clipDuration startTimeSeconds endTimeSeconds in
         Return {| videoId := videoId;
                   title := vi_title videoInfo;
                   thumbnailUrl :=
                     or_else (default "" (vi_thumbnail videoInfo))
                       ("https://img.youtube.com/vi/" +:+ videoId +:+ "/hqdefault.jpg");
                   duration := or_else clipDuration duration;
                   startTimeSeconds := startTimeSeconds;
                   endTimeSeconds := endTimeSeconds |}
     | _, _ => Throw "Invalid YouTube URL"
     end)
    (fun _ => Throw extraction_failed).

End Texts.

(** ** routes/clips.js: the listings by author and of comments *)

Module ClipsListings.
Import JS YoutubeService Models ClipsRoutes.

(** A clip of [GET /user/:userId]: the stored document spread together
    with its two counts. *)
Record CountedClip : Type := {
  cc_id : ObjectId;
  cc_clip : Clip;
  cc_likesCount : nat;
  cc_commentsCount : nat
}.

(** A comment of [GET /:id/comments]. *)
Record EnrichedComment : Type := {
  ecm_id : ObjectId;
  ecm_comment : Comment;
  ecm_likesCount : nat;
  ecm_isLiked : bool
}.

(** [{ user: userId }] on clips *)
Definition clips_of (userId : ObjectId) (c : Clip) : bool :=
  bool_decide (clip_user c = userId).

(** [{ comment, type: 'comment' }] *)
Definition comment_likes (comment : ObjectId) (l : Like) : bool :=
  bool_decide (like_comment l = Some comment) && bool_decide (like_type l = type_comment).

(** [{ user, comment, type: 'comment' }] *)
Definition comment_like_of (user comment : ObjectId) (l : Like) : bool :=
  bool_decide (like_user l = user) && bool_decide (like_comment l = Some comment)
  && bool_decide (like_type l = type_comment).

(** [sort({ createdAt: -1 })] on comments *)
Definition newest_comment_first (a b : ObjectId * Comment) : Prop :=
  (comment_createdAt b.2 ≤ comment_createdAt a.2)%N.

#[global] Instance newest_comment_first_dec : RelDecision newest_comment_first.
Proof. intros a b. unfold newest_comment_first. apply _. Defined.

Definition count (st : State) (doc : ObjectId * Clip) : CountedClip :=
  {| cc_id := doc.1;
     cc_clip := doc.2;
     cc_likesCount := countDocuments (clip_likes doc.1) (likes st);
     cc_commentsCount := countDocuments (clip_comments doc.1) (comments st) |}.

(** [router.get('/user/:userId')]: the [clips] array of the answer, whose
    status is 200. *)
Definition GET_user_clips (userId : ObjectId) (st : State) : list CountedClip :=
  count st <$> merge_sort newest_first (map_to_list (matching (clips_of userId) (clips st))).

Section Comments.
Variable jwt_verify : option string -> completion ObjectId.

(** "Check if the user has liked the comment (if authenticated)". *)
Definition viewer_isLiked_comment (authorization : option string) (comment : ObjectId)
    (st : State) : bool :=
  match authorization with
  | Some header =>
      if string_truthy header then
        match (let token := split " " header !! 1%nat in
               _ ← resolve_identifier "jwt";
               userId ← jwt_verify token;
               let like := findOne (comment_like_of userId comment) (likes st) in
               Return (bool_decide (is_Some like))) with
        | Return b => b
        | Throw _ => false
        end
      else false
  | None => false
  end.

Definition enrich_comment (authorization : option string) (st : State)
    (doc : ObjectId * Comment) : EnrichedComment :=
  {| ecm_id := doc.1;
     ecm_comment := doc.2;
     ecm_likesCount := countDocuments (comment_likes doc.1) (likes st);
     ecm_isLiked := viewer_isLiked_comment authorization doc.1 st |}.

(** [router.get('/:id/comments')]: the [comments] array of the answer,
    whose status is 200. *)
Definition GET_comments (clipId : ObjectId) (authorization : option string) (st : State)
    : list EnrichedComment :=
  enrich_comment authorization st
    <$> merge_sort newest_comment_first
          (map_to_list (matching (clip_comments clipId) (comments st))).

End Comments.

(** [GET /] with the query as the handler reads it: [feed_page] and
    [feed_limit] are [parseInt(req.query.page)] and
    [parseInt(req.query.limit)], [None] for [NaN]. *)
Record FeedRequest : Type := {
  feed_page : option Z;
  feed_limit : option Z;
  feed_authorization : option string
}.

Inductive FeedBody : Type :=
  | FeedPage (clips : list EnrichedClip) (page totalPages : Z) (totalClips : nat)
      (hasMore : bool)
  | FeedMessage (message : string).

Record FeedResponse : Type := { feed_status : nat; feed_body : FeedBody }.

(** [x || d] on a parsed integer: [NaN] and 0 give the fallback, any other
    value, negative ones too, is used as it is. *)
Definition or_default (x : option Z) (d : Z) : Z :=
  match x with
  | Some 0%Z | None => d
  | Some z => z
  end.

(** [Math.ceil(a / b)] for a divisor other than 0. *)
Definition ceil_quot (a b : Z) : Z := (- ((- a) / b))%Z.

(** What [find().sort({ createdAt: -1 })] may return: the stored clips,
    newest first. Among clips created at the same time the order is the
    choice of the store, made anew at each query. *)
Definition store_order (st : State) (order : list (ObjectId * Clip)) : Prop :=
  order ≡ₚ map_to_list (clips st) /\ StronglySorted newest_first order.

(** [.skip(skip).limit(limit)] on the sorted result [order]: the store
    refuses a negative skip, and reads a negative limit as its absolute
    value. *)
Definition skip_limit (order : list (ObjectId * Clip)) (skip limit : Z)
    : completion (list (ObjectId * Clip)) :=
  if (skip <? 0)%Z then Throw "MongoServerError: the skip value must be non-negative"
  else Return (take (Z.to_nat (Z.abs limit)) (drop (Z.to_nat skip) order)).


Section Feed.
Variable jwt_verify : option string -> completion ObjectId.

(** [router.get('/')], for the order [order] in which the store returns
    the sorted clips to this request. *)
Definition GET_feed (order : list (ObjectId * Clip)) (req : FeedRequest) (st : State)
    : FeedResponse :=
  let page := or_default (feed_page req) 1 in
  let limit := or_default (feed_limit req) 10 in
  let skip := ((page - 1) * limit)%Z in
  match skip_limit order skip limit with
  | Throw _ => {| feed_status := 500; feed_body := FeedMessage "Server error" |}
  | Return found =>
      let total := size (clips st) in
      let clipsWithCounts := enrich jwt_verify (feed_authorization req) st <$> found in
      {| feed_status := 200;
         feed_body := FeedPage clipsWithCounts page (ceil_quot (Z.of_nat total) limit) total
                        (bool_decide (page * limit < Z.of_nat total)%Z) |}
  end.

End Feed.

(** The [clips] array of a feed page. *)
Definition feed_items (r : FeedResponse) : list EnrichedClip :=
  match feed_body r with
  | FeedPage items _ _ _ _ => items
  | FeedMessage _ => []
  end.

(** A request together with its answer. *)
Definition serve (youtubeDl : string -> completion VideoInfo) (isURL : string -> bool)
    (st : State) (r : Request) : State * Response :=
  match r with
  | CreateClip user payload now => POST_clip youtubeDl isURL user payload now st
  | ToggleLike user clipId now => POST_like user clipId now st
  | AddComment user clipId content now => POST_comment user clipId content now st
  | DeleteClip user clipId => DELETE_clip user clipId st
  end.

(** The [:id] segment of a path: the [_id] it stands for, or a text that
    Mongoose cannot cast to an ObjectId, on which [findById] throws a
    [CastError]. *)
Inductive path_id : Type :=
  | Oid (id : ObjectId)
  | NotOid.






(** Every stored [_id], of any collection, was handed out before. *)
Definition keys_below (st : State) : Prop :=
  (forall i c, clips st !! i = Some c -> (i < nextObjectId st)%N)
  /\ (forall i c, comments st !! i = Some c -> (i < nextObjectId st)%N)
  /\ (forall i l, likes st !! i = Some l -> (i < nextObjectId st)%N).

(** Every comment and every Like refers to a stored clip, and every Like is
    a Like of a clip. *)
Definition refs_exist (st : State) : Prop :=
  (forall i c, comments st !! i = Some c -> is_Some (clips st !! comment_clip c))
  /\ (forall i l, likes st !! i = Some l ->
        like_type l = type_clip /\ like_comment l = None
        /\ exists c, like_clip l = Some c /\ is_Some (clips st !! c)).

(** No user has two Likes. *)
Definition one_like_each (ls : gmap ObjectId Like) : Prop :=
  forall i j a b, ls !! i = Some a -> ls !! j = Some b ->
    like_user a = like_user b -> i = j.

End ClipsListings.

(** ** routes/users.js

    [models/User.js] is not among the sources: a user document is modelled
    by the fields these routes name, and the User collection is passed to
    the handlers beside the state of the clip routes. *)

Module UsersRoutes.
Import JS Models ClipsRoutes ClipsListings.

Record User : Type := {
  user_username : string;
  user_email : string;
  user_password : string;
  user_bio : string;
  user_avatar : string
}.

(** The document of [GET /:id]: the user without [password] and [email],
    spread together with [clipsCount]. *)
Record Profile : Type := {
  profile_id : ObjectId;
  profile_username : string;
  profile_bio : string;
  profile_avatar : string;
  clipsCount : nat
}.

(** The document of [PUT /profile]: the user without [password]. *)
Record Account : Type := {
  account_id : ObjectId;
  account_username : string;
  account_email : string;
  account_bio : string;
  account_avatar : string
}.

Inductive UserBody : Type :=
  | UserMessage (message : string)
  | UserProfile (user : Profile)
  | UserAccount (user : option Account).

Record UserResponse : Type := { user_status : nat; user_body : UserBody }.

(** [router.get('/:id')]. The path segment is cast to an ObjectId by
    [findById]; one that is none makes the query throw, and the handler
    answers 500. *)
Definition GET_user (path : path_id) (users : gmap ObjectId User) (st : State)
    : UserResponse :=
  match path with
  | NotOid => {| user_status := 500; user_body := UserMessage "Server error" |}
  | Oid id =>
      match findById id users with
      | None => {| user_status := 404; user_body := UserMessage "User not found" |}
      | Some user =>
          let clipsCount := countDocuments (clips_of id) (clips st) in
          {| user_status := 200;
             user_body := UserProfile {| profile_id := id;
                                         profile_username := user_username user;
                                         profile_bio := user_bio user;
                                         profile_avatar := user_avatar user;
                                         clipsCount := clipsCount |} |}
      end
  end.

(** The body of [PUT /profile]; an absent field is [None]. *)
Record ProfileBody : Type := {
  body_username : option string;
  body_bio : option string;
  body_avatar : option string
}.

(** [if (x) profileFields.x = x]: the field is set when it is present and
    not empty. *)
Definition provided (x : option string) : option string :=
  match x with
  | Some s => if string_truthy s then Some s else None
  | None => None
  end.

(** [{ username }] on users *)
Definition named (username : string) (u : User) : bool :=
  bool_decide (user_username u = username).

(** [{ $set: profileFields }] *)
Definition set_profile (profileFields : ProfileBody) (u : User) : User :=
  {| user_username := default (user_username u) (body_username profileFields);
     user_email := user_email u;
     user_password := user_password u;
     user_bio := default (user_bio u) (body_bio profileFields);
     user_avatar := default (user_avatar u) (body_avatar profileFields) |}.

Definition without_password (id : ObjectId) (u : User) : Account :=
  {| account_id := id;
     account_username := user_username u;
     account_email := user_email u;
     account_bio := user_bio u;
     account_avatar := user_avatar u |}.

(** [router.put('/profile', auth, ...)], for the authenticated user [me]. *)
Definition PUT_profile (me : ObjectId) (b : ProfileBody) (users : gmap ObjectId User)
    : gmap ObjectId User * UserResponse :=
  let profileFields :=
    {| body_username := provided (body_username b);
       body_bio := provided (body_bio b);
       body_avatar := provided (body_avatar b) |} in
  let taken :=
    match provided (body_username b) with
    | Some username =>
        match findOne (named username) users with
        | Some existingUser => bool_decide (existingUser.1 ≠ me)
        | None => false
        end
    | None => false
    end in
  if taken
  then (users, {| user_status := 400; user_body := UserMessage "Username is already taken" |})
  else
    match findById me users with
    | Some u =>
        let u' := set_profile profileFields u in
        (<[me := u']> users,
         {| user_status := 200; user_body := UserAccount (Some (without_password me u')) |})
    | None => (users, {| user_status := 200; user_body := UserAccount None |})
    end.

(** No two users carry the same name. *)
Definition usernames_unique (users : gmap ObjectId User) : Prop :=
  forall i j a b, users !! i = Some a -> users !! j = Some b ->
    user_username a = user_username b -> i = j.

End UsersRoutes.

(** * Properties *)

Import JS Regex YoutubeService Models ClipsRoutes.

(** ** Time codes *)

Section TimeCodeFacts.
Local Open Scope Z_scope.

Local Ltac euclid := Z.to_euclidean_division_equations; lia.

Lemma split_digits_colon (d : uint) (rest : string) :
  split ":" (NilEmpty.string_of_uint d +:+ String ":" rest)
  = NilEmpty.string_of_uint d :: split ":" rest.
Proof. induction d; simpl; try rewrite IHd; reflexivity. Qed.

Lemma split_digits (d : uint) :
  split ":" (NilEmpty.string_of_uint d) = [NilEmpty.string_of_uint d].
Proof. induction d; simpl; try rewrite IHd; reflexivity. Qed.

Lemma uint_of_string_sign (c : ascii) (s : string) :
  c = "-"%char \/ c = "+"%char -> NilEmpty.uint_of_string (String c s) = None.
Proof.
  intros [->| ->]; cbn; destruct (NilEmpty.uint_of_string s); reflexivity.
Qed.

(** On a group of digits, [Number] is the value of the digits. *)
Lemma Number_unsigned (s : string) (d : uint) :
  NilEmpty.uint_of_string s = Some d -> Number s = Int (Z.of_uint d).
Proof.
  intros H.
  assert (E : unsigned_digits s = Int (Z.of_uint d))
    by (unfold unsigned_digits; now rewrite H).
  destruct s as [|c [|c' s']]; try exact E. unfold Number.
  destruct (Ascii.eqb_spec c "-") as [->|_];
    [rewrite uint_of_string_sign in H by auto; discriminate|].
  destruct (Ascii.eqb_spec c "+") as [->|_];
    [rewrite uint_of_string_sign in H by auto; discriminate|].
  exact E.
Qed.

Lemma Number_digits (d : uint) :
  Number (NilEmpty.string_of_uint d) = Int (Z.of_uint d).
Proof. apply Number_unsigned, NilEmpty.usu. Qed.

Lemma toString_nonneg (z : Z) :
  0 <= z -> exists d, toString (Int z) = NilEmpty.string_of_uint d /\ Z.of_uint d = z.
Proof.
  intros Hz. destruct z as [|p|p]; [| |lia].
  - exists (D0 Nil). split; reflexivity.
  - exists (Pos.to_uint p). split; [reflexivity|].
    unfold Z.of_uint. now rewrite DecimalPos.Unsigned.of_to.
Qed.

(** Padding to two characters only adds leading zeros. *)
Lemma padStart_digits (d : uint) :
  exists d', padStart 2 "0" (NilEmpty.string_of_uint d) = NilEmpty.string_of_uint d'
             /\ Z.of_uint d' = Z.of_uint d.
Proof.
  destruct d as [|d|d|d|d|d|d|d|d|d|d];
    [exists (D0 (D0 Nil)); split; reflexivity | ..];
    (destruct d as [|d|d|d|d|d|d|d|d|d|d];
     [eexists (D0 _); split; reflexivity | eexists; split; reflexivity ..]).
Qed.

Lemma padded_toString (z : Z) :
  0 <= z -> exists d, padStart 2 "0" (toString (Int z)) = NilEmpty.string_of_uint d
                      /\ Z.of_uint d = z.
Proof.
  intros Hz. destruct (toString_nonneg z Hz) as (d & -> & <-).
  apply padStart_digits.
Qed.

(** The early return for ["0:00"] agrees with the general path. *)
Lemma timeToSeconds_parts (s : string) :
  s <> EmptyString ->
  timeToSeconds s =
    match Number <$> split ":" s with
    | [p0; p1] => add (mul p0 (Int 60)) p1
    | [p0; p1; p2] => add (add (mul p0 (Int 3600)) (mul p1 (Int 60))) p2
    | _ => Int 0
    end.
Proof.
  intros Hs. unfold timeToSeconds.
  destruct s as [|c s]; [congruence|]. cbn [string_truthy negb orb].
  destruct (String.eqb_spec (String c s) "0:00") as [->|_]; reflexivity.
Qed.

Lemma app_colon_nonempty (a b : string) : a +:+ String ":" b <> EmptyString.
Proof. destruct a; discriminate. Qed.

Lemma colon_app (x : string) : ":" +:+ x = String ":" x.
Proof. reflexivity. Qed.

Lemma timeToSeconds_two (a b : uint) :
  timeToSeconds (NilEmpty.string_of_uint a +:+ ":" +:+ NilEmpty.string_of_uint b)
  = Int (Z.of_uint a * 60 + Z.of_uint b).
Proof.
  rewrite colon_app, timeToSeconds_parts by apply app_colon_nonempty.
  rewrite split_digits_colon, split_digits.
  cbn [fmap list_fmap]. now rewrite !Number_digits.
Qed.

Lemma timeToSeconds_three (a b c : uint) :
  timeToSeconds (NilEmpty.string_of_uint a +:+ ":" +:+ NilEmpty.string_of_uint b
                 +:+ ":" +:+ NilEmpty.string_of_uint c)
  = Int (Z.of_uint a * 3600 + Z.of_uint b * 60 + Z.of_uint c).
Proof.
  rewrite !colon_app, timeToSeconds_parts by apply app_colon_nonempty.
  rewrite !split_digits_colon, split_digits.
  cbn [fmap list_fmap]. now rewrite !Number_digits.
Qed.

Lemma formatDuration_truthy (s : Z) :
  s <> 0 ->
  formatDuration (Some (Int s)) =
    if 0 <? s / 3600
    then toString (Int (s / 3600)) +:+ ":"
           +:+ padStart 2 "0" (toString (Int (Z.rem s 3600 / 60)))
           +:+ ":" +:+ padStart 2 "0" (toString (Int (Z.rem s 60)))
    else toString (Int (Z.rem s 3600 / 60)) +:+ ":"
           +:+ padStart 2 "0" (toString (Int (Z.rem s 60))).
Proof.
  intros Hs. unfold formatDuration, number_truthy.
  destruct (Z.eqb_spec s 0) as [|_]; [congruence|]. reflexivity.
Qed.

Lemma TimeCode_format_roundtrip (s : Z) :
  0 <= s -> timeToSeconds (TimeCode_format s) = Int s.
Proof.
  intros Hs. unfold TimeCode_format.
  destruct (padded_toString (s mod 60)) as (ds & -> & Hds); [euclid|].
  destruct (Z.leb_spec 3600 s).
  - destruct (toString_nonneg (s / 3600)) as (dh & -> & Hdh); [euclid|].
    destruct (padded_toString (s mod 3600 / 60)) as (dm & -> & Hdm); [euclid|].
    rewrite timeToSeconds_three. f_equal. euclid.
  - destruct (toString_nonneg (s / 60)) as (dm & -> & Hdm); [euclid|].
    rewrite timeToSeconds_two. f_equal. euclid.
Qed.

(** For a positive number of seconds the code renders what the
    specification describes. *)
Lemma formatDuration_spec (s : Z) :
  0 < s -> formatDuration (Some (Int s)) = TimeCode_format s.
Proof.
  intros Hs. rewrite formatDuration_truthy by lia. unfold TimeCode_format.
  rewrite !Z.rem_mod_nonneg by lia.
  destruct (Z.ltb_spec 0 (s / 3600)), (Z.leb_spec 3600 s); try euclid.
  - reflexivity.
  - replace (s mod 3600) with s by euclid. reflexivity.
Qed.

(** C8. For every integer [s] with [0 <= s <= 359999], parsing the string
    produced by the duration formatter yields [s] back. This holds for the
    formatter of [extractVideoInfo] (which renders zero seconds as the empty
    string, parsed as 0) and for the rendering the specification describes
    ([h:mm:ss] from one hour on, [m:ss] below, two-digit minutes and
    seconds); both agree on every positive [s]. *)
Theorem timeToSeconds_formatDuration_roundtrip (s : Z) :
  0 <= s <= 359999 ->
  timeToSeconds (formatDuration (Some (Int s))) = Int s
  /\ timeToSeconds (TimeCode_format s) = Int s
  /\ (0 < s -> formatDuration (Some (Int s)) = TimeCode_format s).
Proof.
  intros [Hlo Hhi]. split; [|split].
  - destruct (Z.eq_dec s 0) as [->|Hne]; [reflexivity|].
    rewrite formatDuration_spec by lia. now apply TimeCode_format_roundtrip.
  - now apply TimeCode_format_roundtrip.
  - apply formatDuration_spec.
Qed.

Lemma timeToSeconds_formatDuration_roundtrip_witness :
  0 <= 3723 <= 359999
  /\ formatDuration (Some (Int 3723)) = "1:02:03"%string
  /\ timeToSeconds (formatDuration (Some (Int 3723))) = Int 3723.
Proof.
  assert (H : 0 <= 3723 <= 359999) by lia.
  split; [exact H|]. split; [reflexivity|].
  exact (proj1 (timeToSeconds_formatDuration_roundtrip 3723 H)).
Defined.

End TimeCodeFacts.

(** ** Extraction of the video record *)

Section ExtractionFacts.
Local Open Scope Z_scope.

(** A successful extraction went through every step of the [try] block. *)
Lemma extractVideoInfo_Return yt url startTime endTime media :
  extractVideoInfo yt url startTime endTime = Return media ->
  exists id info,
    extractVideoId url = Return (Some id) /\ yt url = Return info /\
    let s := timeToSeconds (default "0:00"%string startTime) in
    let e := if string_truthy (default ""%string endTime)
             then Some (timeToSeconds (default ""%string endTime)) else None in
    media = {| videoId := id;
               title := vi_title info;
               thumbnailUrl :=
                 or_else (default ""%string (vi_thumbnail info))
                   ("https://img.youtube.com/vi/" +:+ id +:+ "/hqdefault.jpg");
               duration := or_else (clipDuration s e) (formatDuration (vi_duration info));
               startTimeSeconds := s;
               endTimeSeconds := e |}.
Proof.
  unfold extractVideoInfo. intros H.
  destruct (extractVideoId url) as [[id|]|err]; try discriminate.
  cbn in H. destruct (yt url) as [info|err]; try discriminate.
  cbn in H. exists id, info. repeat split. now injection H as <-.
Qed.


Lemma clipDuration_cases (s : number) (e : option number) :
  (exists e', e = Some e' /\ number_truthy e' = true /\ lt s e' = true
              /\ clipDuration s e = formatSpan (sub e' s))
  \/ (clipDuration s e = EmptyString
      /\ forall e', e = Some e' -> number_truthy e' && lt s e' = false).
Proof.
  unfold clipDuration. destruct e as [e'|].
  - destruct (number_truthy e' && lt s e') eqn:E.
    + left. exists e'. apply andb_prop in E as []. auto.
    + right. split; [reflexivity|]. intros ? [= <-]. exact E.
  - right. split; [reflexivity|]. discriminate.
Qed.

Lemma Number_decimal_group (seg : string) :
  decimal_group seg = true -> exists z, Number seg = Int z /\ 0 <= z.
Proof.
  unfold decimal_group.
  destruct (NilEmpty.uint_of_string seg) as [d|] eqn:E; [|discriminate].
  intros _. exists (Z.of_uint d). split; [now apply Number_unsigned|].
  unfold Z.of_uint. lia.
Qed.

(** A time code made of digit groups parses to a non-negative integer. *)
Lemma timeToSeconds_decimal (s : string) :
  decimal_timecode s = true -> exists z, timeToSeconds s = Int z /\ 0 <= z.
Proof.
  unfold decimal_timecode, timeToSeconds. intros H.
  destruct (negb (string_truthy s) || String.eqb s "0:00");
    [exists 0; split; [reflexivity|lia]|].
  destruct (split ":" s) as [|a [|b [|c [|? ?]]]];
    try (exists 0; split; [reflexivity|lia]).
  - cbn in H. apply andb_prop in H as [Ha H]. apply andb_prop in H as [Hb _].
    destruct (Number_decimal_group a Ha) as (x & Hx & ?).
    destruct (Number_decimal_group b Hb) as (y & Hy & ?).
    cbn. rewrite Hx, Hy. eexists; split; [reflexivity|lia].
  - cbn in H. apply andb_prop in H as [Ha H]. apply andb_prop in H as [Hb H].
    apply andb_prop in H as [Hc _].
    destruct (Number_decimal_group a Ha) as (x & Hx & ?).
    destruct (Number_decimal_group b Hb) as (y & Hy & ?).
    destruct (Number_decimal_group c Hc) as (z & Hz & ?).
    cbn. rewrite Hx, Hy, Hz. eexists; split; [reflexivity|lia].
Qed.








(** C3 as stated fails: a request with start 2:00 and end 1:00 yields a
    record with trim-start 120 and trim-end 60. *)
Lemma trim_window_counterexample :
  ~ (forall yt url startTime endTime media,
       extractVideoInfo yt url startTime endTime = Return media ->
       trim_window_ordered media).
Proof.
  intros H.
  specialize (H demo_provider "https://youtu.be/dQw4w9WgXcQ"%string
                (Some "2:00"%string) (Some "1:00"%string) _ eq_refl (Int 60) eq_refl).
  discriminate H.
Qed.

(** The clip stored by [POST /] for that request carries the same window. *)
Lemma POST_clip_stores_unordered_window :
  exists c, clips demo_liked !! 0%N = Some c
            /\ clip_startTimeSeconds c = Int 120 /\ clip_endTimeSeconds c = Some (Int 60).
Proof. eexists. split; [vm_compute; reflexivity|]. split; reflexivity. Qed.

Lemma Clip_save_Return id c (coll cs : gmap ObjectId Clip) :
  Clip_save id c coll = Return cs ->
  cs = <[id := c]> coll /\ clip_startTimeSeconds c <> NaN
  /\ clip_endTimeSeconds c <> Some NaN.
Proof.
  unfold Clip_save, insertOne. intros H.
  destruct (clip_startTimeSeconds c) as [z|]; [|discriminate]. cbn in H.
  destruct (clip_endTimeSeconds c) as [[z'|]|]; try discriminate; cbn in H;
    destruct (coll !! id); try discriminate; injection H as <-; repeat split;
    discriminate.
Qed.

(** A clip created by [POST /] carries the trim window of the extracted
    record. *)
Lemma POST_clip_created yt isURL user payload now st st' r :
  POST_clip yt isURL user payload now st = (st', r) -> status r = 201%nat ->
  exists media c,
    extractVideoInfo yt (body_youtubeUrl payload) (body_startTime payload)
      (body_endTime payload) = Return media
    /\ clips st' !! nextObjectId st = Some c
    /\ clip_startTimeSeconds c = startTimeSeconds media
    /\ clip_endTimeSeconds c = endTimeSeconds media.
Proof.
  unfold POST_clip. intros H Hr.
  destruct (_ ++ _); [|injection H as <- <-; discriminate].
  destruct (extractVideoInfo _ _ _ _) as [media|msg].
  - unfold fresh_id in H. cbv beta iota zeta in H.
    match type of H with context [Clip_save ?a ?b ?c] =>
      destruct (Clip_save a b c) as [cs|e] eqn:E end.
    + injection H as <- <-. apply Clip_save_Return in E as (-> & _).
      eexists media, _. split; [reflexivity|]. cbn. rewrite lookup_insert_eq.
      split; [reflexivity|]. split; reflexivity.
    + injection H as <- <-. discriminate.
  - injection H as <- <-. destruct (includes _ _); discriminate.
Qed.

(** C3 (amended). A record produced by extraction carries the parsed start
    and the parsed end (absent for an empty or omitted end text) as they
    come, in any order; the end is after the start whenever the trim-span
    duration was computed (the local [clipDuration] is not empty). A clip
    created by [POST /] stores the same two values. *)
Theorem extractVideoInfo_trim_window :
  (forall yt url startTime endTime media,
     extractVideoInfo yt url startTime endTime = Return media ->
     startTimeSeconds media = timeToSeconds (default "0:00"%string startTime)
     /\ endTimeSeconds media =
          (if string_truthy (default ""%string endTime)
           then Some (timeToSeconds (default ""%string endTime)) else None)
     /\ (clipDuration (startTimeSeconds media) (endTimeSeconds media) <> EmptyString ->
         trim_window_ordered media))
  /\ (forall yt isURL user payload now st st' r,
        POST_clip yt isURL user payload now st = (st', r) -> status r = 201%nat ->
        exists c,
          clips st' !! nextObjectId st = Some c
          /\ clip_startTimeSeconds c
             = timeToSeconds (default "0:00"%string (body_startTime payload))
          /\ clip_endTimeSeconds c =
               (if string_truthy (default ""%string (body_endTime payload))
                then Some (timeToSeconds (default ""%string (body_endTime payload)))
                else None)).
Proof.
  assert (Hextract : forall yt url startTime endTime media,
     extractVideoInfo yt url startTime endTime = Return media ->
     startTimeSeconds media = timeToSeconds (default "0:00"%string startTime)
     /\ endTimeSeconds media =
          (if string_truthy (default ""%string endTime)
           then Some (timeToSeconds (default ""%string endTime)) else None)
     /\ (clipDuration (startTimeSeconds media) (endTimeSeconds media) <> EmptyString ->
         trim_window_ordered media)).
  { intros yt url startTime endTime media H.
    destruct (extractVideoInfo_Return _ _ _ _ _ H) as (id & info & _ & _ & ->).
    unfold trim_window_ordered. cbn. split; [reflexivity|]. split; [reflexivity|].
    set (s := timeToSeconds _). set (e := if string_truthy _ then _ else _).
    intros Hne e' He.
    destruct (clipDuration_cases s e) as [(e0 & E0 & _ & Hlt & _)|[E0 _]]; congruence. }
  split; [exact Hextract|].
  intros yt isURL user payload now st st' r H Hr.
  destruct (POST_clip_created _ _ _ _ _ _ _ _ H Hr) as (media & c & Hm & Hc & Hs & He).
  destruct (Hextract _ _ _ _ _ Hm) as (Hs' & He' & _).
  exists c. rewrite Hs, He. auto.
Qed.

Lemma extractVideoInfo_trim_window_witness :
  exists media,
    extractVideoInfo demo_provider "https://youtu.be/dQw4w9WgXcQ"
      (Some "1:00"%string) (Some "2:05"%string) = Return media
    /\ startTimeSeconds media = Int 60 /\ endTimeSeconds media = Some (Int 125)
    /\ trim_window_ordered media.
Proof.
  eexists. split; [vm_compute; reflexivity|].
  destruct (proj1 extractVideoInfo_trim_window demo_provider
              "https://youtu.be/dQw4w9WgXcQ"%string
              (Some "1:00"%string) (Some "2:05"%string) _ eq_refl) as (Hs & He & Hord).
  split; [exact Hs|]. split; [exact He|]. apply Hord. vm_compute. discriminate.
Defined.

End ExtractionFacts.

(** ** Collections *)

Section CollectionFacts.
Context {Doc : Type}.
Implicit Types (q : Doc -> bool) (coll : gmap N Doc).

Lemma matching_lookup q coll i d :
  matching q coll !! i = Some d <-> coll !! i = Some d /\ q d = true.
Proof. unfold matching. now rewrite map_lookup_filter_Some. Qed.

Lemma findOne_None q coll :
  findOne q coll = None <-> forall i d, coll !! i = Some d -> q d = false.
Proof.
  unfold findOne. rewrite head_None, map_to_list_empty_iff, map_empty.
  split.
  - intros H i d Hi. destruct (q d) eqn:E; [|reflexivity].
    specialize (H i). rewrite (proj2 (matching_lookup q coll i d)) in H; [discriminate|auto].
  - intros H i. destruct (matching q coll !! i) as [d|] eqn:E; [|reflexivity].
    apply matching_lookup in E as [Hi Hq]. rewrite (H i d Hi) in Hq. discriminate.
Qed.

Lemma findOne_Some q coll i d :
  findOne q coll = Some (i, d) -> coll !! i = Some d /\ q d = true.
Proof.
  unfold findOne. intros H. apply head_Some_elem_of in H.
  apply elem_of_map_to_list in H. now apply matching_lookup.
Qed.

Lemma findOne_ext q q' coll :
  (forall d, q d = q' d) -> findOne q coll = findOne q' coll.
Proof.
  intros H. unfold findOne, matching. f_equal. f_equal.
  apply map_filter_ext. intros i d _. cbn. now rewrite H.
Qed.

Lemma findOne_insert_only q coll i d :
  findOne q coll = None -> coll !! i = None -> q d = true ->
  findOne q (<[i := d]> coll) = Some (i, d).
Proof.
  intros Hnone Hi Hq. unfold findOne, matching.
  rewrite map_filter_insert_True by exact Hq.
  replace (filter _ coll) with (∅ : gmap N Doc).
  - now rewrite insert_empty, map_to_list_singleton.
  - symmetry. apply map_to_list_empty_iff.
    unfold findOne, matching in Hnone. now apply head_None in Hnone.
Qed.

Lemma countDocuments_insert q coll i d :
  coll !! i = None -> q d = true ->
  countDocuments q (<[i := d]> coll) = S (countDocuments q coll).
Proof.
  intros Hi Hq. unfold countDocuments, matching.
  rewrite map_filter_insert_True by exact Hq.
  apply map_size_insert_None. apply map_lookup_filter_None. now left.
Qed.

Lemma countDocuments_delete q coll i d :
  coll !! i = Some d -> q d = true ->
  S (countDocuments q (delete i coll)) = countDocuments q coll.
Proof.
  intros Hi Hq. unfold countDocuments, matching.
  rewrite map_filter_delete.
  assert (Hin : filter (fun kv => q kv.2 = true) coll !! i = Some d)
    by (apply map_lookup_filter_Some; auto).
  rewrite map_size_delete, Hin. cbn.
  assert (size (filter (fun kv : N * Doc => q kv.2 = true) coll) <> 0)%nat.
  { apply map_size_ne_0_lookup. eauto. }
  lia.
Qed.

Lemma deleteMany_lookup q coll i d :
  deleteMany q coll !! i = Some d <-> coll !! i = Some d /\ q d = false.
Proof. unfold deleteMany. now rewrite map_lookup_filter_Some. Qed.

End CollectionFacts.

Section LikeStore.
Implicit Types (ls : gmap ObjectId Like) (l d : Like).

Lemma same_key_clip l d :
  same_key index_user_clip_type l d = true <->
  like_user d = like_user l /\ like_clip d = like_clip l /\ like_type d = like_type l.
Proof.
  unfold same_key, index_user_clip_type. rewrite bool_decide_eq_true.
  split; [intros [= Hu Hc Hk]; auto|intros (-> & -> & ->); reflexivity].
Qed.

Lemma same_key_comment l d :
  same_key index_user_comment_type l d = true <->
  like_user d = like_user l /\ like_comment d = like_comment l
  /\ like_type d = like_type l.
Proof.
  unfold same_key, index_user_comment_type. rewrite bool_decide_eq_true.
  split; [intros [= Hu Hc Hk]; auto|intros (-> & -> & ->); reflexivity].
Qed.

Lemma Like_save_Return id l ls ls' :
  Like_save id l ls = Return ls' ->
  ls !! id = None /\ ls' = <[id := l]> ls
  /\ (forall i d, ls !! i = Some d ->
        same_key index_user_clip_type l d = false
        /\ same_key index_user_comment_type l d = false).
Proof.
  unfold Like_save, insertOne. intros H.
  destruct (findOne (same_key index_user_clip_type l) ls) eqn:E1; [discriminate|].
  destruct (findOne (same_key index_user_comment_type l) ls) eqn:E2; [discriminate|].
  destruct (ls !! id) eqn:E3; [discriminate|]. injection H as <-.
  split; [reflexivity|]. split; [reflexivity|]. intros i d Hi.
  rewrite findOne_None in E1, E2. eauto.
Qed.

(** The unique indexes refuse a second Like for a stored triple. *)
Lemma Like_save_duplicate id l ls i d t :
  ls !! i = Some d ->
  like_user d = like_user l -> like_type d = like_type l ->
  like_target d = Some t -> like_target l = Some t ->
  exists e, Like_save id l ls = Throw e.
Proof.
  intros Hi Hu Hk Hd Hl. unfold Like_save.
  assert (same_key index_user_clip_type l d = true
          \/ same_key index_user_comment_type l d = true) as [H|H].
  { unfold like_target in Hd, Hl. rewrite Hk in Hd.
    destruct (like_type l) eqn:El.
    - left. apply same_key_clip. repeat split; congruence.
    - right. apply same_key_comment. repeat split; congruence. }
  all: revert H.
  - intros H. destruct (findOne (same_key index_user_clip_type l) ls) eqn:E.
    + destruct (findOne _ ls); eauto.
    + rewrite findOne_None in E. rewrite (E _ _ Hi) in H. discriminate.
  - intros H. destruct (findOne (same_key index_user_comment_type l) ls) eqn:E.
    + destruct (findOne (same_key index_user_clip_type l) ls); eauto.
    + rewrite findOne_None in E. rewrite (E _ _ Hi) in H. discriminate.
Qed.

Lemma Like_save_unique id l ls ls' :
  likes_unique ls -> Like_save id l ls = Return ls' -> likes_unique ls'.
Proof.
  intros Huniq Hsave i j a b t Hi Hj Hu Hk Ha Hb.
  destruct (decide (i = j)) as [|Hne]; [assumption|exfalso].
  destruct (Like_save_Return _ _ _ _ Hsave) as (Hid & -> & _).
  destruct (decide (i = id)) as [->|Hi'], (decide (j = id)) as [->|Hj'];
    try congruence.
  - rewrite lookup_insert_eq in Hi. injection Hi as <-.
    rewrite lookup_insert_ne in Hj by congruence.
    destruct (Like_save_duplicate id l ls j b t Hj) as [e He]; congruence.
  - rewrite lookup_insert_eq in Hj. injection Hj as <-.
    rewrite lookup_insert_ne in Hi by congruence.
    destruct (Like_save_duplicate id l ls i a t Hi) as [e He]; congruence.
  - rewrite lookup_insert_ne in Hi, Hj by congruence.
    apply Hne. eapply Huniq; eauto.
Qed.

Lemma likes_unique_subseteq ls ls' :
  ls' ⊆ ls -> likes_unique ls -> likes_unique ls'.
Proof.
  intros Hsub Huniq i j a b t Hi Hj. 
  eapply Huniq; eapply lookup_weaken; eauto.
Qed.

Lemma clip_like_of_true user clipId d :
  clip_like_of user clipId d = true <->
  like_user d = user /\ like_clip d = Some clipId /\ like_type d = type_clip.
Proof.
  unfold clip_like_of. rewrite !andb_true_iff, !bool_decide_eq_true. tauto.
Qed.

Lemma clip_like_of_likes user clipId d :
  clip_like_of user clipId d = true -> clip_likes clipId d = true.
Proof.
  rewrite clip_like_of_true. unfold clip_likes.
  rewrite andb_true_iff, !bool_decide_eq_true. tauto.
Qed.

Lemma clip_like_by_true user d :
  clip_like_by user d = true <->
  like_user d = user /\ like_comment d = None /\ like_type d = type_clip.
Proof.
  unfold clip_like_by. rewrite !andb_true_iff, !bool_decide_eq_true. tauto.
Qed.

(** What the two indexes hold against a new Like of a clip. *)
Lemma new_like_clip_key user clipId now d :
  same_key index_user_clip_type (new_like user clipId now) d = clip_like_of user clipId d.
Proof.
  apply eq_true_iff_eq. rewrite same_key_clip, clip_like_of_true. cbn. tauto.
Qed.

Lemma new_like_comment_key user clipId now d :
  same_key index_user_comment_type (new_like user clipId now) d = clip_like_by user d.
Proof.
  apply eq_true_iff_eq. rewrite same_key_comment, clip_like_by_true. cbn. tauto.
Qed.

Lemma Like_save_new_cases user clipId now id ls :
  Like_save id (new_like user clipId now) ls =
    match findOne (clip_like_of user clipId) ls, findOne (clip_like_by user) ls with
    | None, None => insertOne id (new_like user clipId now) ls
    | _, _ => Throw "E11000 duplicate key error"
    end.
Proof.
  unfold Like_save.
  rewrite (findOne_ext _ _ ls (new_like_clip_key user clipId now)).
  now rewrite (findOne_ext _ _ ls (new_like_comment_key user clipId now)).
Qed.

Lemma Like_save_new user clipId now id ls :
  findOne (clip_like_of user clipId) ls = None ->
  findOne (clip_like_by user) ls = None -> ls !! id = None ->
  Like_save id (new_like user clipId now) ls = Return (<[id := new_like user clipId now]> ls).
Proof.
  intros Hnone Hfree Hid. rewrite Like_save_new_cases, Hnone, Hfree.
  unfold insertOne. now rewrite Hid.
Qed.

(** A user who has a Like of a clip cannot store a Like of another one:
    the index on [comment] holds one entry [(user, null, 'clip')]. *)
Lemma Like_save_second user clipId now id ls :
  is_Some (findOne (clip_like_by user) ls) ->
  exists e, Like_save id (new_like user clipId now) ls = Throw e.
Proof.
  intros [x Hx]. rewrite Like_save_new_cases, Hx.
  destruct (findOne (clip_like_of user clipId) ls); eauto.
Qed.

End LikeStore.

Section HandlerFacts.
Implicit Types (st : State) (user clipId : ObjectId).

Lemma POST_like_missing user clipId now st :
  clips st !! clipId = None -> POST_like user clipId now st = (st, clip_not_found).
Proof. unfold POST_like, findById. now intros ->. Qed.

Lemma POST_like_unlike user clipId now st c i l :
  clips st !! clipId = Some c ->
  findOne (clip_like_of user clipId) (likes st) = Some (i, l) ->
  POST_like user clipId now st =
    (with_likes st (delete i (likes st)),
     {| status := 200;
        body := LikeToggled "Clip unliked successfully" false
                  (countDocuments (clip_likes clipId) (delete i (likes st))) |}).
Proof. unfold POST_like, findById, findByIdAndDelete. now intros -> ->. Qed.

Lemma POST_like_like user clipId now st c :
  clips st !! clipId = Some c ->
  findOne (clip_like_of user clipId) (likes st) = None ->
  findOne (clip_like_by user) (likes st) = None ->
  likes st !! nextObjectId st = None ->
  POST_like user clipId now st =
    (with_likes (fresh_id st).2
       (<[nextObjectId st := new_like user clipId now]> (likes st)),
     {| status := 200;
        body := LikeToggled "Clip liked successfully" true
                  (countDocuments (clip_likes clipId)
                     (<[nextObjectId st := new_like user clipId now]> (likes st))) |}).
Proof.
  unfold POST_like, findById. intros -> Hnone Hfree Hid. rewrite Hnone. cbn.
  now rewrite Like_save_new.
Qed.

(** The toggle of a viewer who has a Like on another clip is refused by
    the index on [comment]. *)
Lemma POST_like_refused user clipId now st c :
  clips st !! clipId = Some c ->
  findOne (clip_like_of user clipId) (likes st) = None ->
  is_Some (findOne (clip_like_by user) (likes st)) ->
  POST_like user clipId now st = ((fresh_id st).2, server_error).
Proof.
  unfold POST_like, findById. intros -> Hnone Hheld. rewrite Hnone. cbn.
  destruct (Like_save_second user clipId now (nextObjectId st) (likes st) Hheld) as [e ->].
  reflexivity.
Qed.

Lemma POST_like_likes_unique user clipId now st :
  likes_unique (likes st) -> likes_unique (likes (POST_like user clipId now st).1).
Proof.
  intros Huniq. unfold POST_like.
  destruct (findById clipId (clips st)); [|exact Huniq].
  destruct (findOne (clip_like_of user clipId) (likes st)) as [[i l]|].
  - cbn. eapply likes_unique_subseteq; [apply delete_subseteq|exact Huniq].
  - cbn. destruct (Like_save _ _ (likes st)) as [ls|e] eqn:E; cbn.
    + eapply Like_save_unique; eauto.
    + exact Huniq.
Qed.

Lemma POST_comment_likes user clipId content now st :
  likes (POST_comment user clipId content now st).1 = likes st.
Proof.
  unfold POST_comment.
  destruct (_ && _)%nat; [|reflexivity].
  destruct (findById clipId (clips st)); [|reflexivity].
  unfold fresh_id. cbv beta iota zeta.
  match goal with |- context [insertOne ?a ?b ?c] => destruct (insertOne a b c) end;
    reflexivity.
Qed.

Lemma POST_clip_likes yt isURL user payload now st :
  likes (POST_clip yt isURL user payload now st).1 = likes st.
Proof.
  unfold POST_clip.
  destruct (_ ++ _); [|reflexivity].
  destruct (extractVideoInfo _ _ _ _); [|reflexivity].
  unfold fresh_id. cbv beta iota zeta.
  match goal with |- context [Clip_save ?a ?b ?c] => destruct (Clip_save a b c) end;
    reflexivity.
Qed.

Lemma DELETE_clip_likes_subseteq user clipId st :
  likes (DELETE_clip user clipId st).1 ⊆ likes st.
Proof.
  unfold DELETE_clip.
  destruct (findById clipId (clips st)); [|reflexivity].
  destruct (bool_decide _); [reflexivity|]. cbn. apply map_filter_subseteq.
Qed.

Lemma handle_likes_unique yt isURL st r :
  likes_unique (likes st) -> likes_unique (likes (handle yt isURL st r)).
Proof.
  intros Huniq. destruct r; cbn.
  - now rewrite POST_clip_likes.
  - now apply POST_like_likes_unique.
  - now rewrite POST_comment_likes.
  - eapply likes_unique_subseteq; [apply DELETE_clip_likes_subseteq|exact Huniq].
Qed.

Lemma foldl_handle_likes_unique yt isURL rs st :
  likes_unique (likes st) -> likes_unique (likes (foldl (handle yt isURL) st rs)).
Proof.
  revert st. induction rs as [|r rs IH]; intros st Huniq; cbn; [exact Huniq|].
  apply IH. now apply handle_likes_unique.
Qed.

Lemma liked_by_true user clipId st :
  liked_by user clipId st = true <->
  exists i l, findOne (clip_like_of user clipId) (likes st) = Some (i, l).
Proof.
  unfold liked_by. rewrite bool_decide_eq_true. split.
  - intros [[i l] H]. eauto.
  - intros (i & l & ->). eauto.
Qed.

Lemma liked_by_false user clipId st :
  liked_by user clipId st = false <->
  findOne (clip_like_of user clipId) (likes st) = None.
Proof.
  unfold liked_by. rewrite bool_decide_eq_false.
  destruct (findOne _ _); split; intros H; try reflexivity; try discriminate.
  - exfalso. apply H. eauto.
  - intros [? ?]. discriminate.
Qed.

End HandlerFacts.

(** ** Invariants of the reachable states *)

Section Invariants.
Implicit Types (st : State).

Lemma ids_below_mono st st' :
  likes st' ⊆ likes st -> (nextObjectId st <= nextObjectId st')%N ->
  ids_below st -> ids_below st'.
Proof.
  intros Hsub Hle Hids i l Hi.
  pose proof (Hids i l (lookup_weaken _ _ _ _ Hi Hsub)). lia.
Qed.

Lemma POST_like_ids_below user clipId now st :
  ids_below st -> ids_below (POST_like user clipId now st).1.
Proof.
  intros Hids. unfold POST_like.
  destruct (findById clipId (clips st)); [|exact Hids].
  destruct (findOne (clip_like_of user clipId) (likes st)) as [[i l]|].
  - cbn [fst]. apply (ids_below_mono st); [apply delete_subseteq|reflexivity|exact Hids].
  - unfold fresh_id. cbv beta iota zeta. cbn [likes].
    destruct (Like_save _ _ (likes st)) as [ls|e] eqn:E; cbn [fst].
    + destruct (Like_save_Return _ _ _ _ E) as (_ & -> & _).
      intros i l. cbn. destruct (decide (i = nextObjectId st)) as [->|Hne].
      * intros _. lia.
      * rewrite lookup_insert_ne by congruence. intros Hi.
        pose proof (Hids i l Hi). lia.
    + apply (ids_below_mono st); [| |exact Hids]; cbn; [reflexivity|lia].
Qed.

Lemma POST_comment_nextObjectId user clipId content now st :
  (nextObjectId st <= nextObjectId (POST_comment user clipId content now st).1)%N.
Proof.
  unfold POST_comment.
  destruct (_ && _)%nat; [|reflexivity].
  destruct (findById clipId (clips st)); [|reflexivity].
  unfold fresh_id. cbv beta iota zeta.
  match goal with |- context [insertOne ?a ?b ?c] => destruct (insertOne a b c) end;
    cbn; lia.
Qed.

Lemma POST_clip_nextObjectId yt isURL user payload now st :
  (nextObjectId st <= nextObjectId (POST_clip yt isURL user payload now st).1)%N.
Proof.
  unfold POST_clip.
  destruct (_ ++ _); [|reflexivity].
  destruct (extractVideoInfo _ _ _ _); [|reflexivity].
  unfold fresh_id. cbv beta iota zeta.
  match goal with |- context [Clip_save ?a ?b ?c] => destruct (Clip_save a b c) end;
    cbn; lia.
Qed.

Lemma DELETE_clip_nextObjectId user clipId st :
  nextObjectId (DELETE_clip user clipId st).1 = nextObjectId st.
Proof.
  unfold DELETE_clip.
  destruct (findById clipId (clips st)); [|reflexivity].
  destruct (bool_decide _); reflexivity.
Qed.

Lemma handle_ids_below yt isURL st r :
  ids_below st -> ids_below (handle yt isURL st r).
Proof.
  intros Hids. destruct r; cbn.
  - apply (ids_below_mono st); [|apply POST_clip_nextObjectId|exact Hids].
    now rewrite POST_clip_likes.
  - now apply POST_like_ids_below.
  - apply (ids_below_mono st); [|apply POST_comment_nextObjectId|exact Hids].
    now rewrite POST_comment_likes.
  - apply (ids_below_mono st); [apply DELETE_clip_likes_subseteq| |exact Hids].
    now rewrite DELETE_clip_nextObjectId.
Qed.

Lemma run_ids_below yt isURL rs : ids_below (run yt isURL rs).
Proof.
  unfold run.
  assert (H : ids_below init)
    by (intros i l Hi; cbn in Hi; now rewrite lookup_empty in Hi).
  revert H. generalize init. induction rs as [|r rs IH]; intros st H; cbn; [exact H|].
  apply IH. now apply handle_ids_below.
Qed.

Lemma run_likes_unique yt isURL rs : likes_unique (likes (run yt isURL rs)).
Proof.
  apply foldl_handle_likes_unique. intros i j a b t Hi. cbn in Hi.
  now rewrite lookup_empty in Hi.
Qed.

End Invariants.

(** Any sequence of writes keeps the Likes unique. *)
Lemma writes_likes_unique (ws : list LikeWrite) (ls : gmap ObjectId Like) :
  likes_unique ls -> likes_unique (foldl apply_write ls ws).
Proof.
  revert ls. induction ws as [|w ws IH]; intros ls Huniq; cbn; [exact Huniq|].
  apply IH. destruct w as [id l|id|q]; cbn.
  - destruct (Like_save id l ls) as [ls'|e] eqn:E; [|exact Huniq].
    eapply Like_save_unique; eauto.
  - eapply likes_unique_subseteq; [apply delete_subseteq|exact Huniq].
  - eapply likes_unique_subseteq; [apply map_filter_subseteq|exact Huniq].
Qed.

(** C6. In every state reached from the empty database through the
    handlers there is at most one Like per (actor, target, kind), and the
    same holds after any sequence of single writes to the Like collection,
    however requests interleave; the Like collection itself refuses a Like
    whose triple is already stored; and the toggle inserts nothing when the
    viewer already has a Like on the clip. *)
Theorem like_uniqueness :
  (forall yt isURL rs, likes_unique (likes (run yt isURL rs)))
  /\ (forall ws, likes_unique (foldl apply_write ∅ ws))
  /\ (forall (ls : gmap ObjectId Like) id l i d t,
        ls !! i = Some d ->
        like_user d = like_user l -> like_type d = like_type l ->
        like_target d = Some t -> like_target l = Some t ->
        exists e, Like_save id l ls = Throw e)
  /\ (forall user clipId now st,
        liked_by user clipId st = true ->
        likes (POST_like user clipId now st).1 ⊆ likes st).
Proof.
  split; [|split; [|split]].
  - apply run_likes_unique.
  - intros ws. apply writes_likes_unique.
    intros i j a b t Hi. now rewrite lookup_empty in Hi.
  - intros. eapply Like_save_duplicate; eauto.
  - intros user clipId now st Hliked.
    apply liked_by_true in Hliked as (i & l & Hfind).
    destruct (clips st !! clipId) as [c|] eqn:Hc.
    + rewrite (POST_like_unlike _ _ _ _ _ _ _ Hc Hfind). cbn. apply delete_subseteq.
    + now rewrite POST_like_missing.
Qed.

(** C5. When the owner deletes an existing clip the request succeeds, and
    afterwards the clip, every comment on it and every Like of kind clip on
    it are gone from their collections. *)
Theorem DELETE_clip_cascade (user clipId : ObjectId) (st : State) (c : Clip) :
  clips st !! clipId = Some c -> clip_user c = user ->
  let '(st', r) := DELETE_clip user clipId st in
  status r = 200
  /\ clips st' !! clipId = None
  /\ (forall i cm, comments st' !! i = Some cm -> comment_clip cm <> clipId)
  /\ (forall i l, likes st' !! i = Some l ->
        ~ (like_clip l = Some clipId /\ like_type l = type_clip)).
Proof.
  intros Hc Hu. unfold DELETE_clip, findById. rewrite Hc.
  rewrite bool_decide_eq_false_2 by (intros H; now apply H).
  split; [reflexivity|]. cbn. split; [|split].
  - apply lookup_delete_eq.
  - intros i cm Hi. apply deleteMany_lookup in Hi as [_ Hq].
    unfold clip_comments in Hq. now apply bool_decide_eq_false in Hq.
  - intros i l Hi [H1 H2]. apply deleteMany_lookup in Hi as [_ Hq].
    unfold clip_likes in Hq. rewrite !bool_decide_eq_true_2 in Hq by assumption.
    discriminate.
Qed.

Lemma DELETE_clip_cascade_witness :
  let '(st', r) := DELETE_clip 1 0 demo_liked in
  status r = 200
  /\ clips st' !! 0%N = None
  /\ (forall i cm, comments st' !! i = Some cm -> comment_clip cm <> 0%N)
  /\ (forall i l, likes st' !! i = Some l ->
        ~ (like_clip l = Some 0%N /\ like_type l = type_clip)).
Proof.
  eapply (DELETE_clip_cascade 1 0 demo_liked); [vm_compute; reflexivity | reflexivity].
Defined.

(** C7. A user who does not own an existing clip gets 403 from the delete
    route, and the three collections are left as they were. *)
Theorem DELETE_clip_forbidden (user clipId : ObjectId) (st : State) (c : Clip) :
  clips st !! clipId = Some c -> clip_user c <> user ->
  DELETE_clip user clipId st = (st, not_authorized)
  /\ status not_authorized = 403.
Proof.
  intros Hc Hu. unfold DELETE_clip, findById. rewrite Hc.
  rewrite bool_decide_eq_true_2 by assumption. split; reflexivity.
Qed.

Lemma DELETE_clip_forbidden_witness :
  DELETE_clip 7 0 demo_liked = (demo_liked, not_authorized)
  /\ status not_authorized = 403.
Proof.
  eapply (DELETE_clip_forbidden 7 0 demo_liked); [vm_compute; reflexivity|].
  cbn. discriminate.
Defined.

(** ** Toggling a Like twice *)

Lemma new_like_matches user clipId now :
  clip_like_of user clipId (new_like user clipId now) = true.
Proof. apply clip_like_of_true. repeat split. Qed.

(** Replacing a Like by another one with the same triple keeps the set of
    triples. *)
Lemma has_triple_replace (ls : gmap ObjectId Like) i n l l' :
  ls !! i = Some l -> ls !! n = None ->
  like_user l' = like_user l -> like_target l' = like_target l ->
  like_type l' = like_type l ->
  forall u t k, has_triple (<[n := l']> (delete i ls)) u t k <-> has_triple ls u t k.
Proof.
  intros Hi Hn Hu Ht Hk u t k. unfold has_triple. split.
  - intros (j & d & Hj & Hd). destruct (decide (j = n)) as [->|Hjn].
    + rewrite lookup_insert_eq in Hj. injection Hj as <-.
      exists i, l. rewrite <- Hu, <- Ht, <- Hk. auto.
    + rewrite lookup_insert_ne in Hj by congruence.
      apply lookup_delete_Some in Hj as [_ Hj]. eauto.
  - intros (j & d & Hj & Hd). destruct (decide (j = i)) as [->|Hji].
    + exists n, l'. rewrite lookup_insert_eq. split; [reflexivity|].
      rewrite Hj in Hi. injection Hi as ->. rewrite Hu, Ht, Hk. exact Hd.
    + exists j, d. split; [|exact Hd].
      rewrite lookup_insert_ne by congruence. rewrite lookup_delete_ne by congruence.
      exact Hj.
Qed.

(** Two toggles in a state that satisfies the two invariants. *)
Lemma POST_like_twice_invariant (user clipId : ObjectId) (now1 now2 : N) (st : State) :
  is_Some (clips st !! clipId) -> likes_unique (likes st) -> ids_below st ->
  findOne (other_like user clipId) (likes st) = None ->
  let st1 := (POST_like user clipId now1 st).1 in
  let '(st2, r2) := POST_like user clipId now2 st1 in
  status r2 = 200
  /\ (exists msg, body r2 = LikeToggled msg (liked_by user clipId st)
                             (countDocuments (clip_likes clipId) (likes st)))
  /\ clips st2 = clips st /\ comments st2 = comments st
  /\ (forall u t k, has_triple (likes st2) u t k <-> has_triple (likes st) u t k)
  /\ (liked_by user clipId st = false -> likes st2 = likes st)
  /\ (liked_by user clipId st = true ->
      exists i l, likes st !! i = Some l /\ clip_like_of user clipId l = true
                  /\ likes st2 = <[nextObjectId st := new_like user clipId now2]>
                                   (delete i (likes st))).
Proof.
  intros [c Hc] Huniq Hids Hown.
  assert (Hfresh : likes st !! nextObjectId st = None).
  { destruct (likes st !! nextObjectId st) as [l|] eqn:E; [|reflexivity].
    pose proof (Hids _ _ E). lia. }
  assert (Hmine : forall j d, likes st !! j = Some d -> clip_like_by user d = true ->
                    clip_like_of user clipId d = true).
  { intros j d Hj Hd. apply clip_like_by_true in Hd as (Hu & _).
    pose proof (proj1 (findOne_None _ _) Hown j d Hj) as Ho. unfold other_like in Ho.
    rewrite (bool_decide_eq_true_2 _ Hu) in Ho. now apply negb_false_iff in Ho. }
  destruct (findOne (clip_like_of user clipId) (likes st)) as [[i l]|] eqn:Hfind.
  - (* liked before: the first call deletes, the second one creates *)
    destruct (findOne_Some _ _ _ _ Hfind) as [Hi Hq].
    assert (Hliked : liked_by user clipId st = true) by (apply liked_by_true; eauto).
    rewrite (POST_like_unlike _ _ _ _ _ _ _ Hc Hfind). cbn [fst].
    set (st1 := with_likes st (delete i (likes st))).
    assert (Hnone : findOne (clip_like_of user clipId) (likes st1) = None).
    { apply findOne_None. intros j d Hj. cbn in Hj.
      apply lookup_delete_Some in Hj as [Hne Hj].
      destruct (clip_like_of user clipId d) eqn:Hd; [exfalso|reflexivity].
      apply clip_like_of_true in Hq as (Hu1 & Hc1 & Hk1).
      apply clip_like_of_true in Hd as (Hu2 & Hc2 & Hk2).
      apply Hne. eapply (Huniq i j l d clipId); eauto; try congruence.
      - unfold like_target. now rewrite Hk1.
      - unfold like_target. now rewrite Hk2. }
    assert (Hfresh1 : likes st1 !! nextObjectId st1 = None).
    { cbn. apply lookup_delete_None. now right. }
    assert (Hfree1 : findOne (clip_like_by user) (likes st1) = None).
    { apply findOne_None. intros j d Hj.
      destruct (clip_like_by user d) eqn:Hd; [exfalso|reflexivity].
      pose proof (proj1 (findOne_None _ _) Hnone j d Hj) as Hno.
      cbn in Hj. apply lookup_delete_Some in Hj as [_ Hj].
      rewrite (Hmine j d Hj Hd) in Hno. discriminate. }
    rewrite (POST_like_like user clipId now2 st1 c Hc Hnone Hfree1 Hfresh1).
    cbn [with_likes fresh_id likes clips comments nextObjectId snd st1 status body].
    rewrite Hliked. split; [reflexivity|]. split.
    { eexists. f_equal.
      rewrite countDocuments_insert;
        [| apply lookup_delete_None; now right
         | eapply clip_like_of_likes, new_like_matches].
      eapply countDocuments_delete; eauto using clip_like_of_likes. }
    split; [reflexivity|]. split; [reflexivity|]. split.
    { apply clip_like_of_true in Hq as (Hu1 & Hc1 & Hk1).
      apply (has_triple_replace (likes st) i (nextObjectId st) l); auto.
      unfold like_target. rewrite Hk1. cbn. now rewrite Hc1. }
    split; [discriminate|]. intros _. exists i, l. auto.
  - (* not liked before: the first call creates, the second one deletes *)
    assert (Hliked : liked_by user clipId st = false) by now apply liked_by_false.
    assert (Hfree : findOne (clip_like_by user) (likes st) = None).
    { apply findOne_None. intros j d Hj.
      destruct (clip_like_by user d) eqn:Hd; [exfalso|reflexivity].
      pose proof (Hmine j d Hj Hd) as Hq.
      rewrite (proj1 (findOne_None _ _) Hfind j d Hj) in Hq. discriminate. }
    rewrite (POST_like_like user clipId now1 st c Hc Hfind Hfree Hfresh). cbn [fst].
    set (n := nextObjectId st). set (like := new_like user clipId now1).
    set (st1 := with_likes _ _).
    assert (Hfind1 : findOne (clip_like_of user clipId) (likes st1) = Some (n, like)).
    { change (likes st1) with (<[n := like]> (likes st)).
      apply findOne_insert_only; [exact Hfind | exact Hfresh | apply new_like_matches]. }
    rewrite (POST_like_unlike user clipId now2 st1 c n like Hc Hfind1).
    cbn [with_likes fresh_id likes clips comments nextObjectId snd st1 status body].
    assert (Hback : delete n (<[n := like]> (likes st)) = likes st).
    { rewrite delete_insert_eq. now apply delete_id. }
    rewrite Hback, Hliked. split; [reflexivity|]. split; [eauto|].
    split; [reflexivity|]. split; [reflexivity|]. split; [reflexivity|].
    split; [reflexivity|discriminate].
Qed.

(** C4 as stated fails: user 7 has liked clip 0; after two toggles the
    Like collection holds a new document ([_id] 2, created at the second
    call) in place of the original one ([_id] 1). *)
Lemma toggle_twice_counterexample : ~ toggle_twice_restores 7 0 30 31 demo_liked.
Proof.
  unfold toggle_twice_restores. intros H.
  assert (L : likes (POST_like 7 0 31 (POST_like 7 0 30 demo_liked).1).1 !! 1%N = None)
    by (vm_compute; reflexivity).
  cbv zeta in H. destruct (POST_like 7 0 31 _) as [st2 r2]. destruct H as [_ H].
  cbn [fst] in L. rewrite H in L. vm_compute in L. discriminate.
Qed.

(** C4 (amended). In every reachable state, for an existing clip and an
    authenticated viewer who has no Like but, possibly, one of this clip,
    two successive toggles answer, the second time, 200 with the liked
    state and the likes count from before the first call; clips and
    comments are untouched, and the Like collection holds the same (actor,
    target, kind) triples as before. The collection is identical to the
    original when the viewer had not liked the clip; when the viewer had,
    the original Like document is replaced by a newly created one. *)
Theorem POST_like_twice yt isURL rs (user clipId : ObjectId) (now1 now2 : N) :
  let st := run yt isURL rs in
  is_Some (clips st !! clipId) ->
  findOne (other_like user clipId) (likes st) = None ->
  let st1 := (POST_like user clipId now1 st).1 in
  let '(st2, r2) := POST_like user clipId now2 st1 in
  status r2 = 200
  /\ (exists msg, body r2 = LikeToggled msg (liked_by user clipId st)
                             (countDocuments (clip_likes clipId) (likes st)))
  /\ clips st2 = clips st /\ comments st2 = comments st
  /\ (forall u t k, has_triple (likes st2) u t k <-> has_triple (likes st) u t k)
  /\ (liked_by user clipId st = false -> likes st2 = likes st)
  /\ (liked_by user clipId st = true ->
      exists i l, likes st !! i = Some l /\ clip_like_of user clipId l = true
                  /\ likes st2 = <[nextObjectId st := new_like user clipId now2]>
                                   (delete i (likes st))).
Proof.
  intros st Hc Hown. apply POST_like_twice_invariant;
    [exact Hc | apply run_likes_unique | apply run_ids_below | exact Hown].
Qed.

Lemma POST_like_twice_witness :
  is_Some (clips demo_liked !! 0%N)
  /\ findOne (other_like 7 0) (likes demo_liked) = None
  /\ liked_by 7 0 demo_liked = true
  /\ let st1 := (POST_like 7 0 30 demo_liked).1 in
     let '(st2, r2) := POST_like 7 0 31 st1 in
     status r2 = 200
     /\ (exists msg, body r2 = LikeToggled msg true 1)
     /\ (forall u t k, has_triple (likes st2) u t k <-> has_triple (likes demo_liked) u t k).
Proof.
  assert (Hc : is_Some (clips demo_liked !! 0%N)) by (vm_compute; eauto).
  assert (Hown : findOne (other_like 7 0) (likes demo_liked) = None)
    by (vm_compute; reflexivity).
  split; [exact Hc|]. split; [exact Hown|]. split; [vm_compute; reflexivity|].
  pose proof (POST_like_twice demo_provider demo_isURL
                [CreateClip 1 demo_payload 10; ToggleLike 7 0 20] 7 0 30 31 Hc Hown) as H.
  fold demo_liked in H. cbv zeta in H |- *.
  destruct (POST_like 7 0 31 _) as [st2 r2].
  destruct H as (Hs & Hb & _ & _ & Ht & _).
  split; [exact Hs|]. split; [exact Hb|exact Ht].
Defined.

(** ** Viewer personalization and the single-item fetch *)

(** [jwt] is bound nowhere in [routes/clips.js], so the [try] block of the
    personalization always ends in its [catch]. *)
Lemma jwt_not_bound : exists e, resolve_identifier "jwt" = Throw e.
Proof. eexists. reflexivity. Qed.

Lemma viewer_isLiked_false jwt_verify authorization clip st :
  viewer_isLiked jwt_verify authorization clip st = false.
Proof.
  unfold viewer_isLiked. destruct authorization as [header|]; [|reflexivity].
  destruct (string_truthy header); reflexivity.
Qed.

(** Every item of every feed page carries [isLiked = false], with or
    without a credential. *)
Lemma GET_clips_isLiked_false jwt_verify req st items page totalPages totalClips hasMore :
  body (GET_clips jwt_verify req st) = ClipsPage items page totalPages totalClips hasMore ->
  Forall (fun item => isLiked item = false) items.
Proof.
  unfold GET_clips. cbn. intros [= <- _ _ _ _].
  apply Forall_fmap, Forall_true. intros doc. apply viewer_isLiked_false.
Qed.

(** C1, at the failing input. User 7 has liked clip 0 and presents a
    credential that the verifier accepts as user 7; the feed still reports
    [isLiked = false] for clip 0. *)
Theorem GET_clips_authenticated_isLiked :
  demo_verify (split " " "Bearer viewer-token" !! 1%nat) = Return 7%N
  /\ liked_by 7 0 demo_liked = true
  /\ exists item,
       GET_clips demo_verify
         {| list_page := None; list_limit := None;
            list_authorization := Some "Bearer viewer-token" |} demo_liked
       = {| status := 200; body := ClipsPage [item] 1 1 1 false |}
       /\ ec_id item = 0%N /\ isLiked item = false.
Proof.
  split; [reflexivity|]. split; [vm_compute; reflexivity|].
  eexists. split; [vm_compute; reflexivity|]. split; reflexivity.
Qed.

(** C2, at the failing input. Clip 0 exists, yet [GET /clips/0] without an
    [id] query parameter answers 404; and [GET /clips/5?id=0], whose path
    id names no clip, answers 200 with clip 0. *)
Theorem GET_clip_ignores_path_id :
  is_Some (clips demo_liked !! 0%N)
  /\ GET_clip demo_verify
       {| params_id := 0; query_id := None; item_authorization := None |} demo_liked
     = clip_not_found
  /\ clips demo_liked !! 5%N = None
  /\ exists item,
       GET_clip demo_verify
         {| params_id := 5; query_id := Some 0%N; item_authorization := None |} demo_liked
       = {| status := 200; body := ClipDetail item |}
       /\ ec_id item = 0%N.
Proof.
  split; [vm_compute; eauto|]. split; [reflexivity|]. split; [vm_compute; reflexivity|].
  eexists. split; [vm_compute; reflexivity|]. reflexivity.
Qed.

(** The path parameter plays no part in the answer. *)
Lemma GET_clip_path_irrelevant jwt_verify p p' q a st :
  GET_clip jwt_verify {| params_id := p; query_id := q; item_authorization := a |} st
  = GET_clip jwt_verify {| params_id := p'; query_id := q; item_authorization := a |} st.
Proof. reflexivity. Qed.

(** ** The video identifier: the matcher *)

Section RegexFacts.
Implicit Types (k : cont) (caps : captures) (s t : string) (p : ascii -> bool).

Lemma star_loop_char step p k :
  (forall pos s caps k', step pos s caps k' = one_char p pos s caps k') ->
  forall s fuel pos caps, (String.length s < fuel)%nat ->
    star_loop step k fuel pos s caps = star_char p k pos s caps.
Proof.
  intros Hr. induction s as [|c s IH]; intros fuel pos caps Hfuel.
  - destruct fuel; [reflexivity|]. cbn [star_loop]. rewrite Hr. reflexivity.
  - destruct fuel; [cbn in Hfuel; lia|]. cbn [star_loop]. rewrite Hr.
    cbn [one_char star_char]. destruct (p c); [|reflexivity].
    replace (String.length s <? String.length (String c s))%nat with true
      by (symmetry; apply Nat.ltb_lt; cbn; lia).
    fold (star_loop step k). rewrite IH by (cbn in Hfuel; lia). reflexivity.
Qed.

Lemma m_Star_Dot pos s caps k :
  m (Star Dot) pos s caps k
  = star_char (fun c => negb (is_line_terminator c)) k pos s caps.
Proof. cbn [m]. apply star_loop_char; [reflexivity|lia]. Qed.

Lemma m_Star_NoneOf cs pos s caps k :
  m (Star (NoneOf cs)) pos s caps k
  = star_char (fun c => negb (existsb (Ascii.eqb c) cs)) k pos s caps.
Proof. cbn [m]. apply star_loop_char; [reflexivity|lia]. Qed.

Lemma suffix_of_trans a b c : suffix_of a b -> suffix_of b c -> suffix_of a c.
Proof. intros Hab Hbc. induction Hbc; [assumption|]. constructor. auto. Qed.

(** If the continuation fails on every suffix of the input, so does the
    match. *)
Lemma m_None (r : regex) :
  forall pos s caps k,
    (forall pos' t caps', suffix_of t s -> k pos' t caps' = None) ->
    m r pos s caps k = None.
Proof.
  induction r as [| |c| | |cs|r1 IH1 r2 IH2|r1 IH1 r2 IH2|r IH|r IH|n r IH];
    intros pos s caps k Hk; cbn [m].
  - apply Hk. constructor.
  - destruct (pos =? 0)%nat; [apply Hk; constructor|reflexivity].
  - destruct s as [|c' s]; cbn; [reflexivity|].
    destruct (Ascii.eqb c c'); [apply Hk; repeat constructor|reflexivity].
  - destruct s as [|c' s]; cbn; [reflexivity|].
    destruct (negb _); [apply Hk; repeat constructor|reflexivity].
  - destruct s as [|c' s]; cbn; [reflexivity|].
    destruct (is_word_char _); [apply Hk; repeat constructor|reflexivity].
  - destruct s as [|c' s]; cbn; [reflexivity|].
    destruct (negb _); [apply Hk; repeat constructor|reflexivity].
  - apply IH1. intros pos' t caps' Ht. apply IH2.
    intros pos'' t' caps'' Ht'. apply Hk. eapply suffix_of_trans; eauto.
  - rewrite IH1 by exact Hk. apply IH2. exact Hk.
  - rewrite IH by exact Hk. apply Hk. constructor.
  - generalize (S (String.length s)). intros fuel.
    revert pos s caps Hk. induction fuel as [|fuel IHf]; intros pos s caps Hk.
    + apply Hk. constructor.
    + cbn [star_loop]. rewrite IH; [apply Hk; constructor|].
      intros pos' t caps' Ht. destruct (_ <? _)%nat; [|reflexivity].
      apply IHf. intros pos'' t' caps'' Ht'. apply Hk. eapply suffix_of_trans; eauto.
  - apply IH. intros pos' t caps' Ht. apply Hk. exact Ht.
Qed.

(** A literal cannot match an input that lacks one of its characters. *)
Lemma string_forallb_suffix p t s :
  suffix_of t s -> string_forallb p s = true -> string_forallb p t = true.
Proof.
  induction 1 as [|t c s _ IH]; [auto|]. cbn. intros Hs.
  apply andb_prop in Hs as [_ Hs]. auto.
Qed.

Lemma m_lit_lacks (x : ascii) (w : string) :
  In x (list_ascii_of_string w) ->
  forall s pos caps k,
    string_forallb (fun c => negb (Ascii.eqb x c)) s = true ->
    m (lit w) pos s caps k = None.
Proof.
  induction w as [|a w IH]; intros Hin s pos caps k Hs; [destruct Hin|].
  cbn [lit m]. destruct s as [|c s]; [reflexivity|]. cbn [one_char].
  cbn in Hs. apply andb_prop in Hs as [Hc Hs].
  destruct (Ascii.eqb_spec a c) as [->|Hne]; [|reflexivity].
  destruct Hin as [->|Hin].
  - rewrite Ascii.eqb_refl in Hc. discriminate.
  - now apply IH.
Qed.

Lemma star_char_all p k s :
  forall pos caps res,
    string_forallb p s = true ->
    k (pos + String.length s)%nat EmptyString caps = Some res ->
    star_char p k pos s caps = Some res.
Proof.
  induction s as [|c s IH]; intros pos caps res Hs Hk; cbn in *.
  - now rewrite Nat.add_0_r in Hk.
  - apply andb_prop in Hs as [-> Hs].
    rewrite (IH (S pos) caps res Hs); [reflexivity|].
    now replace (S pos + String.length s)%nat with (pos + S (String.length s))%nat by lia.
Qed.

Lemma star_char_None p k s :
  forall pos caps,
    (forall pos' t, suffix_of t s -> k pos' t caps = None) ->
    star_char p k pos s caps = None.
Proof.
  induction s as [|c s IH]; intros pos caps Hk; cbn.
  - apply Hk. constructor.
  - rewrite IH by (intros; apply Hk; now constructor).
    destruct (p c); apply Hk; constructor.
Qed.

Lemma append_cons c s1 s2 : String c s1 +:+ s2 = String c (s1 +:+ s2).
Proof. reflexivity. Qed.

Lemma append_nil s : EmptyString +:+ s = s.
Proof. reflexivity. Qed.

Lemma star_char_skip p k s1 s2 :
  forall pos caps res,
    string_forallb p s1 = true ->
    star_char p k (pos + String.length s1)%nat s2 caps = Some res ->
    star_char p k pos (s1 +:+ s2) caps = Some res.
Proof.
  induction s1 as [|c s1 IH]; intros pos caps res Hs Hk; cbn in *.
  - now rewrite append_nil, Nat.add_0_r in *.
  - rewrite append_cons. cbn [star_char]. apply andb_prop in Hs as [-> Hs].
    rewrite (IH (S pos) caps res Hs); [reflexivity|].
    now replace (S pos + String.length s1)%nat with (pos + S (String.length s1))%nat by lia.
Qed.

Lemma substring_all s : substring 0 (String.length s) s = s.
Proof. induction s; cbn; congruence. Qed.

End RegexFacts.

(** ** The video identifier: the parts of the pattern *)

Section ExtractIdFacts.
Implicit Types (k : cont) (caps : captures) (s t id : string).

Lemma id_char_facts c :
  id_char c = true ->
  negb (is_line_terminator c) = true
  /\ negb (existsb (Ascii.eqb c) ["#"; "&"; "?"]%char) = true
  /\ Ascii.eqb "/" c = false /\ Ascii.eqb "?" c = false /\ Ascii.eqb "=" c = false.
Proof.
  destruct c as [[] [] [] [] [] [] [] []]; intros H; try discriminate H;
    repeat split; reflexivity.
Qed.

Lemma id_text_forall p id :
  (forall c, id_char c = true -> p c = true) ->
  id_text id = true -> string_forallb p id = true.
Proof.
  intros Hp. unfold id_text. induction id as [|c id IH]; cbn; [reflexivity|].
  intros H. apply andb_prop in H as [Hc H]. now rewrite Hp, IH.
Qed.

Lemma id_text_lacks_slash id : id_text id = true -> lacks "/" id = true.
Proof.
  apply id_text_forall. intros c Hc.
  destruct (id_char_facts c Hc) as (_ & _ & -> & _). reflexivity.
Qed.

Lemma id_text_lacks_question id : id_text id = true -> lacks "?" id = true.
Proof.
  apply id_text_forall. intros c Hc.
  destruct (id_char_facts c Hc) as (_ & _ & _ & -> & _). reflexivity.
Qed.

Lemma id_text_first id (x : ascii) :
  id_text id = true -> id_char x = false -> first_is x id = false.
Proof.
  destruct id as [|c id]; [reflexivity|]. cbn. intros H Hx.
  apply andb_prop in H as [Hc _].
  destruct (Ascii.eqb_spec x c) as [->|]; [congruence|reflexivity].
Qed.

(** The alternation needs a [/] or a [?] ahead. *)
Lemma url_forms_None s pos caps k :
  lacks "/" s = true -> lacks "?" s = true -> m url_forms pos s caps k = None.
Proof.
  intros Hslash Hq. unfold url_forms. cbn [m].
  assert (Hsuf : forall x w, In x (list_ascii_of_string w) -> lacks x s = true ->
            forall pos' t caps' k', suffix_of t s -> m (lit w) pos' t caps' k' = None).
  { intros x w Hin Hx pos' t caps' k' Ht. apply (m_lit_lacks x w Hin).
    eapply string_forallb_suffix; eauto. }
  rewrite (m_None (lit "youtu")).
  2:{ intros pos' t caps' Ht. destruct t as [|c t]; [reflexivity|]. cbn [one_char].
      destruct (negb _); [|reflexivity].
      apply (Hsuf "/"%char "be/"%string); [cbn; auto|assumption|].
      eapply suffix_of_trans; [|exact Ht]. repeat constructor. }
  rewrite (Hsuf "/"%char "v/"%string) by (cbn; auto using suffix_of).
  rewrite (Hsuf "/"%char "/u/"%string) by (cbn; auto using suffix_of).
  rewrite (Hsuf "/"%char "embed/"%string) by (cbn; auto 10 using suffix_of).
  apply (Hsuf "?"%char "watch?"%string); cbn; auto 10 using suffix_of.
Qed.

Lemma m_id_capture id pos caps :
  id_text id = true -> m id_capture pos id caps accept = Some (<[7%nat := id]> caps).
Proof.
  intros Hid. unfold id_capture.
  change (m (Seq (Group 7 (Star (NoneOf ["#"; "&"; "?"]%char))) (Star Dot)) pos id caps accept)
    with (m (Star (NoneOf ["#"; "&"; "?"]%char)) pos id caps
            (fun pos' s' caps' =>
               m (Star Dot) pos' s' (<[7%nat := substring 0 (pos' - pos) id]> caps') accept)).
  rewrite m_Star_NoneOf. apply star_char_all.
  - revert Hid. apply id_text_forall. intros c Hc.
    now destruct (id_char_facts c Hc) as (_ & -> & _).
  - rewrite m_Star_Dot. cbn [star_char accept].
    replace (pos + String.length id - pos)%nat with (String.length id) by lia.
    now rewrite substring_all.
Qed.

Lemma m_Opt_Chr_skip (c : ascii) r s pos caps k :
  first_is c s = false ->
  m (Seq (Opt (Chr c)) r) pos s caps k = m r pos s caps k.
Proof.
  intros H. cbn [m]. destruct s as [|c' s]; [reflexivity|].
  cbn in H. cbn [one_char]. now rewrite H.
Qed.

(** After the alternation: nothing optional applies to an identifier that
    does not start with [v], and group 7 takes the identifier. *)
Lemma m_after_forms id pos caps :
  id_text id = true -> first_is "v" id = false ->
  m after_forms pos id caps accept = Some (<[7%nat := id]> caps).
Proof.
  intros Hid Hv. unfold after_forms.
  rewrite m_Opt_Chr_skip by (apply id_text_first; [assumption|reflexivity]).
  rewrite m_Opt_Chr_skip by assumption.
  rewrite m_Opt_Chr_skip by (apply id_text_first; [assumption|reflexivity]).
  now apply m_id_capture.
Qed.

End ExtractIdFacts.

Section ExtractIdForms.
Implicit Types (k : cont) (caps : captures) (s t id : string).

Lemma exec_Some url caps :
  star_char not_terminator after_prefix 0 url ∅ = Some caps ->
  exec regExp url = Some caps.
Proof.
  intros H. unfold exec.
  assert (E : m regExp 0 url ∅ (fun _ _ caps => Some caps) = Some caps).
  { rewrite <- H. unfold regExp.
    change (m (Seq Bol (Seq (Star Dot) (Seq url_forms after_forms))) 0 url ∅
              (fun _ _ caps => Some caps))
      with (m (Star Dot) 0 url ∅ after_prefix).
    apply m_Star_Dot. }
  destruct (String.length url); cbn [exec_from]; now rewrite E.
Qed.

Lemma star_char_here p k c s pos caps res :
  p c = true -> star_char p k (S pos) s caps = None ->
  k pos (String c s) caps = Some res ->
  star_char p k pos (String c s) caps = Some res.
Proof. intros Hp Hin Hk. cbn. now rewrite Hp, Hin. Qed.

Lemma suffix_of_cons_inv t c s :
  suffix_of t (String c s) -> t = String c s \/ suffix_of t s.
Proof. inversion 1; subst; auto. Qed.

Lemma after_prefix_id_suffix id t pos caps :
  id_text id = true -> suffix_of t id -> after_prefix pos t caps = None.
Proof.
  intros Hid Ht. unfold after_prefix. cbn [m]. apply url_forms_None.
  - eapply string_forallb_suffix; [exact Ht|]. now apply id_text_lacks_slash.
  - eapply string_forallb_suffix; [exact Ht|]. now apply id_text_lacks_question.
Qed.

(** Evaluate the tests on the characters that are known. *)
Ltac known_char_tests :=
  repeat match goal with
         | |- context [Ascii.eqb ?a ?b] =>
             let v := eval vm_compute in (Ascii.eqb a b) in
             first [constr_eq v true | constr_eq v false];
             change (Ascii.eqb a b) with v
         | |- context [negb (is_line_terminator ?a)] =>
             let v := eval vm_compute in (negb (is_line_terminator a)) in
             first [constr_eq v true | constr_eq v false];
             change (negb (is_line_terminator a)) with v
         end.

Ltac run_forms :=
  unfold after_prefix, url_forms; cbn [m lit one_char];
  repeat (progress (known_char_tests; cbn [one_char])).

Lemma after_prefix_slash id pos caps :
  id_text id = true -> after_prefix pos (String "/" id) caps = None.
Proof.
  intros Hid. run_forms.
  destruct id as [|c0 [|c1 id]]; try reflexivity; cbn [one_char].
  - now destruct (Ascii.eqb "u" c0).
  - destruct (Ascii.eqb "u" c0); [|reflexivity].
    cbn in Hid. apply andb_prop in Hid as [_ Hid]. apply andb_prop in Hid as [Hc1 _].
    destruct (id_char_facts c1 Hc1) as (_ & _ & -> & _). reflexivity.
Qed.

(** Split a URL [whole +:+ id] into the part before the last reference
    form and the form itself, spelled out character by character. *)
Ltac split_url whole pre form id :=
  let t := eval cbv [append] in (form +:+ id) in
  change (whole +:+ id) with (pre +:+ t).

Ltac last_form Hid :=
  apply exec_Some; apply star_char_skip; [reflexivity|];
  apply star_char_here; [reflexivity| |];
  [ apply star_char_None; intros pos' t Ht;
    repeat (apply suffix_of_cons_inv in Ht as [->|Ht];
            [first [now apply after_prefix_slash | run_forms; reflexivity]|]);
    now apply (after_prefix_id_suffix _ _ _ _ Hid Ht)
  | run_forms ].

(** The short link [youtu.be/ID]. *)
Lemma exec_short_link id :
  id_text id = true -> first_is "v" id = false ->
  exists caps, exec regExp ("https://youtu.be/" +:+ id) = Some caps
               /\ caps !! 7%nat = Some id.
Proof.
  intros Hid Hv. eexists. split.
  - split_url "https://youtu.be/"%string "https://"%string "youtu.be/"%string id.
    last_form Hid. rewrite m_after_forms by assumption. reflexivity.
  - apply lookup_insert_eq.
Qed.

(** The embed form [/embed/ID]. *)
Lemma exec_embed id :
  id_text id = true -> first_is "v" id = false ->
  exists caps, exec regExp ("https://www.youtube.com/embed/" +:+ id) = Some caps
               /\ caps !! 7%nat = Some id.
Proof.
  intros Hid Hv. eexists. split.
  - split_url "https://www.youtube.com/embed/"%string
              "https://www.youtube.com/"%string "embed/"%string id.
    last_form Hid. rewrite m_after_forms by assumption. reflexivity.
  - apply lookup_insert_eq.
Qed.

Lemma m_Opt_Chr_take (c : ascii) r s pos caps k res :
  m r (S pos) s caps k = Some res ->
  m (Seq (Opt (Chr c)) r) pos (String c s) caps k = Some res.
Proof. intros H. cbn [m one_char]. now rewrite Ascii.eqb_refl, H. Qed.

(** After [watch?], the optional [v] and [=] take the query key. *)
Lemma m_after_forms_query id pos caps :
  id_text id = true ->
  m after_forms pos (String "v" (String "=" id)) caps accept
  = Some (<[7%nat := id]> caps).
Proof.
  intros Hid. unfold after_forms.
  rewrite m_Opt_Chr_skip by reflexivity.
  apply m_Opt_Chr_take, m_Opt_Chr_take. now apply m_id_capture.
Qed.

(** After any other form, the optional [v] takes the first character of an
    identifier that starts with [v]. *)
Lemma m_after_forms_leading_v id pos caps :
  id_text id = true ->
  m after_forms pos (String "v" id) caps accept = Some (<[7%nat := id]> caps).
Proof.
  intros Hid. unfold after_forms.
  rewrite m_Opt_Chr_skip by reflexivity.
  apply m_Opt_Chr_take.
  rewrite m_Opt_Chr_skip by (apply id_text_first; [assumption|reflexivity]).
  now apply m_id_capture.
Qed.

(** The canonical form [watch?v=ID]. *)
Lemma exec_watch id :
  id_text id = true ->
  exists caps, exec regExp ("https://www.youtube.com/watch?v=" +:+ id) = Some caps
               /\ caps !! 7%nat = Some id.
Proof.
  intros Hid. eexists. split.
  - split_url "https://www.youtube.com/watch?v="%string
              "https://www.youtube.com/"%string "watch?v="%string id.
    last_form Hid. rewrite m_after_forms_query by assumption. reflexivity.
  - apply lookup_insert_eq.
Qed.

Lemma id_text_tail c id : id_text (String c id) = true -> id_text id = true.
Proof. cbn. intros H. now apply andb_prop in H as [_ H]. Qed.

Lemma exec_short_link_leading_v id :
  id_text id = true ->
  exists caps, exec regExp ("https://youtu.be/" +:+ String "v" id) = Some caps
               /\ caps !! 7%nat = Some id.
Proof.
  intros Hid. eexists. split.
  - split_url "https://youtu.be/"%string "https://"%string "youtu.be/"%string
              (String "v" id).
    assert (Hvid : id_text (String "v" id) = true) by exact Hid.
    last_form Hvid. rewrite m_after_forms_leading_v by assumption. reflexivity.
  - apply lookup_insert_eq.
Qed.

Lemma exec_embed_leading_v id :
  id_text id = true ->
  exists caps, exec regExp ("https://www.youtube.com/embed/" +:+ String "v" id) = Some caps
               /\ caps !! 7%nat = Some id.
Proof.
  intros Hid. eexists. split.
  - split_url "https://www.youtube.com/embed/"%string
              "https://www.youtube.com/"%string "embed/"%string (String "v" id).
    assert (Hvid : id_text (String "v" id) = true) by exact Hid.
    last_form Hvid. rewrite m_after_forms_leading_v by assumption. reflexivity.
  - apply lookup_insert_eq.
Qed.

Lemma extractVideoId_of_capture url caps tok :
  exec regExp url = Some caps -> caps !! 7%nat = Some tok ->
  extractVideoId url
  = Return (if (String.length tok =? 11)%nat then Some tok else None).
Proof. intros He Hc. unfold extractVideoId. now rewrite He, Hc. Qed.

(** The three forms on an identifier of 11 characters from the identifier
    alphabet: the watch form always yields the identifier; the short-link
    and embed forms yield it unless it starts with [v], in which case they
    yield nothing. *)
Lemma extractVideoId_forms id :
  String.length id = 11%nat -> id_text id = true ->
  extractVideoId ("https://www.youtube.com/watch?v=" +:+ id) = Return (Some id)
  /\ (first_is "v" id = false ->
        extractVideoId ("https://youtu.be/" +:+ id) = Return (Some id)
        /\ extractVideoId ("https://www.youtube.com/embed/" +:+ id) = Return (Some id))
  /\ (first_is "v" id = true ->
        extractVideoId ("https://youtu.be/" +:+ id) = Return None
        /\ extractVideoId ("https://www.youtube.com/embed/" +:+ id) = Return None).
Proof.
  intros Hlen Hid. split; [|split].
  - destruct (exec_watch id Hid) as (caps & He & Hc).
    rewrite (extractVideoId_of_capture _ _ _ He Hc), Hlen. reflexivity.
  - intros Hv. split.
    + destruct (exec_short_link id Hid Hv) as (caps & He & Hc).
      rewrite (extractVideoId_of_capture _ _ _ He Hc), Hlen. reflexivity.
    + destruct (exec_embed id Hid Hv) as (caps & He & Hc).
      rewrite (extractVideoId_of_capture _ _ _ He Hc), Hlen. reflexivity.
  - intros Hv. destruct id as [|c id]; [discriminate|].
    change (Ascii.eqb "v" c = true) in Hv. apply Ascii.eqb_eq in Hv as <-. pose proof (id_text_tail _ _ Hid) as Hid'.
    assert (Hlen' : String.length id = 10%nat) by (cbn in Hlen; lia).
    split.
    + destruct (exec_short_link_leading_v id Hid') as (caps & He & Hc).
      rewrite (extractVideoId_of_capture _ _ _ He Hc), Hlen'. reflexivity.
    + destruct (exec_embed_leading_v id Hid') as (caps & He & Hc).
      rewrite (extractVideoId_of_capture _ _ _ He Hc), Hlen'. reflexivity.
Qed.

End ExtractIdForms.

(** ** The video identifier: what [extractVideoId] returns *)

Section Participation.
Implicit Types (k : cont) (caps res : captures) (s t : string).

Lemma keeps_refl caps : keeps caps caps.
Proof. intros n H. exact H. Qed.

Lemma keeps_trans a b c : keeps a b -> keeps b c -> keeps a c.
Proof. intros Hab Hbc n H. auto. Qed.

Lemma keeps_insert caps n x : keeps caps (<[n := x]> caps).
Proof.
  intros j H. destruct (decide (n = j)) as [->|Hne].
  - rewrite lookup_insert_eq. eauto.
  - now rewrite lookup_insert_ne.
Qed.

(** A successful match has called its continuation, with no less
    captures. *)
Lemma m_Some (r : regex) :
  forall pos s caps k res,
    m r pos s caps k = Some res ->
    exists pos' s' caps', k pos' s' caps' = Some res /\ keeps caps caps'.
Proof.
  induction r as [| |c| | |cs|r1 IH1 r2 IH2|r1 IH1 r2 IH2|r IH|r IH|n r IH];
    intros pos s caps k res H; cbn [m] in H.
  - eauto using keeps_refl.
  - destruct (pos =? 0)%nat; [eauto using keeps_refl|discriminate].
  - destruct s as [|c' s]; [discriminate|]. cbn in H.
    destruct (Ascii.eqb c c'); [eauto using keeps_refl|discriminate].
  - destruct s as [|c' s]; [discriminate|]. cbn in H.
    destruct (negb _); [eauto using keeps_refl|discriminate].
  - destruct s as [|c' s]; [discriminate|]. cbn in H.
    destruct (is_word_char _); [eauto using keeps_refl|discriminate].
  - destruct s as [|c' s]; [discriminate|]. cbn in H.
    destruct (negb _); [eauto using keeps_refl|discriminate].
  - apply IH1 in H as (p1 & s1 & c1 & H & K1).
    apply IH2 in H as (p2 & s2 & c2 & H & K2).
    eauto 6 using keeps_trans.
  - destruct (m r1 pos s caps k) eqn:E.
    + injection H as <-. eauto.
    + eauto.
  - destruct (m r pos s caps k) eqn:E.
    + injection H as <-. eauto.
    + eauto using keeps_refl.
  - revert H. generalize (S (String.length s)). intros fuel.
    revert pos s caps. induction fuel as [|fuel IHf]; intros pos s caps H.
    + eauto using keeps_refl.
    + cbn [star_loop] in H. fold (star_loop (m r) k) in H.
      destruct (m r pos s caps _) eqn:E.
      * injection H as <-. apply IH in E as (p1 & s1 & c1 & E & K1).
        destruct (_ <? _)%nat; [|discriminate].
        apply IHf in E as (p2 & s2 & c2 & E & K2). eauto 6 using keeps_trans.
      * eauto using keeps_refl.
  - apply IH in H as (p1 & s1 & c1 & H & K1).
    eauto 6 using keeps_trans, keeps_insert.
Qed.

Lemma m_Seq_Some r1 r2 pos s caps k res :
  m (Seq r1 r2) pos s caps k = Some res ->
  exists pos' s' caps', m r2 pos' s' caps' k = Some res.
Proof.
  cbn [m]. intros H. apply m_Some in H as (p & t & c & H & _). eauto.
Qed.

Lemma m_Seq_Group n r1 r2 pos s caps k :
  m (Seq (Group n r1) r2) pos s caps k
  = m r1 pos s caps (fun pos' s' caps' =>
      m r2 pos' s' (<[n := substring 0 (pos' - pos) s]> caps') k).
Proof. reflexivity. Qed.

(** Group 7 takes part in every match of the pattern. *)
Lemma regExp_group_7 pos s res :
  m regExp pos s ∅ (fun _ _ caps => Some caps) = Some res -> is_Some (res !! 7%nat).
Proof.
  unfold regExp, after_forms, id_capture. intros H.
  do 6 (apply m_Seq_Some in H as (? & ? & ? & H)).
  rewrite m_Seq_Group in H.
  apply m_Some in H as (p1 & s1 & c1 & H & _).
  apply m_Some in H as (p2 & s2 & c2 & [= <-] & K).
  apply K. rewrite lookup_insert_eq. eauto.
Qed.

Lemma exec_from_group_7 fuel : forall pos s res,
  exec_from regExp fuel pos s = Some res -> is_Some (res !! 7%nat).
Proof.
  induction fuel as [|fuel IH]; intros pos s res H; cbn [exec_from] in H;
    destruct (m regExp pos s ∅ _) eqn:E.
  - injection H as <-. eapply regExp_group_7; eauto.
  - discriminate.
  - injection H as <-. eapply regExp_group_7; eauto.
  - destruct s; [discriminate|]. eauto.
Qed.

(** [extractVideoId] never throws: it yields an identifier of 11
    characters or nothing. *)
Lemma extractVideoId_total url :
  extractVideoId url = Return None
  \/ exists id, extractVideoId url = Return (Some id) /\ String.length id = 11%nat.
Proof.
  unfold extractVideoId. destruct (exec regExp url) as [caps|] eqn:E; [|auto].
  destruct (exec_from_group_7 _ _ _ _ E) as [tok ->].
  destruct (Nat.eqb_spec (String.length tok) 11); eauto.
Qed.

End Participation.

(** An identifier is returned only for a captured token of 11 characters. *)
Lemma extractVideoId_length url id :
  extractVideoId url = Return (Some id) -> String.length id = 11%nat.
Proof.
  unfold extractVideoId. destruct (exec regExp url) as [caps|]; [|discriminate].
  destruct (caps !! 7%nat) as [tok|]; [|discriminate].
  destruct (Nat.eqb_spec (String.length tok) 11); [|discriminate].
  now intros [= <-].
Qed.

Lemma extractVideoId_examples :
  extractVideoId "https://youtu.be/dQw4w9WgXcQ" = Return (Some "dQw4w9WgXcQ")
  /\ extractVideoId "https://www.youtube.com/embed/dQw4w9WgXcQ" = Return (Some "dQw4w9WgXcQ")
  /\ extractVideoId "https://www.youtube.com/watch?v=dQw4w9WgXcQ" = Return (Some "dQw4w9WgXcQ")
  /\ extractVideoId "https://example.com/" = Return None.
Proof. repeat split; vm_compute; reflexivity. Qed.

(** C9, at the failing input. For the 11-character identifier
    [vJ3a-bcdEfg] the watch form yields the identifier, but the short-link
    and embed forms yield none: the optional [v] after the alternation
    takes the first character of the identifier, and the captured token is
    10 characters long. *)
Theorem extractVideoId_leading_v :
  String.length "vJ3a-bcdEfg" = 11%nat
  /\ extractVideoId "https://www.youtube.com/watch?v=vJ3a-bcdEfg" = Return (Some "vJ3a-bcdEfg")
  /\ extractVideoId "https://youtu.be/vJ3a-bcdEfg" = Return None
  /\ extractVideoId "https://www.youtube.com/embed/vJ3a-bcdEfg" = Return None
  /\ exec regExp "https://youtu.be/vJ3a-bcdEfg" ≫= (fun caps => caps !! 7%nat)
     = Some "J3a-bcdEfg".
Proof. repeat split; vm_compute; reflexivity. Qed.

(** * Further properties *)

Import Texts ClipsListings UsersRoutes.

(** ** Time codes: arity and the trim span *)

Section TimeCodeArity.
Local Open Scope Z_scope.

Lemma split_length (s : string) : length (split ":" s) = S (colons s).
Proof.
  induction s as [|c s IH]; [reflexivity|].
  cbn [split colons]. destruct (Ascii.eqb c ":").
  - cbn [length]. now rewrite IH.
  - destruct (split ":" s) as [|h t]; [discriminate|]. exact IH.
Qed.

(** X1. A time code is read as minutes and seconds, or as hours, minutes
    and seconds: a text with no colon, or with three colons or more, counts
    as 0 seconds. A bare number of seconds is therefore not understood. *)
Theorem timeToSeconds_arity (s : string) :
  colons s <> 1%nat -> colons s <> 2%nat -> timeToSeconds s = Int 0.
Proof.
  intros H1 H2. destruct (string_dec s EmptyString) as [->|Hne]; [reflexivity|].
  rewrite (timeToSeconds_parts s Hne).
  pose proof (split_length s) as Hlen.
  rewrite <- (length_fmap Number) in Hlen.
  destruct (Number <$> split ":" s) as [|p0 [|p1 [|p2 [|p3 ps]]]];
    cbn [length] in Hlen; try reflexivity; lia.
Qed.

Lemma timeToSeconds_arity_witness :
  timeToSeconds "90" = Int 0 /\ timeToSeconds "1:02:03:04" = Int 0.
Proof.
  split; apply timeToSeconds_arity; vm_compute; discriminate.
Defined.

Local Ltac euclid := Z.to_euclidean_division_equations; lia.

Lemma formatSpan_readback (d : Z) :
  0 <= d -> timeToSeconds (formatSpan (Int d)) = Int d.
Proof.
  intros Hd. unfold formatSpan. cbn [floor_div rem].
  rewrite Z.rem_mod_nonneg by lia.
  destruct (toString_nonneg (d / 60)) as (dm & -> & Hm); [euclid|].
  destruct (padded_toString (d mod 60)) as (ds & -> & Hs); [euclid|].
  rewrite timeToSeconds_two, Hm, Hs. f_equal. euclid.
Qed.

(** X2. The text computed for a trim span reads back as end minus start,
    whatever the number of minutes; there is no such text when the end is
    missing, is 0, or does not come after the start. *)
Theorem clipDuration_readback (s e : Z) :
  0 <= s ->
  (s < e < 2 ^ 53 -> timeToSeconds (clipDuration (Int s) (Some (Int e))) = Int (e - s))
  /\ (e <= s -> clipDuration (Int s) (Some (Int e)) = EmptyString)
  /\ clipDuration (Int s) None = EmptyString.
Proof.
  intros Hs. unfold clipDuration. cbn [number_truthy lt sub].
  split; [|split; [|reflexivity]].
  - intros He. destruct (Z.eqb_spec e 0); [lia|]. destruct (Z.ltb_spec s e); [|lia].
    cbn [negb andb]. apply formatSpan_readback. lia.
  - intros He. destruct (Z.ltb_spec s e); [lia|]. now rewrite andb_false_r.
Qed.

Lemma clipDuration_readback_witness :
  clipDuration (Int 60) (Some (Int 3785)) = "62:05"%string
  /\ timeToSeconds (clipDuration (Int 60) (Some (Int 3785))) = Int (3785 - 60).
Proof.
  split; [reflexivity|].
  apply (clipDuration_readback 60 3785); [lia|]. split; [lia|reflexivity].
Defined.

End TimeCodeArity.

(** ** The record of an extraction *)

Section ExtractionRecord.
Local Open Scope Z_scope.




Lemma extractVideoInfo_Throw yt url startTime endTime msg :
  extractVideoInfo yt url startTime endTime = Throw msg -> msg = extraction_failed.
Proof.
  unfold extractVideoInfo.
  destruct (extractVideoId url) as [[id|]|err]; cbn; [|congruence..].
  destruct (yt url) as [info|err]; cbn; congruence.
Qed.

Lemma extractVideoInfo_fails yt url startTime endTime :
  extractVideoId url = Return None \/ (exists err, yt url = Throw err) ->
  extractVideoInfo yt url startTime endTime = Throw extraction_failed.
Proof.
  unfold extractVideoInfo.
  destruct (extractVideoId_total url) as [E|(id & E & _)]; rewrite E; cbn; [reflexivity|].
  intros [?|[err ->]]; [discriminate|reflexivity].
Qed.

(** On strings, [extractVideoInfo_json] is [extractVideoInfo]. *)
Lemma extractVideoInfo_json_strings yt url startTime endTime :
  extractVideoInfo_json yt (JString url) (JString <$> startTime) (JString <$> endTime)
  = extractVideoInfo yt url startTime endTime.
Proof.
  unfold extractVideoInfo_json, extractVideoInfo. cbn [extractVideoId_json].
  destruct (extractVideoId url) as [[id|]|err]; [|reflexivity..]. cbn.
  destruct (yt url) as [info|err]; [|reflexivity]. cbn.
  destruct startTime as [s|], endTime as [e|]; cbn; try reflexivity;
    destruct (string_truthy e); reflexivity.
Qed.

(** X4. Whatever goes wrong in an extraction, the caller sees the same
    message, and the error text of the provider never gets out. The
    extraction fails exactly when the URL is not a string or yields no
    identifier, when the provider fails, or when a time code is a truthy
    value that is not a string; so, on strings, exactly when no identifier
    is found or the provider fails. *)
Theorem extractVideoInfo_failure yt url startTime endTime msg :
  (extractVideoInfo_json yt url startTime endTime = Throw msg
   <-> msg = extraction_failed
       /\ ((exists b, url = JOther b)
           \/ (exists u, url = JString u
                 /\ (extractVideoId u = Return None \/ exists err, yt u = Throw err))
           \/ startTime = Some (JOther true) \/ endTime = Some (JOther true)))
  /\ (forall u s e,
        extractVideoInfo yt u s e = Throw msg
        <-> msg = extraction_failed
            /\ (extractVideoId u = Return None \/ exists err, yt u = Throw err)).
Proof.
  split.
  - unfold extractVideoInfo_json. destruct url as [u|b]; cbn [extractVideoId_json].
    2:{ cbn. split; [intros [= <-]; split; [reflexivity|left; eauto]|now intros [-> _]]. }
    destruct (extractVideoId_total u) as [E|(id & E & _)]; rewrite E; cbn.
    { split; [intros [= <-]; split; [reflexivity|right; left; eauto]|now intros [-> _]]. }
    destruct (yt u) as [info|err] eqn:Ey; cbn.
    2:{ split; [intros [= <-]; split; [reflexivity|right; left; eauto]|now intros [-> _]]. }
    assert (Hurl : ~ ((exists b, JString u = JOther b)
                      \/ exists u0, JString u = JString u0
                           /\ (extractVideoId u0 = Return None
                               \/ exists err, yt u0 = Throw err))).
    { intros [[b Hb]|(u0 & [= <-] & [H|[err H]])]; congruence. }
    destruct startTime as [[s|[|]]|]; cbn.
    2:{ split; [intros [= <-]; auto|now intros [-> _]]. }
    all: destruct endTime as [[e|[|]]|]; cbn; try destruct (string_truthy e); cbn.
    all: try (split; [intros [= <-]; auto|now intros [-> _]]).
    all: split; [discriminate|]; intros [_ [H|[H|[H|H]]]];
      [destruct Hurl; auto|destruct Hurl; auto|discriminate..].
  - intros u s e. unfold extractVideoInfo.
    destruct (extractVideoId_total u) as [E|(id & E & _)]; rewrite E; cbn.
    + split; [intros [= <-]; auto|]. now intros [-> _].
    + destruct (yt u) as [info|err]; cbn.
      * split; [discriminate|]. intros [_ [?|[? ?]]]; discriminate.
      * split; [intros [= <-]; eauto|]. now intros [-> _].
Qed.

(** X5. An extracted record carries the identifier found in the URL, of
    11 characters, the title of the provider, and a thumbnail that is
    never empty: the one of the provider, or else the [hqdefault] picture
    of the identifier. *)
Theorem extractVideoInfo_record yt url startTime endTime media :
  extractVideoInfo yt url startTime endTime = Return media ->
  exists info,
    yt url = Return info
    /\ extractVideoId url = Return (Some (videoId media))
    /\ String.length (videoId media) = 11%nat
    /\ title media = vi_title info
    /\ thumbnailUrl media =
         match vi_thumbnail info with
         | Some (String c t) => String c t
         | _ => "https://img.youtube.com/vi/" +:+ videoId media +:+ "/hqdefault.jpg"
         end
    /\ thumbnailUrl media <> EmptyString.
Proof.
  intros H.
  destruct (extractVideoInfo_Return _ _ _ _ _ H) as (id & info & Hid & Hyt & ->).
  exists info. cbn [videoId title thumbnailUrl].
  split; [exact Hyt|]. split; [exact Hid|].
  split; [exact (extractVideoId_length _ _ Hid)|]. split; [reflexivity|].
  destruct (vi_thumbnail info) as [[|c t]|]; cbn; split; solve [reflexivity | discriminate].
Qed.

Lemma extractVideoInfo_record_witness :
  exists media,
    extractVideoInfo demo_provider "https://youtu.be/dQw4w9WgXcQ" None None = Return media
    /\ thumbnailUrl media = "https://img.youtube.com/vi/dQw4w9WgXcQ/hqdefault.jpg"%string.
Proof.
  eexists. split; [reflexivity|].
  destruct (extractVideoInfo_record demo_provider "https://youtu.be/dQw4w9WgXcQ"
              None None _ eq_refl) as (info & Hyt & _ & _ & _ & Ht & _).
  injection Hyt as <-. exact Ht.
Defined.

End ExtractionRecord.

(** ** The video identifier: the last reference form wins *)

Section LastForm.
Implicit Types (k : cont) (caps : captures) (s t id tail pre : string).

Lemma string_forallb_app p s t :
  string_forallb p (s +:+ t) = string_forallb p s && string_forallb p t.
Proof.
  induction s as [|c s IH]; [reflexivity|].
  rewrite append_cons. cbn [string_forallb]. rewrite IH. apply andb_assoc.
Qed.

Lemma star_char_accept p s : forall pos caps, star_char p accept pos s caps = Some caps.
Proof.
  induction s as [|c s IH]; intros pos caps; [reflexivity|].
  cbn [star_char]. destruct (p c); [|reflexivity]. now rewrite IH.
Qed.

Lemma substring_app s t : substring 0 (String.length s) (s +:+ t) = s.
Proof.
  induction s as [|c s IH]; [destruct t; reflexivity|].
  rewrite append_cons. cbn. now rewrite IH.
Qed.

Lemma first_is_app (c : ascii) s t : s <> EmptyString -> first_is c (s +:+ t) = first_is c s.
Proof. destruct s; [congruence|reflexivity]. Qed.

Lemma trailing_noise_lacks tail :
  trailing_noise tail = true -> lacks "/" tail = true /\ lacks "?" tail = true.
Proof.
  destruct tail as [|c t]; [now split|]. cbn [trailing_noise].
  intros H. apply andb_prop in H as [H Hq]. apply andb_prop in H as [Hc Hs].
  unfold lacks in *. cbn [string_forallb]. rewrite Hs, Hq.
  apply orb_prop in Hc as [Hc|Hc]; apply Ascii.eqb_eq in Hc as ->; now split.
Qed.

(** Group 7 stops at the character that introduces the noise. *)
Lemma m_id_capture_noise id tail pos caps :
  id_text id = true -> trailing_noise tail = true ->
  m id_capture pos (id +:+ tail) caps accept = Some (<[7%nat := id]> caps).
Proof.
  intros Hid Ht. unfold id_capture. rewrite m_Seq_Group, m_Star_NoneOf.
  apply star_char_skip.
  - apply (id_text_forall _ _ (fun c Hc => proj1 (proj2 (id_char_facts c Hc))) Hid).
  - assert (Hk : m (Star Dot) (pos + String.length id) tail
                   (<[7%nat := substring 0 (pos + String.length id - pos) (id +:+ tail)]> caps)
                   accept = Some (<[7%nat := id]> caps)).
    { rewrite m_Star_Dot, star_char_accept.
      replace (pos + String.length id - pos) with (String.length id) by lia.
      now rewrite substring_app. }
    destruct tail as [|c t]; [exact Hk|].
    cbn [star_char].
    replace (negb (existsb (Ascii.eqb c) ["#"; "&"; "?"]%char)) with false; [exact Hk|].
    cbn [trailing_noise] in Ht. apply andb_prop in Ht as [Ht _].
    apply andb_prop in Ht as [Hc _].
    apply orb_prop in Hc as [Hc|Hc]; apply Ascii.eqb_eq in Hc as ->; reflexivity.
Qed.

Lemma id_text_nonempty id : String.length id = 11 -> id <> EmptyString.
Proof. now destruct id. Qed.

Lemma m_after_forms_noise id tail pos caps :
  String.length id = 11 -> id_text id = true -> first_is "v" id = false ->
  trailing_noise tail = true ->
  m after_forms pos (id +:+ tail) caps accept = Some (<[7%nat := id]> caps).
Proof.
  intros Hlen Hid Hv Ht. pose proof (id_text_nonempty _ Hlen) as Hne. unfold after_forms.
  rewrite m_Opt_Chr_skip
    by (rewrite first_is_app by assumption; apply id_text_first; [assumption|reflexivity]).
  rewrite m_Opt_Chr_skip by (now rewrite first_is_app by assumption).
  rewrite m_Opt_Chr_skip
    by (rewrite first_is_app by assumption; apply id_text_first; [assumption|reflexivity]).
  now apply m_id_capture_noise.
Qed.

Lemma m_after_forms_query_noise id tail pos caps :
  id_text id = true -> trailing_noise tail = true ->
  m after_forms pos (String "v" (String "=" (id +:+ tail))) caps accept
  = Some (<[7%nat := id]> caps).
Proof.
  intros Hid Ht. unfold after_forms.
  rewrite m_Opt_Chr_skip by reflexivity.
  apply m_Opt_Chr_take, m_Opt_Chr_take. now apply m_id_capture_noise.
Qed.

Lemma after_prefix_lacks s t pos caps :
  lacks "/" s = true -> lacks "?" s = true -> suffix_of t s ->
  after_prefix pos t caps = None.
Proof.
  intros Hs Hq Ht. unfold after_prefix. cbn [m]. apply url_forms_None.
  - eapply string_forallb_suffix; [exact Ht|exact Hs].
  - eapply string_forallb_suffix; [exact Ht|exact Hq].
Qed.

Lemma id_noise_lacks id tail :
  id_text id = true -> trailing_noise tail = true ->
  lacks "/" (id +:+ tail) = true /\ lacks "?" (id +:+ tail) = true.
Proof.
  intros Hid Ht. destruct (trailing_noise_lacks _ Ht) as [Hs Hq].
  unfold lacks in *. rewrite !string_forallb_app, Hs, Hq.
  fold (lacks "/" id). fold (lacks "?" id).
  now rewrite id_text_lacks_slash, id_text_lacks_question.
Qed.

End LastForm.

Section LastFormTheorem.
Implicit Types (k : cont) (caps : captures) (s t id tail pre : string).

Ltac char_tests :=
  repeat match goal with
         | |- context [Ascii.eqb ?a ?b] =>
             let v := eval vm_compute in (Ascii.eqb a b) in
             first [constr_eq v true | constr_eq v false];
             change (Ascii.eqb a b) with v
         | |- context [negb (is_line_terminator ?a)] =>
             let v := eval vm_compute in (negb (is_line_terminator a)) in
             first [constr_eq v true | constr_eq v false];
             change (negb (is_line_terminator a)) with v
         end.

Ltac try_forms :=
  unfold after_prefix, url_forms; cbn [m lit one_char];
  repeat (progress (char_tests; cbn [one_char])).

Lemma after_prefix_slash_lacks s pos caps :
  lacks "/" s = true -> after_prefix pos (String "/" s) caps = None.
Proof.
  intros Hs. try_forms.
  destruct s as [|c0 [|c1 s]]; try reflexivity; cbn [one_char].
  - now destruct (Ascii.eqb "u" c0).
  - destruct (Ascii.eqb "u" c0); [|reflexivity].
    unfold lacks in Hs. cbn [string_forallb] in Hs.
    apply andb_prop in Hs as [_ Hs]. apply andb_prop in Hs as [Hc1 _].
    apply negb_true_iff in Hc1. now rewrite Hc1.
Qed.

(** The greedy prefix stops at the last reference form: everything after
    it fails, the form itself matches. *)
Ltac at_last_form Hs Hq :=
  apply exec_Some; apply star_char_skip; [assumption|];
  rewrite ?append_cons, ?append_nil;
  apply star_char_here; [reflexivity| |];
  [ apply star_char_None; intros pos' t Hsuf;
    repeat (apply suffix_of_cons_inv in Hsuf as [->|Hsuf];
            [first [now apply after_prefix_slash_lacks | try_forms; reflexivity]|]);
    now apply (after_prefix_lacks _ _ _ _ Hs Hq Hsuf)
  | try_forms ].

Lemma exec_last_form pre form id tail :
  string_forallb not_terminator pre = true ->
  String.length id = 11 -> id_text id = true -> first_is "v" id = false ->
  trailing_noise tail = true ->
  form ∈ ["youtu.be/"; "v/"; "embed/"; "watch?"]%string ->
  exists caps, exec regExp (pre +:+ form +:+ id +:+ tail) = Some caps
               /\ caps !! 7%nat = Some id.
Proof.
  intros Hpre Hlen Hid Hv Ht Hform.
  destruct (id_noise_lacks _ _ Hid Ht) as [Hs Hq].
  repeat (apply elem_of_cons in Hform as [->|Hform]); [..|now apply elem_of_nil in Hform];
    (eexists; split; [|apply lookup_insert_eq]);
    at_last_form Hs Hq; rewrite m_after_forms_noise by assumption; reflexivity.
Qed.

Lemma exec_last_watch pre id tail :
  string_forallb not_terminator pre = true ->
  id_text id = true -> trailing_noise tail = true ->
  exists caps, exec regExp (pre +:+ "watch?v=" +:+ id +:+ tail) = Some caps
               /\ caps !! 7%nat = Some id.
Proof.
  intros Hpre Hid Ht.
  destruct (id_noise_lacks _ _ Hid Ht) as [Hs Hq].
  eexists. split; [|apply lookup_insert_eq].
  at_last_form Hs Hq. rewrite m_after_forms_query_noise by assumption. reflexivity.
Qed.

(** X6. Only the last reference form of a URL counts, and the host is
    never looked at: whatever one-line text comes before it, and whatever
    fragment or further query parameter follows the identifier, the
    11-character identifier after [watch?v=] is returned, and so is the one
    after [youtu.be/], [v/], [embed/] or [watch?] unless it starts
    with [v]. *)
Theorem extractVideoId_last_form pre id tail :
  string_forallb not_terminator pre = true ->
  String.length id = 11 -> id_text id = true -> trailing_noise tail = true ->
  extractVideoId (pre +:+ "watch?v=" +:+ id +:+ tail) = Return (Some id)
  /\ (first_is "v" id = false ->
      forall form, form ∈ ["youtu.be/"; "v/"; "embed/"; "watch?"]%string ->
        extractVideoId (pre +:+ form +:+ id +:+ tail) = Return (Some id)).
Proof.
  intros Hpre Hlen Hid Ht. split.
  - destruct (exec_last_watch pre id tail Hpre Hid Ht) as (caps & He & Hc).
    rewrite (extractVideoId_of_capture _ _ _ He Hc), Hlen. reflexivity.
  - intros Hv form Hform.
    destruct (exec_last_form pre form id tail Hpre Hlen Hid Hv Ht Hform) as (caps & He & Hc).
    rewrite (extractVideoId_of_capture _ _ _ He Hc), Hlen. reflexivity.
Qed.

Lemma extractVideoId_last_form_witness :
  extractVideoId "https://www.youtube.com/watch?v=dQw4w9WgXcQ&list=PL1&index=2"
    = Return (Some "dQw4w9WgXcQ"%string)
  /\ extractVideoId "https://example.org/v/dQw4w9WgXcQ#t=30"
    = Return (Some "dQw4w9WgXcQ"%string).
Proof.
  split.
  - apply (extractVideoId_last_form "https://www.youtube.com/" "dQw4w9WgXcQ"
             "&list=PL1&index=2"); reflexivity.
  - refine (proj2 (extractVideoId_last_form "https://example.org/" "dQw4w9WgXcQ"
                     "#t=30" _ _ _ _) _ "v/"%string _); try reflexivity.
    apply elem_of_cons. right. apply elem_of_cons. now left.
Defined.

End LastFormTheorem.

(** ** The video identifier: what can be returned *)

Section CapturedToken.
Implicit Types (k : cont) (caps res : captures) (s t : string) (p : ascii -> bool).

(** A successful greedy star has consumed a run of matching characters. *)
Lemma star_char_Some p k s : forall pos caps res,
  star_char p k pos s caps = Some res ->
  exists s1 s2, s = s1 +:+ s2 /\ string_forallb p s1 = true
                /\ k (pos + String.length s1) s2 caps = Some res.
Proof.
  assert (Hhere : forall pos s caps res, k pos s caps = Some res ->
            exists s1 s2, s = s1 +:+ s2 /\ string_forallb p s1 = true
                          /\ k (pos + String.length s1) s2 caps = Some res).
  { intros pos s0 caps res H. exists EmptyString, s0.
    cbn [String.length]. rewrite Nat.add_0_r. auto. }
  induction s as [|c s IH]; intros pos caps res H; cbn [star_char] in H; [eauto|].
  destruct (p c) eqn:Hc; [|eauto].
  destruct (star_char p k (S pos) s caps) as [res'|] eqn:E; [|eauto].
  injection H as ->. destruct (IH _ _ _ E) as (s1 & s2 & -> & Hp & Hk).
  exists (String c s1), s2. rewrite append_cons. cbn [string_forallb String.length].
  rewrite Hc, Hp, Nat.add_succ_r. auto.
Qed.

(** The token of group 7 is a run of characters other than [#], [&]
    and [?]. *)
Lemma regExp_group_7_token pos s res :
  m regExp pos s ∅ accept = Some res ->
  exists tok, res !! 7%nat = Some tok
    /\ string_forallb (fun c => negb (existsb (Ascii.eqb c) ["#"; "&"; "?"]%char)) tok = true.
Proof.
  unfold regExp, after_forms, id_capture. intros H.
  do 6 (apply m_Seq_Some in H as (? & ? & ? & H)).
  rewrite m_Seq_Group, m_Star_NoneOf in H.
  apply star_char_Some in H as (s1 & s2 & -> & Hp & H).
  rewrite m_Star_Dot, star_char_accept in H. injection H as <-.
  exists s1. split; [|exact Hp]. rewrite lookup_insert_eq. f_equal.
  match goal with |- context [?a + ?b - ?a] => replace (a + b - a) with b by lia end.
  apply substring_app.
Qed.

Lemma exec_from_group_7_token fuel : forall pos s res,
  exec_from regExp fuel pos s = Some res ->
  exists tok, res !! 7%nat = Some tok
    /\ string_forallb (fun c => negb (existsb (Ascii.eqb c) ["#"; "&"; "?"]%char)) tok = true.
Proof.
  induction fuel as [|fuel IH]; intros pos s res H; cbn [exec_from] in H;
    destruct (m regExp pos s ∅ _) eqn:E.
  - injection H as <-. eapply regExp_group_7_token; eauto.
  - discriminate.
  - injection H as <-. eapply regExp_group_7_token; eauto.
  - destruct s; [discriminate|]. eauto.
Qed.

Lemma NoneOf_lacks (x : ascii) (cs : list ascii) s :
  In x cs ->
  string_forallb (fun c => negb (existsb (Ascii.eqb c) cs)) s = true -> lacks x s = true.
Proof.
  intros Hin. unfold lacks. induction s as [|c s IH]; [reflexivity|].
  cbn [string_forallb]. intros H. apply andb_prop in H as [Hc Hs].
  rewrite (IH Hs), andb_true_r. apply negb_true_iff in Hc. apply negb_true_iff.
  destruct (Ascii.eqb_spec x c) as [<-|]; [|reflexivity].
  rewrite <- Hc. symmetry. apply existsb_exists. exists x. split; [exact Hin|].
  apply Ascii.eqb_refl.
Qed.

(** Any character other than [#], [&] and [?] can be part of a returned
    identifier. *)
Lemma extractVideoId_any_character (c : ascii) :
  negb (existsb (Ascii.eqb c) ["#"; "&"; "?"]%char) = true ->
  extractVideoId ("watch?v=aaaaaaaaaa" +:+ String c EmptyString)
  = Return (Some ("aaaaaaaaaa" +:+ String c EmptyString)).
Proof.
  destruct c as [[] [] [] [] [] [] [] []]; intros H; vm_compute in H;
    first [discriminate H | vm_compute; reflexivity].
Qed.

(** X7. [extractVideoId] never throws, and what it returns is nothing or
    an identifier of exactly 11 characters with no [#], [&] or [?] in
    it. No other character is excluded: for any other character, a URL
    yields an identifier that contains it. *)
Theorem extractVideoId_result :
  (forall url,
     extractVideoId url = Return None
     \/ exists id, extractVideoId url = Return (Some id)
          /\ String.length id = 11
          /\ lacks "#" id = true /\ lacks "&" id = true /\ lacks "?" id = true)
  /\ (forall c : ascii, c <> "#"%char -> c <> "&"%char -> c <> "?"%char ->
        exists url id, extractVideoId url = Return (Some id)
                       /\ lacks c id = false).
Proof.
  split.
  - intros url. unfold extractVideoId.
    destruct (exec regExp url) as [caps|] eqn:E; [|auto].
    destruct (exec_from_group_7_token _ _ _ _ E) as (tok & -> & Htok).
    destruct (Nat.eqb_spec (String.length tok) 11) as [Hlen|]; [|auto].
    right. exists tok. split; [reflexivity|]. split; [exact Hlen|].
    repeat split; (eapply NoneOf_lacks; [|exact Htok]); cbn; tauto.
  - intros c H1 H2 H3.
    exists ("watch?v=aaaaaaaaaa" +:+ String c EmptyString),
           ("aaaaaaaaaa" +:+ String c EmptyString).
    split.
    + apply extractVideoId_any_character. cbn.
      destruct (Ascii.eqb_spec c "#"); [contradiction|].
      destruct (Ascii.eqb_spec c "&"); [contradiction|].
      destruct (Ascii.eqb_spec c "?"); [contradiction|]. reflexivity.
    + unfold lacks. rewrite string_forallb_app. cbn [string_forallb].
      rewrite Ascii.eqb_refl. cbn [negb andb]. apply andb_false_r.
Qed.

Lemma regExp_lacks pos s k :
  lacks "/" s = true -> lacks "?" s = true -> m regExp pos s ∅ k = None.
Proof.
  intros Hs Hq. unfold regExp.
  change (m (Seq Bol (Seq (Star Dot) (Seq url_forms after_forms))) pos s ∅ k)
    with (if (pos =? 0)%nat
          then m (Star Dot) pos s ∅
                 (fun pos' s' caps' =>
                    m url_forms pos' s' caps' (fun n2 s2 c2 => m after_forms n2 s2 c2 k))
          else None).
  destruct (pos =? 0)%nat; [|reflexivity].
  apply m_None. intros pos' t caps' Ht. apply url_forms_None.
  - eapply string_forallb_suffix; [exact Ht|exact Hs].
  - eapply string_forallb_suffix; [exact Ht|exact Hq].
Qed.

Lemma exec_from_lacks fuel : forall pos s,
  lacks "/" s = true -> lacks "?" s = true -> exec_from regExp fuel pos s = None.
Proof.
  induction fuel as [|fuel IH]; intros pos s Hs Hq; cbn [exec_from];
    rewrite regExp_lacks by assumption; [reflexivity|].
  destruct s as [|c s]; [reflexivity|]. apply IH.
  - eapply string_forallb_suffix; [|exact Hs]. constructor. constructor.
  - eapply string_forallb_suffix; [|exact Hq]. constructor. constructor.
Qed.

(** X8. A text with no [/] and no [?] in it, such as a bare
    identifier, is never recognised. *)
Theorem extractVideoId_needs_form url :
  lacks "/" url = true -> lacks "?" url = true -> extractVideoId url = Return None.
Proof.
  intros Hs Hq. unfold extractVideoId, exec. now rewrite exec_from_lacks.
Qed.

Lemma extractVideoId_needs_form_witness :
  extractVideoId "dQw4w9WgXcQ" = Return None.
Proof. apply extractVideoId_needs_form; reflexivity. Defined.

End CapturedToken.

(** ** The feed: pages *)

Section Pages.
Variable jwt_verify : option string -> completion ObjectId.
Local Open Scope Z_scope.

Lemma ceil_quot_lt (a b p : Z) : 0 < b -> p < ceil_quot a b <-> p * b < a.
Proof.
  intros Hb. unfold ceil_quot.
  pose proof (Z.div_mod (- a) b ltac:(lia)) as Hdiv.
  pose proof (Z.mod_pos_bound (- a) b Hb) as Hmod.
  split; intros H; nia.
Qed.

Lemma ceil_quot_neg (a b : Z) : 0 <= a -> b < 0 -> ceil_quot a b <= 0.
Proof.
  intros Ha Hb. unfold ceil_quot.
  pose proof (Z.div_mod (- a) b ltac:(lia)) as Hdiv.
  pose proof (Z.mod_neg_bound (- a) b Hb) as Hmod.
  nia.
Qed.

#[local] Instance newest_first_trans : Transitive newest_first.
Proof. intros a b c. unfold newest_first. lia. Qed.

#[local] Instance newest_first_total : Total newest_first.
Proof. intros a b. unfold newest_first. lia. Qed.

(** The sort of the model is one of the orders the store may choose. *)
Lemma merge_sort_store_order (st : State) :
  store_order st (merge_sort newest_first (map_to_list (clips st))).
Proof.
  split; [apply merge_sort_Permutation|apply StronglySorted_merge_sort; apply _].
Qed.

Lemma store_order_length st order :
  store_order st order -> length order = size (clips st).
Proof. intros [Hp _]. now rewrite Hp, length_map_to_list. Qed.

(** On a positive page and limit, and when the store breaks ties as the
    sort of the model does, the handler as listed in [ClipsRoutes] and the
    one on the parsed integers give the same page. *)
Lemma GET_feed_GET_clips (req : ListRequest) (st : State) :
  let req' := {| feed_page := Z.pos <$> list_page req;
                 feed_limit := Z.pos <$> list_limit req;
                 feed_authorization := list_authorization req |} in
  exists items page totalPages hasMore,
    GET_clips jwt_verify req st
    = {| status := 200;
         body := ClipsPage items page totalPages (size (clips st)) hasMore |}
    /\ GET_feed jwt_verify (merge_sort newest_first (map_to_list (clips st))) req' st
       = {| feed_status := 200;
            feed_body := FeedPage items (Z.pos page) (Z.of_nat totalPages)
                           (size (clips st)) hasMore |}.
Proof.
  intros req'. unfold GET_clips, GET_feed, skip_limit. subst req'. cbn [feed_page feed_limit
    feed_authorization].
  set (page := default 1%positive (list_page req)).
  set (limit := default 10%positive (list_limit req)).
  assert (Hp : or_default (Z.pos <$> list_page req) 1 = Z.pos page)
    by (unfold page; now destruct (list_page req)).
  assert (Hl : or_default (Z.pos <$> list_limit req) 10 = Z.pos limit)
    by (unfold limit; now destruct (list_limit req)).
  rewrite Hp, Hl.
  replace ((Z.pos page - 1) * Z.pos limit <? 0) with false
    by (symmetry; apply Z.ltb_ge, Z.mul_nonneg_nonneg; lia).
  do 4 eexists. split; [reflexivity|]. cbv zeta.
  replace (Z.to_nat (Z.abs (Z.pos limit))) with (Pos.to_nat limit) by lia.
  replace (Z.to_nat ((Z.pos page - 1) * Z.pos limit))
    with ((Pos.to_nat page - 1) * Pos.to_nat limit)%nat
    by (rewrite Z2Nat.inj_mul by lia; f_equal; lia).
  f_equal. f_equal.
  - unfold ceil_quot, ceil_div.
    set (n := size (clips st)). set (b := Pos.to_nat limit).
    assert (Hb : Z.pos limit = Z.of_nat b) by (unfold b; lia).
    rewrite Hb. assert (0 < Z.of_nat b) by lia.
    rewrite Nat2Z.inj_div, Nat2Z.inj_sub, Nat2Z.inj_add by lia.
    change (Z.of_nat 1) with 1.
    pose proof (Z.div_mod (- Z.of_nat n) (Z.of_nat b) ltac:(lia)) as H1.
    pose proof (Z.mod_pos_bound (- Z.of_nat n) (Z.of_nat b) ltac:(lia)) as H2.
    pose proof (Z.div_mod (Z.of_nat n + Z.of_nat b - 1) (Z.of_nat b) ltac:(lia)) as H3.
    pose proof (Z.mod_pos_bound (Z.of_nat n + Z.of_nat b - 1) (Z.of_nat b) ltac:(lia)) as H4.
    nia.
  - apply bool_decide_ext. lia.
Qed.

(** X9. For a page and a limit that parse to positive numbers (or fall
    back to 1 and 10), a page of the feed holds [limit] clips, or what is
    left of the collection after the pages before it; it is empty exactly
    when it lies beyond [totalPages], and [hasMore] tells exactly whether a
    further page exists. Negative values are used as they are: a negative
    skip is answered 500, and the first page for a negative limit reports
    [hasMore] with no page to follow. *)
Theorem GET_feed_page (order : list (ObjectId * Clip)) (req : FeedRequest) (st : State) :
  store_order st order ->
  let page := or_default (feed_page req) 1 in
  let limit := or_default (feed_limit req) 10 in
  let total := Z.of_nat (size (clips st)) in
  let r := GET_feed jwt_verify order req st in
  (0 < page -> 0 < limit -> page * limit < 2 ^ 53 ->
     exists hasMore,
       r = {| feed_status := 200;
              feed_body := FeedPage (feed_items r) page (ceil_quot total limit)
                             (size (clips st)) hasMore |}
       /\ Z.of_nat (length (feed_items r))
          = Z.min limit (Z.max 0 (total - (page - 1) * limit))
       /\ (hasMore = true <-> page < ceil_quot total limit)
       /\ (feed_items r = [] <-> ceil_quot total limit < page))
  /\ ((page - 1) * limit < 0 -> feed_status r = 500%nat)
  /\ (page = 1 -> limit < 0 ->
        exists items,
          feed_body r = FeedPage items 1 (ceil_quot total limit) (size (clips st)) true
          /\ ceil_quot total limit <= 0).
Proof.
  intros Horder page limit total r.
  pose proof (store_order_length st order Horder) as Hlen.
  split; [|split].
  - intros Hpage Hlimit _.
    assert (Hskip : ((page - 1) * limit <? 0) = false) by (apply Z.ltb_ge; nia).
    assert (Hr : r = {| feed_status := 200;
                        feed_body :=
                          FeedPage (feed_items r) page (ceil_quot total limit)
                            (size (clips st)) (bool_decide (page * limit < total)) |}).
    { unfold r, GET_feed, skip_limit, feed_items. fold page limit. rewrite Hskip.
      reflexivity. }
    assert (Hitems : Z.of_nat (length (feed_items r))
                     = Z.min limit (Z.max 0 (total - (page - 1) * limit))).
    { unfold r, GET_feed, skip_limit, feed_items. fold page limit. rewrite Hskip.
      cbn [feed_body]. rewrite length_fmap, length_take, length_drop, Hlen.
      unfold total. lia. }
    eexists. split; [exact Hr|]. split; [exact Hitems|]. split.
    + rewrite bool_decide_eq_true. symmetry. now apply ceil_quot_lt.
    + rewrite <- length_zero_iff_nil.
      pose proof (ceil_quot_lt total limit (page - 1) Hlimit) as Hc. lia.
  - intros Hskip. apply Z.ltb_lt in Hskip.
    unfold r, GET_feed, skip_limit. fold page limit. now rewrite Hskip.
  - intros Hpage Hlimit. unfold r, GET_feed, skip_limit. fold page limit.
    rewrite Hpage. replace ((1 - 1) * limit <? 0) with false by (symmetry; apply Z.ltb_ge; lia).
    eexists. split.
    + cbn [feed_body]. f_equal. apply bool_decide_eq_true. unfold total. lia.
    + apply ceil_quot_neg; unfold total; lia.
Qed.





End Pages.

Lemma GET_feed_page_witness :
  let r := GET_feed demo_verify
             (merge_sort newest_first (map_to_list (clips demo_liked)))
             {| feed_page := None; feed_limit := Some (-2)%Z; feed_authorization := None |}
             demo_liked in
  feed_status r = 200%nat
  /\ exists items, feed_body r = FeedPage items 1%Z 0%Z 1 true.
Proof.
  split; [reflexivity|].
  destruct (GET_feed_page demo_verify (merge_sort newest_first (map_to_list (clips demo_liked)))
              {| feed_page := None; feed_limit := Some (-2)%Z; feed_authorization := None |}
              demo_liked (merge_sort_store_order demo_liked))
    as (_ & _ & H).
  destruct (H eq_refl ltac:(reflexivity)) as (items & Hb & _).
  exists items. exact Hb.
Defined.


(** ** The listings by author and of comments *)

Section Listings.
Variable jwt_verify : option string -> completion ObjectId.

#[local] Instance newest_first_trans' : Transitive newest_first.
Proof. intros a b c. unfold newest_first. lia. Qed.

#[local] Instance newest_first_total' : Total newest_first.
Proof. intros a b. unfold newest_first. lia. Qed.

#[local] Instance newest_comment_first_trans : Transitive newest_comment_first.
Proof. intros a b c. unfold newest_comment_first. lia. Qed.

#[local] Instance newest_comment_first_total : Total newest_comment_first.
Proof. intros a b. unfold newest_comment_first. lia. Qed.

(** What a sorted [find] returns: the matching documents, once each. *)
Lemma find_sorted {Doc : Type} (R : relation (N * Doc)) `{!RelDecision R}
    (q : Doc -> bool) (coll : gmap N Doc) :
  let found := merge_sort R (map_to_list (matching q coll)) in
  (forall id d, (id, d) ∈ found <-> coll !! id = Some d /\ q d = true)
  /\ NoDup found.*1
  /\ length found = countDocuments q coll.
Proof.
  intros found.
  assert (Hp : found ≡ₚ map_to_list (matching q coll)) by apply merge_sort_Permutation.
  split; [|split].
  - intros id d. now rewrite Hp, elem_of_map_to_list, matching_lookup.
  - rewrite Hp. apply NoDup_fst_map_to_list.
  - rewrite Hp. apply length_map_to_list.
Qed.

(** X11. The listing of an author holds exactly the clips this author
    owns, once each and newest first, with the counts the single-clip
    fetch shows for them. *)
Theorem GET_user_clips_exact (userId : ObjectId) (st : State) :
  let found := GET_user_clips userId st in
  (forall id clip,
     (exists cc, cc ∈ found /\ cc_id cc = id /\ cc_clip cc = clip)
     <-> clips st !! id = Some clip /\ clip_user clip = userId)
  /\ NoDup (cc_id <$> found)
  /\ StronglySorted
       (fun a b => (clip_createdAt (cc_clip b) ≤ clip_createdAt (cc_clip a))%N) found
  /\ (forall cc authorization, cc ∈ found ->
        body (GET_clip jwt_verify
                {| params_id := cc_id cc; query_id := Some (cc_id cc);
                   item_authorization := authorization |} st)
        = ClipDetail {| ec_id := cc_id cc; ec_clip := cc_clip cc;
                        likesCount := cc_likesCount cc;
                        commentsCount := cc_commentsCount cc;
                        isLiked := false |}).
Proof.
  intros found. unfold found, GET_user_clips.
  destruct (find_sorted newest_first (clips_of userId) (clips st)) as (Hin & Hnd & _).
  set (sorted := merge_sort newest_first _) in *.
  assert (Hcc : forall cc, cc ∈ count st <$> sorted ->
            clips st !! cc_id cc = Some (cc_clip cc) /\ clip_user (cc_clip cc) = userId
            /\ cc_likesCount cc = countDocuments (clip_likes (cc_id cc)) (likes st)
            /\ cc_commentsCount cc
                = countDocuments (clip_comments (cc_id cc)) (comments st)).
  { intros cc Hcc. apply list_elem_of_fmap in Hcc as ([id clip] & -> & Hd).
    apply Hin in Hd as [Hd Hq]. unfold clips_of in Hq. apply bool_decide_eq_true in Hq.
    auto. }
  split; [|split; [|split]].
  - intros id clip. split.
    + intros (cc & Hcc' & <- & <-). destruct (Hcc _ Hcc') as (? & ? & _). auto.
    + intros [Hd Hu]. exists (count st (id, clip)). split; [|auto].
      apply list_elem_of_fmap. exists (id, clip). split; [reflexivity|].
      apply Hin. split; [exact Hd|]. unfold clips_of. now apply bool_decide_eq_true.
  - rewrite <- list_fmap_compose. exact Hnd.
  - apply StronglySorted_fmap with (R1 := newest_first);
      [|apply StronglySorted_merge_sort; apply _].
    intros a b H. exact H.
  - intros cc authorization Hcc'. destruct (Hcc _ Hcc') as (Hd & _ & Hl & Hc).
    unfold GET_clip, findById. cbn [query_id]. rewrite Hd. cbn [body]. f_equal.
    unfold enrich. rewrite viewer_isLiked_false, Hl, Hc. reflexivity.
Qed.

(** X12. The listing of the comments of a clip holds exactly the comments
    stored for this clip, once each and newest first; their number is the
    [commentsCount] of the clip, and none of them is ever reported as liked
    by the viewer, whatever the credential. *)
Theorem GET_comments_exact (clipId : ObjectId) (authorization : option string)
    (st : State) :
  let found := GET_comments jwt_verify clipId authorization st in
  (forall id c,
     (exists e, e ∈ found /\ ecm_id e = id /\ ecm_comment e = c)
     <-> comments st !! id = Some c /\ comment_clip c = clipId)
  /\ NoDup (ecm_id <$> found)
  /\ StronglySorted
       (fun a b => (comment_createdAt (ecm_comment b) ≤ comment_createdAt (ecm_comment a))%N)
       found
  /\ length found = countDocuments (clip_comments clipId) (comments st)
  /\ Forall (fun e => ecm_isLiked e = false) found.
Proof.
  intros found. unfold found, GET_comments.
  destruct (find_sorted newest_comment_first (clip_comments clipId) (comments st))
    as (Hin & Hnd & Hlen).
  set (sorted := merge_sort newest_comment_first _) in *.
  split; [|split; [|split; [|split]]].
  - intros id c. split.
    + intros (e & He & <- & <-). apply list_elem_of_fmap in He as ([id c] & -> & Hd).
      apply Hin in Hd as [Hd Hq]. unfold clip_comments in Hq.
      apply bool_decide_eq_true in Hq. auto.
    + intros [Hd Hc]. exists (enrich_comment jwt_verify authorization st (id, c)).
      split; [|auto]. apply list_elem_of_fmap. exists (id, c). split; [reflexivity|].
      apply Hin. split; [exact Hd|]. unfold clip_comments. now apply bool_decide_eq_true.
  - rewrite <- list_fmap_compose. exact Hnd.
  - apply StronglySorted_fmap with (R1 := newest_comment_first);
      [|apply StronglySorted_merge_sort; apply _].
    intros a b H. exact H.
  - now rewrite length_fmap.
  - apply Forall_fmap, Forall_true. intros doc. unfold enrich_comment, compose. cbn.
    unfold viewer_isLiked_comment. destruct authorization as [header|]; [|reflexivity].
    destruct (string_truthy header); reflexivity.
Qed.

End Listings.

(** ** What each request does to the database *)

Section Effects.
Variable youtubeDl : string -> completion VideoInfo.
Variable isURL : string -> bool.
Implicit Types (st : State) (r : Response).

Lemma POST_like_effect user clipId now st st' r :
  POST_like user clipId now st = (st', r) ->
  (clips st !! clipId = None /\ st' = st /\ r = clip_not_found)
  \/ (exists i l, is_Some (clips st !! clipId)
        /\ likes st !! i = Some l /\ clip_like_of user clipId l = true
        /\ st' = with_likes st (delete i (likes st))
        /\ r = {| status := 200;
                  body := LikeToggled "Clip unliked successfully" false
                            (countDocuments (clip_likes clipId) (delete i (likes st))) |})
  \/ (is_Some (clips st !! clipId)
        /\ findOne (clip_like_of user clipId) (likes st) = None
        /\ findOne (clip_like_by user) (likes st) = None
        /\ likes st !! nextObjectId st = None
        /\ st' = with_likes (fresh_id st).2
                   (<[nextObjectId st := new_like user clipId now]> (likes st))
        /\ r = {| status := 200;
                  body := LikeToggled "Clip liked successfully" true
                            (countDocuments (clip_likes clipId)
                               (<[nextObjectId st := new_like user clipId now]>
                                  (likes st))) |})
  \/ (is_Some (clips st !! clipId)
        /\ findOne (clip_like_of user clipId) (likes st) = None
        /\ (is_Some (findOne (clip_like_by user) (likes st))
            \/ is_Some (likes st !! nextObjectId st))
        /\ st' = (fresh_id st).2 /\ r = server_error).
Proof.
  destruct (clips st !! clipId) as [c|] eqn:Hc.
  2:{ rewrite POST_like_missing by assumption. intros [= <- <-]. auto. }
  destruct (findOne (clip_like_of user clipId) (likes st)) as [[i l]|] eqn:Hf.
  { rewrite (POST_like_unlike _ _ _ _ _ _ _ Hc Hf). intros [= <- <-].
    apply findOne_Some in Hf as [Hi Hq]. right. left. exists i, l. eauto 10. }
  destruct (findOne (clip_like_by user) (likes st)) as [x|] eqn:Hb.
  { rewrite (POST_like_refused _ _ _ _ _ Hc Hf) by (rewrite Hb; eauto).
    intros [= <- <-]. right; right; right. eauto 10. }
  destruct (likes st !! nextObjectId st) as [d|] eqn:Hn.
  - unfold POST_like, findById. rewrite Hc, Hf. unfold fresh_id. cbv beta iota zeta.
    cbn [likes]. rewrite Like_save_new_cases, Hf, Hb. unfold insertOne. rewrite Hn.
    intros [= <- <-]. right; right; right. eauto 10.
  - rewrite (POST_like_like _ _ _ _ _ Hc Hf Hb Hn). intros [= <- <-].
    right. right. left. eauto 10.
Qed.

Lemma POST_comment_effect user clipId content now st st' r :
  POST_comment user clipId content now st = (st', r) ->
  (st' = st /\ (status r = 400 \/ status r = 404))
  \/ (is_Some (comments st !! nextObjectId st) /\ st' = (fresh_id st).2 /\ r = server_error)
  \/ (let comment := {| comment_user := user; comment_clip := clipId;
                        comment_content := trim content; comment_createdAt := now |} in
      is_Some (clips st !! clipId)
      /\ comments st !! nextObjectId st = None
      /\ st' = {| clips := clips st;
                  comments := <[nextObjectId st := comment]> (comments st);
                  likes := likes st;
                  nextObjectId := N.succ (nextObjectId st) |}
      /\ r = {| status := 201;
                body := CommentCreated "Comment added successfully" (nextObjectId st)
                          comment |}).
Proof.
  unfold POST_comment.
  destruct (_ && _)%nat; [|intros [= <- <-]; auto].
  unfold findById. destruct (clips st !! clipId) as [c|] eqn:Hc; [|intros [= <- <-]; auto].
  unfold fresh_id, insertOne. cbv beta iota zeta. cbn [comments].
  destruct (comments st !! nextObjectId st) as [d|] eqn:Hn; intros [= <- <-].
  - right. left. eauto.
  - right. right. cbn. eauto 10.
Qed.

Lemma DELETE_clip_effect user clipId st st' r :
  DELETE_clip user clipId st = (st', r) ->
  (st' = st /\ (status r = 404 \/ status r = 403))
  \/ (exists c, clips st !! clipId = Some c /\ clip_user c = user
        /\ st' = {| clips := delete clipId (clips st);
                    comments := deleteMany (clip_comments clipId) (comments st);
                    likes := deleteMany (clip_likes clipId) (likes st);
                    nextObjectId := nextObjectId st |}
        /\ status r = 200).
Proof.
  unfold DELETE_clip, findById.
  destruct (clips st !! clipId) as [c|] eqn:Hc; [|intros [= <- <-]; auto].
  destruct (decide (clip_user c = user)) as [Hu|Hu].
  - rewrite bool_decide_eq_false_2 by (intros H; now apply H).
    intros [= <- <-]. right. exists c. auto.
  - rewrite bool_decide_eq_true_2 by assumption. intros [= <- <-]. auto.
Qed.

Lemma POST_clip_effect user payload now st st' r :
  POST_clip youtubeDl isURL user payload now st = (st', r) ->
  (st' = st /\ status r = 400)
  \/ (exists media,
        extractVideoInfo youtubeDl (body_youtubeUrl payload) (body_startTime payload)
          (body_endTime payload) = Return media
        /\ (is_Some (clips st !! nextObjectId st)
            \/ startTimeSeconds media = NaN \/ endTimeSeconds media = Some NaN)
        /\ st' = (fresh_id st).2 /\ r = server_error)
  \/ (exists media clip,
        extractVideoInfo youtubeDl (body_youtubeUrl payload) (body_startTime payload)
          (body_endTime payload) = Return media
        /\ clips st !! nextObjectId st = None
        /\ clip_user clip = user
        /\ clip_title clip = trim (body_title payload)
        /\ clip_youtubeVideoId clip = videoId media
        /\ clip_createdAt clip = now
        /\ st' = {| clips := <[nextObjectId st := clip]> (clips st);
                    comments := comments st;
                    likes := likes st;
                    nextObjectId := N.succ (nextObjectId st) |}
        /\ r = {| status := 201;
                  body := ClipCreated "Clip created successfully" (nextObjectId st) clip |}).
Proof.
  unfold POST_clip.
  destruct (_ ++ _); [|intros [= <- <-]; auto].
  destruct (extractVideoInfo _ _ _ _) as [media|msg] eqn:E.
  2:{ apply extractVideoInfo_Throw in E as ->.
      intros [= <- <-]. left. split; reflexivity. }
  unfold fresh_id, Clip_save, insertOne. cbv beta iota zeta. cbn [clips].
  cbn [clip_startTimeSeconds clip_endTimeSeconds].
  destruct (startTimeSeconds media) as [s|] eqn:Es; cbn;
    [|intros [= <- <-]; right; left; exists media; auto 10].
  destruct (endTimeSeconds media) as [[e|]|] eqn:Ee; cbn;
    try (intros [= <- <-]; right; left; exists media; auto 10).
  all: destruct (clips st !! nextObjectId st) as [d|] eqn:Hn; intros [= <- <-];
    [right; left; exists media; eauto 10|].
  all: right; right; eexists media, _; repeat split; try reflexivity; assumption.
Qed.

End Effects.

(** ** Invariants of the reachable states: identifiers and references *)

Section Reachable.
Variable youtubeDl : string -> completion VideoInfo.
Variable isURL : string -> bool.
Implicit Types (st : State) (r : Request).

Lemma handle_serve st r : handle youtubeDl isURL st r = (serve youtubeDl isURL st r).1.
Proof. now destruct r. Qed.

Ltac old_key H :=
  match goal with
  | Hk : forall i x, ?coll !! i = Some x -> (i < _)%N, Hi : ?coll !! ?j = Some _ |- _ =>
      pose proof (Hk _ _ Hi); cbn; lia
  end.

Ltac stored Hi :=
  cbn in Hi;
  repeat first
    [ apply lookup_insert_Some in Hi as [[<- <-]|[? Hi]]
    | apply lookup_delete_Some in Hi as [? Hi]
    | apply deleteMany_lookup in Hi as [Hi ?] ].

Lemma serve_keys_below st r :
  keys_below st -> keys_below (serve youtubeDl isURL st r).1.
Proof.
  intros (Hc & Hm & Hl).
  destruct (serve youtubeDl isURL st r) as [st' resp] eqn:E. cbn [fst].
  destruct r as [user payload now|user clipId now|user clipId content now|user clipId];
    cbn [serve] in E.
  - apply POST_clip_effect in E
      as [[-> _]|[(media & _ & _ & -> & _)|(media & clip & _ & _ & _ & _ & _ & _ & -> & _)]];
      [now repeat split|..];
      (repeat split; intros i x Hi; stored Hi; solve [cbn; lia | old_key Hi]).
  - apply POST_like_effect in E
      as [(_ & -> & _)|[(i & l & _ & _ & _ & -> & _)|[(_ & _ & _ & _ & -> & _)|(_ & _ & _ & -> & _)]]];
      [now repeat split|..];
      (repeat split; intros j x Hi; stored Hi; solve [cbn; lia | old_key Hi]).
  - apply POST_comment_effect in E as [[-> _]|[(_ & -> & _)|(_ & _ & -> & _)]];
      [now repeat split|..];
      (repeat split; intros j x Hi; stored Hi; solve [cbn; lia | old_key Hi]).
  - apply DELETE_clip_effect in E as [[-> _]|(c & _ & _ & -> & _)];
      [now repeat split|];
      (repeat split; intros j x Hi; stored Hi; solve [cbn; lia | old_key Hi]).
Qed.

Lemma serve_refs_exist st r :
  refs_exist st -> refs_exist (serve youtubeDl isURL st r).1.
Proof.
  intros (Hm & Hl).
  destruct (serve youtubeDl isURL st r) as [st' resp] eqn:E. cbn [fst].
  destruct r as [user payload now|user clipId now|user clipId content now|user clipId];
    cbn [serve] in E.
  - apply POST_clip_effect in E
      as [[-> _]|[(media & _ & _ & -> & _)|(media & clip & _ & Hn & _ & _ & _ & _ & -> & _)]];
      [now split..|].
    split.
    + intros i c Hi. cbn in *. apply lookup_insert_is_Some'. right. eauto.
    + intros i l Hi. cbn in *. destruct (Hl _ _ Hi) as (Ht & Hcm & c & Hlc & Hc).
      repeat split; [assumption..|]. exists c. split; [assumption|].
      apply lookup_insert_is_Some'. now right.
  - apply POST_like_effect in E
      as [(_ & -> & _)|[(i & l & _ & _ & _ & -> & _)|[(Hc & _ & _ & _ & -> & _)|(_ & _ & _ & -> & _)]]];
      [now split| | |now split].
    + split; [exact Hm|]. intros j x Hi. stored Hi. eauto.
    + split; [exact Hm|]. intros j x Hi. stored Hi; [|eauto].
      cbn. repeat split. eauto.
  - apply POST_comment_effect in E as [[-> _]|[(_ & -> & _)|(Hc & _ & -> & _)]];
      [now split..|].
    split; [|exact Hl]. intros j x Hi. stored Hi; [exact Hc|eauto].
  - apply DELETE_clip_effect in E as [[-> _]|(c & _ & _ & -> & _)]; [now split|].
    split.
    + intros j x Hi. stored Hi. cbn.
      match goal with H : clip_comments _ _ = false |- _ =>
        unfold clip_comments in H; apply bool_decide_eq_false in H end.
      rewrite lookup_delete_ne by congruence. eauto.
    + intros j x Hi. stored Hi. cbn.
      destruct (Hl _ _ Hi) as (Ht & Hcm & c' & Hlc & Hc').
      repeat split; [assumption..|]. exists c'. split; [assumption|].
      match goal with H : clip_likes _ _ = false |- _ =>
        unfold clip_likes in H; rewrite Hlc, (bool_decide_eq_true_2 _ Ht), andb_true_r in H;
        apply bool_decide_eq_false in H end.
      rewrite lookup_delete_ne by congruence. exact Hc'.
Qed.

Lemma run_keys_refs (rs : list Request) :
  keys_below (run youtubeDl isURL rs) /\ refs_exist (run youtubeDl isURL rs).
Proof.
  unfold run.
  assert (H : keys_below init /\ refs_exist init).
  { split; [split; [|split]|split]; intros i x Hi; cbn in Hi;
      now rewrite lookup_empty in Hi. }
  revert H. generalize init. induction rs as [|r rs IH]; intros st H; cbn; [exact H|].
  apply IH. rewrite handle_serve. destruct H as [Hk Hr].
  split; [now apply serve_keys_below|now apply serve_refs_exist].
Qed.

Lemma one_like_each_subseteq (ls ls' : gmap ObjectId Like) :
  ls' ⊆ ls -> one_like_each ls -> one_like_each ls'.
Proof.
  intros Hsub H i j a b Hi Hj. eapply H; eapply lookup_weaken; eauto.
Qed.

(** The index on [comment] lets no user hold two Likes of clips. *)
Lemma serve_one_like st r :
  refs_exist st -> one_like_each (likes st) ->
  one_like_each (likes (serve youtubeDl isURL st r).1).
Proof.
  intros [_ Hl] Hone.
  destruct (serve youtubeDl isURL st r) as [st' resp] eqn:E. cbn [fst].
  destruct r as [user payload now|user clipId now|user clipId content now|user clipId];
    cbn [serve] in E.
  - apply POST_clip_effect in E
      as [[-> _]|[(media & _ & _ & -> & _)|(media & clip & _ & _ & _ & _ & _ & _ & -> & _)]];
      exact Hone.
  - apply POST_like_effect in E
      as [(_ & -> & _)|[(i & l & _ & _ & _ & -> & _)
         |[(_ & _ & Hfree & _ & -> & _)|(_ & _ & _ & -> & _)]]];
      [exact Hone| |  |exact Hone].
    + cbn. eapply one_like_each_subseteq; [apply delete_subseteq|exact Hone].
    + assert (Hnew : forall j b, likes st !! j = Some b -> like_user b <> user).
      { intros j b Hj Hu. destruct (Hl _ _ Hj) as (Ht & Hc & _).
        pose proof (proj1 (findOne_None _ _) Hfree j b Hj) as Hq.
        apply not_true_iff_false in Hq. apply Hq. now apply clip_like_by_true. }
      cbn. intros i j a b Hi Hj Hu.
      apply lookup_insert_Some in Hi as [[<- <-]|[Hi1 Hi]];
        apply lookup_insert_Some in Hj as [[<- <-]|[Hj1 Hj]]; try reflexivity.
      * destruct (Hnew j b Hj). now rewrite <- Hu.
      * destruct (Hnew i a Hi). now rewrite Hu.
      * now apply (Hone i j a b).
  - apply POST_comment_effect in E as [[-> _]|[(_ & -> & _)|(_ & _ & -> & _)]]; exact Hone.
  - apply DELETE_clip_effect in E as [[-> _]|(c & _ & _ & -> & _)]; [exact Hone|].
    cbn. eapply one_like_each_subseteq; [apply map_filter_subseteq|exact Hone].
Qed.

Lemma run_one_like (rs : list Request) : one_like_each (likes (run youtubeDl isURL rs)).
Proof.
  induction rs as [|r rs IH] using rev_ind.
  - intros i j a b Hi. cbn in Hi. now rewrite lookup_empty in Hi.
  - unfold run in *. rewrite foldl_app. cbn [foldl]. rewrite handle_serve.
    apply serve_one_like; [apply (run_keys_refs rs)|exact IH].
Qed.


End Reachable.

(** ** Counting and finding, after a write *)

Section Counting.
Context {Doc : Type}.
Implicit Types (q : Doc -> bool) (coll : gmap N Doc).

Lemma matching_insert_other q coll i d :
  coll !! i = None -> q d = false -> matching q (<[i := d]> coll) = matching q coll.
Proof.
  intros Hi Hq. unfold matching.
  rewrite map_filter_insert_False by (cbn; congruence).
  now rewrite delete_id.
Qed.

Lemma matching_delete_other q coll i :
  (forall d, coll !! i = Some d -> q d = false) ->
  matching q (delete i coll) = matching q coll.
Proof.
  intros Hq. unfold matching. rewrite map_filter_delete. apply delete_id.
  apply map_lookup_filter_None. destruct (coll !! i) as [d|] eqn:E; [right|now left].
  intros d' [= <-]. cbn. rewrite (Hq d eq_refl). discriminate.
Qed.

Lemma matching_deleteMany_other q q' coll :
  (forall d, q d = true -> q' d = false) ->
  matching q (deleteMany q' coll) = matching q coll.
Proof.
  intros H. apply map_eq. intros i. apply option_eq. intros d.
  rewrite !matching_lookup, deleteMany_lookup.
  split; [intros [[Hi _] Hq]; auto|intros [Hi Hq]; auto].
Qed.

Lemma findOne_is_Some q coll :
  is_Some (findOne q coll) <-> exists i d, coll !! i = Some d /\ q d = true.
Proof.
  split.
  - intros [[i d] H]. apply findOne_Some in H. eauto.
  - intros (i & d & Hi & Hq). destruct (findOne q coll) eqn:E; [eauto|].
    rewrite (proj1 (findOne_None q coll) E i d Hi) in Hq. discriminate.
Qed.

End Counting.

Lemma liked_by_iff user clipId st :
  liked_by user clipId st = true
  <-> exists i l, likes st !! i = Some l /\ clip_like_of user clipId l = true.
Proof. unfold liked_by. now rewrite bool_decide_eq_true, findOne_is_Some. Qed.

Lemma liked_by_ext user clipId st st' :
  (forall i l, clip_like_of user clipId l = true ->
     likes st' !! i = Some l <-> likes st !! i = Some l) ->
  liked_by user clipId st' = liked_by user clipId st.
Proof.
  intros H. apply eq_true_iff_eq. rewrite !liked_by_iff.
  split; intros (i & l & Hi & Hq); exists i, l; (split; [|exact Hq]); now apply (H i l Hq).
Qed.

(** ** Requests and their answers *)

Section Answers.
Variable youtubeDl : string -> completion VideoInfo.
Variable isURL : string -> bool.
Variable jwt_verify : option string -> completion ObjectId.
Implicit Types (st : State) (r : Request).

(** X13. A request that is not answered 200 or 201 leaves the three
    collections as they were. *)
Theorem serve_rejected st r st' resp :
  serve youtubeDl isURL st r = (st', resp) ->
  status resp <> 200 -> status resp <> 201 ->
  clips st' = clips st /\ comments st' = comments st /\ likes st' = likes st.
Proof.
  intros E H200 H201.
  destruct r as [user payload now|user clipId now|user clipId content now|user clipId];
    cbn [serve] in E.
  - apply POST_clip_effect in E
      as [[-> _]|[(media & _ & _ & -> & _)|(media & clip & _ & _ & _ & _ & _ & _ & _ & ->)]];
      [auto..|]. now cbn in H201.
  - apply POST_like_effect in E
      as [(_ & -> & _)|[(i & l & _ & _ & _ & _ & ->)|[(_ & _ & _ & _ & _ & ->)|(_ & _ & _ & -> & _)]]];
      [auto| | |auto]; now cbn in H200.
  - apply POST_comment_effect in E as [[-> _]|[(_ & -> & _)|(_ & _ & _ & ->)]];
      [auto..|]. now cbn in H201.
  - apply DELETE_clip_effect in E as [[-> _]|(c & _ & _ & _ & H)]; [auto|]. congruence.
Qed.


End Answers.

Lemma serve_rejected_witness :
  exists st' resp,
    serve demo_provider demo_isURL demo_liked (DeleteClip 2 0) = (st', resp)
    /\ status resp = 403
    /\ clips st' = clips demo_liked /\ comments st' = comments demo_liked
    /\ likes st' = likes demo_liked.
Proof.
  eexists _, _. split; [reflexivity|]. split; [reflexivity|].
  eapply (serve_rejected demo_provider demo_isURL demo_liked (DeleteClip 2 0));
    [reflexivity|cbn; lia..].
Defined.


(** ** Comments and likes, one request at a time *)

Section Social.
Variable youtubeDl : string -> completion VideoInfo.
Variable isURL : string -> bool.
Variable jwt_verify : option string -> completion ObjectId.
Implicit Types (st : State).

Lemma clip_likes_true clipId l :
  clip_likes clipId l = true <-> like_clip l = Some clipId /\ like_type l = type_clip.
Proof.
  unfold clip_likes. now rewrite andb_true_iff, !bool_decide_eq_true.
Qed.

Lemma comment_likes_absent st comment :
  refs_exist st -> countDocuments (comment_likes comment) (likes st) = 0.
Proof.
  intros [_ Hl]. unfold countDocuments. apply map_size_empty_iff, map_empty.
  intros i. apply eq_None_not_Some. intros [l H]. apply matching_lookup in H as [Hi Hq].
  destruct (Hl _ _ Hi) as (_ & Hcm & _). unfold comment_likes in Hq.
  rewrite Hcm in Hq. now rewrite bool_decide_eq_false_2 in Hq.
Qed.

(** X15. In a state reached from the empty database, a comment of 1 to
    500 characters (once trimmed) on a stored clip is answered 201; the
    [commentsCount] of this clip goes up by one, that of every other clip
    stays, clips and likes are untouched, and the listing of the comments
    of the clip shows the new comment, trimmed, with no likes. *)
Theorem POST_comment_added rs (user clipId : ObjectId) (content : string) (now : N)
    (authorization : option string) :
  let st := run youtubeDl isURL rs in
  is_Some (clips st !! clipId) ->
  1 <= String.length (trim content) <= 500 ->
  let '(st', resp) := POST_comment user clipId content now st in
  let comment := {| comment_user := user; comment_clip := clipId;
                    comment_content := trim content; comment_createdAt := now |} in
  resp = {| status := 201;
            body := CommentCreated "Comment added successfully" (nextObjectId st) comment |}
  /\ clips st' = clips st /\ likes st' = likes st
  /\ (forall c, countDocuments (clip_comments c) (comments st')
                = if decide (c = clipId)
                  then S (countDocuments (clip_comments c) (comments st))
                  else countDocuments (clip_comments c) (comments st))
  /\ {| ecm_id := nextObjectId st; ecm_comment := comment;
        ecm_likesCount := 0; ecm_isLiked := false |}
     ∈ GET_comments jwt_verify clipId authorization st'.
Proof.
  intros st [c Hc] Hlen.
  destruct (run_keys_refs youtubeDl isURL rs) as [(_ & Hm & _) Hrefs]. fold st in Hm, Hrefs.
  assert (Hn : comments st !! nextObjectId st = None).
  { apply eq_None_not_Some. intros [x Hx]. pose proof (Hm _ _ Hx). lia. }
  unfold POST_comment.
  replace ((1 <=? String.length (trim content)) && (String.length (trim content) <=? 500))
    with true by (symmetry; apply andb_true_iff; split; apply Nat.leb_le; lia).
  unfold findById. rewrite Hc. unfold fresh_id, insertOne. cbv beta iota zeta.
  cbn [comments clips likes nextObjectId]. rewrite Hn.
  split; [reflexivity|]. split; [reflexivity|]. split; [reflexivity|]. split.
  - intros c'. cbn [comments]. destruct (decide (c' = clipId)) as [->|Hne].
    + apply countDocuments_insert; [exact Hn|]. unfold clip_comments. cbn.
      now apply bool_decide_eq_true.
    + unfold countDocuments. rewrite matching_insert_other; [reflexivity|exact Hn|].
      unfold clip_comments. cbn. apply bool_decide_eq_false. congruence.
  - unfold GET_comments. apply list_elem_of_fmap.
    eexists (nextObjectId st, _). split.
    + unfold enrich_comment. cbn [fst snd likes]. f_equal.
      * symmetry. now apply comment_likes_absent.
      * unfold viewer_isLiked_comment. destruct authorization as [header|]; [|reflexivity].
        destruct (string_truthy header); reflexivity.
    + apply find_sorted. split; [apply lookup_insert_eq|].
      unfold clip_comments. cbn. now apply bool_decide_eq_true.
Qed.

Lemma clip_like_of_pair user clipId u c l :
  clip_like_of user clipId l = true -> clip_like_of u c l = true ->
  (u, c) = (user, clipId).
Proof.
  rewrite !clip_like_of_true. intros (<- & H1 & _) (<- & H2 & _). congruence.
Qed.

Lemma liked_by_held st user other :
  refs_exist st -> liked_by user other st = true ->
  is_Some (findOne (clip_like_by user) (likes st)).
Proof.
  intros [_ Hrefs]. rewrite liked_by_iff. intros (i & l & Hi & Hq).
  destruct (findOne (clip_like_by user) (likes st)) as [x|] eqn:E; [eauto|].
  pose proof (proj1 (findOne_None _ _) E i l Hi) as Hno.
  apply clip_like_of_true in Hq as (Hu & _ & Ht).
  destruct (Hrefs _ _ Hi) as (_ & Hcm & _).
  assert (Hyes : clip_like_by user l = true); [|congruence].
  now apply clip_like_by_true.
Qed.

(** X16. In a state reached from the empty database a viewer likes at
    most one clip. A toggle on a stored clip by a viewer who likes no other
    clip is answered 200 and flips whether the viewer likes the clip; the
    [likesCount] of the clip moves by one accordingly and is the one
    reported. A toggle by a viewer who likes another clip is refused by the
    unique index on (user, comment, type): it is answered 500 and no Like
    changes. In both cases no other viewer, and no other clip, sees any
    change. *)
Theorem POST_like_toggle rs (user clipId : ObjectId) (now : N) :
  let st := run youtubeDl isURL rs in
  is_Some (clips st !! clipId) ->
  let '(st', resp) := POST_like user clipId now st in
  let n := countDocuments (clip_likes clipId) (likes st) in
  let n' := countDocuments (clip_likes clipId) (likes st') in
  (forall a b, liked_by user a st = true -> liked_by user b st = true -> a = b)
  /\ ((forall other, liked_by user other st = true -> other = clipId) ->
        status resp = 200
        /\ liked_by user clipId st' = negb (liked_by user clipId st)
        /\ (if liked_by user clipId st then S n' = n else n' = S n)
        /\ (exists msg, body resp = LikeToggled msg (liked_by user clipId st') n'))
  /\ ((exists other, other <> clipId /\ liked_by user other st = true) ->
        resp = server_error /\ likes st' = likes st)
  /\ (forall u c, (u, c) <> (user, clipId) -> liked_by u c st' = liked_by u c st)
  /\ (forall c, c <> clipId ->
        countDocuments (clip_likes c) (likes st') = countDocuments (clip_likes c) (likes st))
  /\ clips st' = clips st /\ comments st' = comments st.
Proof.
  intros st Hc.
  destruct (run_keys_refs youtubeDl isURL rs) as [(_ & _ & Hl) Hexist].
  fold st in Hl, Hexist. pose proof (proj2 Hexist) as Hrefs.
  pose proof (run_likes_unique youtubeDl isURL rs) as Huniq. fold st in Huniq.
  pose proof (run_one_like youtubeDl isURL rs) as Hone. fold st in Hone.
  assert (Hsingle : forall a b,
            liked_by user a st = true -> liked_by user b st = true -> a = b).
  { intros a b. rewrite !liked_by_iff. intros (i & x & Hi & Hx) (j & y & Hj & Hy).
    apply clip_like_of_true in Hx as (Hxu & Hxc & _).
    apply clip_like_of_true in Hy as (Hyu & Hyc & _).
    assert (i = j) as <- by (apply (Hone i j x y Hi Hj); congruence).
    congruence. }
  destruct (POST_like user clipId now st) as [st' resp] eqn:E.
  split; [exact Hsingle|].
  apply POST_like_effect in E
    as [(Hnone & _)|[(i & l & _ & Hi & Hq & -> & ->)|[(_ & Hf & Hfree & Hn & -> & ->)
       |(_ & Hf & Hwhy & -> & ->)]]].
  - rewrite Hnone in Hc. now destruct Hc.
  - assert (Hliked : liked_by user clipId st = true) by (apply liked_by_iff; eauto).
    assert (Hgone : liked_by user clipId (with_likes st (delete i (likes st))) = false).
    { apply not_true_is_false. rewrite liked_by_iff. intros (j & l' & Hj & Hq').
      cbn in Hj. apply lookup_delete_Some in Hj as [Hne Hj]. apply Hne.
      apply clip_like_of_true in Hq as (Hu & Hlc & Ht).
      apply clip_like_of_true in Hq' as (Hu' & Hlc' & Ht').
      apply (Huniq i j l l' clipId Hi Hj); unfold like_target; rewrite ?Ht, ?Ht';
        congruence. }
    cbn [status body likes with_likes]. rewrite Hgone, Hliked.
    split; [intros _|split; [|split; [|split; [|split; reflexivity]]]].
    + split; [reflexivity|]. split; [reflexivity|].
      split; [apply (countDocuments_delete _ _ _ l Hi); now apply (clip_like_of_likes user)|].
      eauto.
    + intros (other & Hne & Hother). destruct Hne. now apply Hsingle.
    + intros u c Hne. apply liked_by_ext. intros j l' Hq'. cbn [likes with_likes].
      rewrite lookup_delete_Some. split; [now intros [_ ?]|]. intros Hj. split; [|exact Hj].
      intros <-. assert (l' = l) as -> by congruence.
      apply Hne. apply (clip_like_of_pair _ _ _ _ l); assumption.
    + intros c Hne. unfold countDocuments. rewrite matching_delete_other; [reflexivity|].
      intros d Hd. assert (d = l) as -> by congruence.
      apply not_true_is_false. rewrite clip_likes_true. intros [Hlc _].
      apply clip_like_of_true in Hq as (_ & Hlc' & _). congruence.
  - assert (Hnot : liked_by user clipId st = false) by now apply liked_by_false.
    set (ls := <[nextObjectId st := new_like user clipId now]> (likes st)).
    assert (Hnow : liked_by user clipId (with_likes (fresh_id st).2 ls) = true).
    { apply liked_by_iff. exists (nextObjectId st), (new_like user clipId now).
      split; [apply lookup_insert_eq|]. now apply clip_like_of_true. }
    cbn [status body]. rewrite Hnow, Hnot.
    split; [intros _|split; [|split; [|split; [|split; reflexivity]]]].
    + split; [reflexivity|]. split; [reflexivity|].
      split; [apply countDocuments_insert; [exact Hn|now apply clip_likes_true]|].
      eauto.
    + intros (other & _ & Hother). apply liked_by_held in Hother; [|exact Hexist].
      rewrite Hfree in Hother. now destruct Hother.
    + intros u c Hne. apply liked_by_ext. intros j l' Hq'. cbn [likes with_likes]. unfold ls.
      rewrite lookup_insert_Some. split; [|intros Hj; right; split; [congruence|exact Hj]].
      intros [[_ <-]|[_ Hj]]; [|exact Hj]. destruct Hne.
      apply (clip_like_of_pair _ _ _ _ (new_like user clipId now)); [|exact Hq'].
      now apply clip_like_of_true.
    + intros c Hne. cbn [likes with_likes]. unfold countDocuments, ls.
      rewrite matching_insert_other; [reflexivity|exact Hn|].
      apply not_true_is_false. rewrite clip_likes_true. cbn. intros [? _]. congruence.
  - split; [intros Honly|split; [intros _; split; reflexivity|]].
    + exfalso. destruct Hwhy as [Hheld|[x Hx]]; [|pose proof (Hl _ _ Hx); lia].
      apply findOne_is_Some in Hheld as (i & l & Hi & Hq).
      apply clip_like_by_true in Hq as (Hu & _ & Ht).
      destruct (Hrefs _ _ Hi) as (_ & _ & other & Hlc & _).
      assert (Hq : clip_like_of user other l = true) by now apply clip_like_of_true.
      assert (other = clipId) as -> by (apply Honly, liked_by_iff; eauto).
      rewrite (proj1 (findOne_None _ _) Hf i l Hi) in Hq. discriminate.
    + split; [|split; [|split; reflexivity]]; intros; reflexivity.
Qed.

(** X17. Deleting a clip, whoever asks and whatever the answer, changes
    nothing for any other clip: its document, its comments, its counts and
    who likes it stay as they were. *)
Theorem DELETE_clip_frame (user clipId other : ObjectId) st :
  other <> clipId ->
  let st' := (DELETE_clip user clipId st).1 in
  clips st' !! other = clips st !! other
  /\ (forall i c, comment_clip c = other ->
        comments st' !! i = Some c <-> comments st !! i = Some c)
  /\ countDocuments (clip_comments other) (comments st')
     = countDocuments (clip_comments other) (comments st)
  /\ countDocuments (clip_likes other) (likes st')
     = countDocuments (clip_likes other) (likes st)
  /\ (forall u, liked_by u other st' = liked_by u other st).
Proof.
  intros Hne st'. destruct (DELETE_clip user clipId st) as [st1 resp] eqn:E.
  subst st'. cbn [fst].
  apply DELETE_clip_effect in E as [[-> _]|(c & _ & _ & -> & _)];
    [repeat split; auto|]. cbn [clips comments likes].
  assert (Hm : forall d, clip_comments other d = true -> clip_comments clipId d = false).
  { intros d. unfold clip_comments. rewrite bool_decide_eq_true, bool_decide_eq_false.
    congruence. }
  assert (Hl : forall d, clip_likes other d = true -> clip_likes clipId d = false).
  { intros d Hd. apply not_true_is_false. revert Hd. rewrite !clip_likes_true.
    intros [? _] [? _]. congruence. }
  split; [now apply lookup_delete_ne|]. split; [|split; [|split]].
  - intros i d Hd. rewrite deleteMany_lookup. split; [now intros [? _]|].
    intros Hi. split; [exact Hi|]. apply Hm. unfold clip_comments.
    now apply bool_decide_eq_true.
  - unfold countDocuments. now rewrite matching_deleteMany_other.
  - unfold countDocuments. now rewrite matching_deleteMany_other.
  - intros u. apply liked_by_ext. intros i l Hq. cbn [likes].
    rewrite deleteMany_lookup. split; [now intros [? _]|].
    intros Hi. split; [exact Hi|]. apply Hl. now apply (clip_like_of_likes u).
Qed.

End Social.

(** ** References, and the life of a clip *)

Section ClipLife.
Variable youtubeDl : string -> completion VideoInfo.
Variable isURL : string -> bool.
Variable jwt_verify : option string -> completion ObjectId.
Implicit Types (st : State).

Lemma countDocuments_none {Doc : Type} (q : Doc -> bool) (coll : gmap N Doc) :
  (forall i d, coll !! i = Some d -> q d = false) -> countDocuments q coll = 0.
Proof.
  intros H. unfold countDocuments. apply map_size_empty_iff, map_empty.
  intros i. apply eq_None_not_Some. intros [d Hd]. apply matching_lookup in Hd as [Hi Hq].
  rewrite (H _ _ Hi) in Hq. discriminate.
Qed.

Lemma no_refs_to_absent st clipId :
  refs_exist st -> clips st !! clipId = None ->
  countDocuments (clip_likes clipId) (likes st) = 0
  /\ countDocuments (clip_comments clipId) (comments st) = 0.
Proof.
  intros [Hm Hl] Hnone. split; apply countDocuments_none; intros i d Hi.
  - destruct (Hl _ _ Hi) as (_ & _ & c & Hlc & Hc).
    apply not_true_is_false. rewrite clip_likes_true. intros [Hlc' _].
    assert (c = clipId) as -> by congruence. rewrite Hnone in Hc. now destruct Hc.
  - pose proof (Hm _ _ Hi) as Hc. unfold clip_comments. apply bool_decide_eq_false.
    intros <-. rewrite Hnone in Hc. now destruct Hc.
Qed.

(** X18. In every state reached from the empty database, each comment
    and each Like refers to a stored clip, and each Like is a Like of a
    clip: no route creates a Like of a comment. So a clip that is not
    stored has no comments and no likes, and every listed comment has
    [likesCount] 0. *)
Theorem run_references rs (clipId : ObjectId) (authorization : option string) :
  let st := run youtubeDl isURL rs in
  (forall i c, comments st !! i = Some c -> is_Some (clips st !! comment_clip c))
  /\ (forall i l, likes st !! i = Some l ->
        like_type l = type_clip
        /\ exists c, like_clip l = Some c /\ is_Some (clips st !! c))
  /\ (clips st !! clipId = None ->
        GET_comments jwt_verify clipId authorization st = []
        /\ countDocuments (clip_likes clipId) (likes st) = 0
        /\ countDocuments (clip_comments clipId) (comments st) = 0)
  /\ Forall (fun e => ecm_likesCount e = 0)
       (GET_comments jwt_verify clipId authorization st).
Proof.
  intros st. destruct (run_keys_refs youtubeDl isURL rs) as [_ Hrefs]. fold st in Hrefs.
  split; [exact (proj1 Hrefs)|]. split; [|split].
  - intros i l Hi. destruct (proj2 Hrefs _ _ Hi) as (Ht & _ & Hc). auto.
  - intros Hnone. destruct (no_refs_to_absent st clipId Hrefs Hnone) as [Hl Hm].
    split; [|auto]. apply length_zero_iff_nil. unfold GET_comments.
    rewrite length_fmap. now rewrite (proj2 (proj2 (find_sorted _ _ _))).
  - unfold GET_comments. apply Forall_fmap, Forall_true. intros doc.
    now apply comment_likes_absent.
Qed.

(** X19. In a state reached from the empty database, a creation answered
    201 stores the clip under a fresh identifier, for the caller, with the
    trimmed title and an 11-character video identifier; the single-clip
    fetch of that identifier then shows it with no likes and no comments,
    and the other clips, the comments and the likes are as before. *)
Theorem POST_clip_then_GET rs (user : ObjectId) (payload : ClipPayload) (now : N)
    (path : ObjectId) (authorization : option string) st' resp :
  let st := run youtubeDl isURL rs in
  POST_clip youtubeDl isURL user payload now st = (st', resp) ->
  status resp = 201 ->
  exists clip,
    body resp = ClipCreated "Clip created successfully" (nextObjectId st) clip
    /\ clip_user clip = user
    /\ clip_title clip = trim (body_title payload)
    /\ String.length (clip_youtubeVideoId clip) = 11
    /\ clip_createdAt clip = now
    /\ GET_clip jwt_verify
         {| params_id := path; query_id := Some (nextObjectId st);
            item_authorization := authorization |} st'
       = {| status := 200;
            body := ClipDetail {| ec_id := nextObjectId st; ec_clip := clip;
                                  likesCount := 0; commentsCount := 0;
                                  isLiked := false |} |}
    /\ (forall j, j <> nextObjectId st -> clips st' !! j = clips st !! j)
    /\ comments st' = comments st /\ likes st' = likes st.
Proof.
  intros st E H201.
  destruct (run_keys_refs youtubeDl isURL rs) as [_ Hrefs]. fold st in Hrefs.
  apply POST_clip_effect in E
    as [[_ H]|[(media & _ & _ & _ & ->)
              |(media & clip & Hx & Hn & Hu & Ht & Hv & Hat & -> & ->)]];
    [congruence|discriminate|].
  exists clip. split; [reflexivity|]. split; [exact Hu|]. split; [exact Ht|]. split.
  { rewrite Hv. destruct (extractVideoInfo_Return _ _ _ _ _ Hx) as (id & info & Hid & _ & ->).
    exact (extractVideoId_length _ _ Hid). }
  split; [exact Hat|]. split; [|split; [|split; reflexivity]].
  - unfold GET_clip, findById. cbn [query_id clips]. rewrite lookup_insert_eq.
    unfold enrich. rewrite viewer_isLiked_false. cbn [fst snd likes comments].
    destruct (no_refs_to_absent st (nextObjectId st) Hrefs Hn) as [-> ->]. reflexivity.
  - intros j Hj. cbn [clips]. now apply lookup_insert_ne.
Qed.

(** X20. A creation whose URL yields no identifier, or whose provider
    fails, is answered 400 and stores nothing; once the body has passed
    validation the message is the uniform extraction message. *)
Theorem POST_clip_unrecognised (user : ObjectId) (payload : ClipPayload) (now : N) st :
  extractVideoId (body_youtubeUrl payload) = Return None
    \/ (exists err, youtubeDl (body_youtubeUrl payload) = Throw err) ->
  let '(st', resp) := POST_clip youtubeDl isURL user payload now st in
  st' = st /\ status resp = 400
  /\ ((exists errors msg, body resp = ValidationErrors errors msg /\ msg ∈ errors)
      \/ body resp = Message extraction_failed).
Proof.
  intros H. unfold POST_clip.
  destruct (_ ++ _) as [|msg errors].
  - rewrite (extractVideoInfo_fails _ _ _ _ H). split; [reflexivity|]. split; [reflexivity|].
    right. reflexivity.
  - split; [reflexivity|]. split; [reflexivity|]. left. exists (msg :: errors), msg.
    split; [reflexivity|]. apply elem_of_cons. now left.
Qed.

End ClipLife.

(** ** The theorems above, on the example database *)

Lemma POST_comment_added_witness :
  let '(st', resp) := POST_comment 5 0 "  nice  " 30 demo_liked in
  resp = {| status := 201;
            body := CommentCreated "Comment added successfully" 2
                      {| comment_user := 5; comment_clip := 0;
                         comment_content := "nice"; comment_createdAt := 30 |} |}
  /\ countDocuments (clip_comments 0) (comments st') = 1.
Proof.
  pose proof (POST_comment_added demo_provider demo_isURL demo_verify
                [CreateClip 1 demo_payload 10; ToggleLike 7 0 20] 5 0 "  nice  " 30 None) as H.
  cbv zeta in H. fold demo_liked in H.
  specialize (H ltac:(eexists; vm_compute; reflexivity) ltac:(vm_compute; lia)).
  destruct (POST_comment 5 0 "  nice  " 30 demo_liked) as [st' resp].
  destruct H as (-> & _ & _ & Hcount & _).
  split; [reflexivity|]. rewrite (Hcount 0%N). reflexivity.
Defined.

Lemma POST_like_toggle_witness :
  let '(st', resp) := POST_like 8 0 30 demo_liked in
  status resp = 200 /\ liked_by 8 0 st' = true /\ liked_by 7 0 st' = true
  /\ countDocuments (clip_likes 0) (likes st') = 2.
Proof.
  pose proof (POST_like_toggle demo_provider demo_isURL
                [CreateClip 1 demo_payload 10; ToggleLike 7 0 20] 8 0 30) as H.
  cbv zeta in H. fold demo_liked in H.
  specialize (H ltac:(eexists; vm_compute; reflexivity)).
  destruct (POST_like 8 0 30 demo_liked) as [st' resp].
  destruct H as (_ & Hok & _ & Hothers & _).
  destruct Hok as (Hs & Hflip & Hn & _).
  { intros other Hother. vm_compute in Hother. discriminate Hother. }
  split; [exact Hs|]. split; [rewrite Hflip; reflexivity|]. split.
  - rewrite (Hothers 7%N 0%N) by discriminate. reflexivity.
  - change (liked_by 8 0 demo_liked) with false in Hn. rewrite Hn. reflexivity.
Defined.

Lemma DELETE_clip_frame_witness :
  let st := run demo_provider demo_isURL
              [CreateClip 1 demo_payload 10; CreateClip 1 demo_payload 11;
               ToggleLike 7 1 20; DeleteClip 1 0] in
  is_Some (clips st !! 1%N) /\ clips st !! 0%N = None /\ liked_by 7 1 st = true.
Proof.
  pose proof (DELETE_clip_frame 1 0 1
                (run demo_provider demo_isURL
                   [CreateClip 1 demo_payload 10; CreateClip 1 demo_payload 11;
                    ToggleLike 7 1 20]) ltac:(discriminate)) as (Hc & _ & _ & _ & Hl).
  split; [|split].
  - change (is_Some (clips (DELETE_clip 1 0
              (run demo_provider demo_isURL
                 [CreateClip 1 demo_payload 10; CreateClip 1 demo_payload 11;
                  ToggleLike 7 1 20])).1 !! 1%N)).
    rewrite Hc. eexists. vm_compute. reflexivity.
  - vm_compute. reflexivity.
  - change (liked_by 7 1 (DELETE_clip 1 0
              (run demo_provider demo_isURL
                 [CreateClip 1 demo_payload 10; CreateClip 1 demo_payload 11;
                  ToggleLike 7 1 20])).1 = true).
    rewrite (Hl 7%N). vm_compute. reflexivity.
Defined.

Lemma POST_clip_then_GET_witness :
  let '(st', resp) := POST_clip demo_provider demo_isURL 1 demo_payload 10 init in
  status resp = 201
  /\ exists clip,
       GET_clip demo_verify
         {| params_id := 9; query_id := Some 0%N; item_authorization := None |} st'
       = {| status := 200;
            body := ClipDetail {| ec_id := 0; ec_clip := clip; likesCount := 0;
                                  commentsCount := 0; isLiked := false |} |}
       /\ clip_youtubeVideoId clip = "dQw4w9WgXcQ"%string.
Proof.
  pose proof (POST_clip_then_GET demo_provider demo_isURL demo_verify [] 1 demo_payload 10
                9 None) as H.
  cbv zeta in H. change (run demo_provider demo_isURL []) with init in H.
  destruct (POST_clip demo_provider demo_isURL 1 demo_payload 10 init) as [st' resp] eqn:E.
  assert (Hs : status resp = 201) by (vm_compute in E; now injection E as <- <-).
  split; [exact Hs|].
  destruct (H st' resp eq_refl Hs) as (clip & Hb & _ & _ & _ & _ & Hg & _).
  exists clip. split; [exact Hg|].
  vm_compute in E. injection E as <- <-. now injection Hb as <-.
Defined.

Lemma POST_clip_unrecognised_witness :
  let payload := {| body_youtubeUrl := "https://example.com/";
                    body_title := "Demo clip";
                    body_description := None;
                    body_startTime := None;
                    body_endTime := None |} in
  POST_clip demo_provider demo_isURL 1 payload 10 init
  = (init, {| status := 400; body := Message extraction_failed |}).
Proof.
  intros payload.
  pose proof (POST_clip_unrecognised demo_provider demo_isURL 1 payload 10 init
                (or_introl eq_refl)) as H.
  destruct (POST_clip demo_provider demo_isURL 1 payload 10 init) as [st' resp] eqn:E.
  destruct H as (-> & _ & _). vm_compute in E. now injection E as <-.
Defined.

(** ** What is stored is valid *)

Section Stored.
Variable youtubeDl : string -> completion VideoInfo.
Variable isURL : string -> bool.
Implicit Types (st : State).

Lemma run_snoc rs r :
  run youtubeDl isURL (rs ++ [r]) = handle youtubeDl isURL (run youtubeDl isURL rs) r.
Proof. unfold run. now rewrite foldl_app. Qed.

Lemma POST_clip_stored user payload now st id clip :
  clips (POST_clip youtubeDl isURL user payload now st).1 !! id = Some clip ->
  clips st !! id = Some clip
  \/ exists media,
       isURL (body_youtubeUrl payload) = true
       /\ 1 <= String.length (trim (body_title payload)) <= 100
       /\ (forall d, body_description payload = Some d -> String.length (trim d) <= 500)
       /\ extractVideoInfo youtubeDl (body_youtubeUrl payload) (body_startTime payload)
            (body_endTime payload) = Return media
       /\ startTimeSeconds media <> NaN /\ endTimeSeconds media <> Some NaN
       /\ clip = {| clip_user := user;
                    clip_title := trim (body_title payload);
                    clip_description := default ""%string (trim <$> body_description payload);
                    clip_youtubeUrl := body_youtubeUrl payload;
                    clip_youtubeVideoId := videoId media;
                    clip_thumbnailUrl := thumbnailUrl media;
                    clip_duration := duration media;
                    clip_startTimeSeconds := startTimeSeconds media;
                    clip_endTimeSeconds := endTimeSeconds media;
                    clip_createdAt := now |}.
Proof.
  unfold POST_clip.
  destruct (isURL (body_youtubeUrl payload)) eqn:Hurl; [|auto].
  destruct (_ && _)%nat eqn:Htitle; [|auto].
  assert (Hdesc : (match trim <$> body_description payload with
                   | Some d => if String.length d <=? 500 then []
                               else ["Description must be less than 500 characters"%string]
                   | None => []
                   end = [])
                  -> forall d, body_description payload = Some d ->
                       String.length (trim d) <= 500).
  { intros H d Hd. rewrite Hd in H. cbn in H.
    destruct (Nat.leb_spec (String.length (trim d)) 500); [assumption|discriminate]. }
  cbn [app]. destruct (match trim <$> body_description payload with
                       | Some _ => _ | None => _ end) eqn:Herr; [|auto].
  specialize (Hdesc eq_refl).
  destruct (extractVideoInfo _ _ _ _) as [media|msg] eqn:E; [|auto].
  unfold fresh_id. cbv beta iota zeta.
  match goal with |- context [Clip_save ?a ?b ?c] =>
    destruct (Clip_save a b c) as [cs|e] eqn:Es end; [|auto].
  apply Clip_save_Return in Es as (-> & Hs & He). cbn [fst clips].
  rewrite lookup_insert_Some. intros [[_ <-]|[_ H]]; [|auto].
  right. exists media. apply andb_prop in Htitle as [H1 H2].
  apply Nat.leb_le in H1, H2. repeat split; auto.
Qed.

Lemma handle_clips st r id clip :
  clips (handle youtubeDl isURL st r) !! id = Some clip ->
  clips st !! id = Some clip
  \/ exists user payload now, r = CreateClip user payload now
       /\ clips (POST_clip youtubeDl isURL user payload now st).1 !! id = Some clip.
Proof.
  rewrite handle_serve.
  destruct (serve youtubeDl isURL st r) as [st' resp] eqn:E. cbn [fst].
  destruct r as [user payload now|user clipId now|user clipId content now|user clipId];
    cbn [serve] in E.
  - intros H. right. exists user, payload, now. now rewrite E.
  - apply POST_like_effect in E
      as [(_ & -> & _)|[(i & l & _ & _ & _ & -> & _)|[(_ & _ & _ & _ & -> & _)|(_ & _ & _ & -> & _)]]];
      auto.
  - apply POST_comment_effect in E as [[-> _]|[(_ & -> & _)|(_ & _ & -> & _)]]; auto.
  - apply DELETE_clip_effect in E as [[-> _]|(c & _ & _ & -> & _)]; [auto|].
    cbn. rewrite lookup_delete_Some. intros [_ H]. auto.
Qed.

Lemma handle_comments st r id c :
  comments (handle youtubeDl isURL st r) !! id = Some c ->
  comments st !! id = Some c
  \/ exists user clipId content now, r = AddComment user clipId content now
       /\ c = {| comment_user := user; comment_clip := clipId;
                 comment_content := trim content; comment_createdAt := now |}
       /\ 1 <= String.length (trim content) <= 500.
Proof.
  rewrite handle_serve.
  destruct (serve youtubeDl isURL st r) as [st' resp] eqn:E. cbn [fst].
  destruct r as [user payload now|user clipId now|user clipId content now|user clipId];
    cbn [serve] in E.
  - apply POST_clip_effect in E
      as [[-> _]|[(media & _ & _ & -> & _)|(media & clip & _ & _ & _ & _ & _ & _ & -> & _)]];
      auto.
  - apply POST_like_effect in E
      as [(_ & -> & _)|[(i & l & _ & _ & _ & -> & _)|[(_ & _ & _ & _ & -> & _)|(_ & _ & _ & -> & _)]]];
      auto.
  - revert E. unfold POST_comment.
    destruct (_ && _)%nat eqn:Hlen; [|intros [= <- _]; auto].
    destruct (findById clipId (clips st)); [|intros [= <- _]; auto].
    unfold fresh_id, insertOne. cbv beta iota zeta. cbn [comments].
    destruct (comments st !! nextObjectId st); intros [= <- _]; [auto|].
    cbn [comments]. rewrite lookup_insert_Some. intros [[_ <-]|[_ H]]; [|auto].
    right. exists user, clipId, content, now. apply andb_prop in Hlen as [H1 H2].
    apply Nat.leb_le in H1, H2. auto.
  - apply DELETE_clip_effect in E as [[-> _]|(c' & _ & _ & -> & _)]; [auto|].
    cbn. rewrite deleteMany_lookup. intros [H _]. auto.
Qed.

(** X24. Everything stored in a state reached from the empty database
    went through the checks of the routes: a clip has a title of 1 to 100
    characters, a description of at most 500, a URL that passed the
    validator and from which its 11-character video identifier is
    extracted, a thumbnail, and numeric trim bounds; a comment has 1 to 500
    characters. *)
Theorem run_stored_valid rs :
  let st := run youtubeDl isURL rs in
  (forall id clip, clips st !! id = Some clip ->
     1 <= String.length (clip_title clip) <= 100
     /\ String.length (clip_description clip) <= 500
     /\ isURL (clip_youtubeUrl clip) = true
     /\ extractVideoId (clip_youtubeUrl clip) = Return (Some (clip_youtubeVideoId clip))
     /\ String.length (clip_youtubeVideoId clip) = 11
     /\ clip_thumbnailUrl clip <> EmptyString
     /\ clip_startTimeSeconds clip <> NaN
     /\ clip_endTimeSeconds clip <> Some NaN)
  /\ (forall id c, comments st !! id = Some c ->
        1 <= String.length (comment_content c) <= 500).
Proof.
  induction rs as [|r rs IH] using rev_ind.
  { split; intros id x H; cbn in H; now rewrite lookup_empty in H. }
  cbv zeta in *. rewrite run_snoc. destruct IH as [IHc IHm]. split.
  - intros id clip H. apply handle_clips in H as [H|(user & payload & now & _ & H)];
      [now apply (IHc id)|].
    apply POST_clip_stored in H
      as [H|(media & Hurl & Htitle & Hdesc & Hx & Hs & He & ->)]; [now apply (IHc id)|].
    cbn. split; [exact Htitle|]. split.
    { destruct (body_description payload) as [d|]; cbn; [now apply Hdesc|lia]. }
    split; [exact Hurl|].
    destruct (extractVideoInfo_Return _ _ _ _ _ Hx) as (vid & info & Hid & _ & Hm).
    rewrite Hm in *. cbn in *. split; [exact Hid|].
    split; [exact (extractVideoId_length _ _ Hid)|]. split; [|auto].
    unfold or_else.
    destruct (string_truthy (default ""%string (vi_thumbnail info))) eqn:Ht.
    + intros Hnil. rewrite Hnil in Ht. discriminate.
    + discriminate.
  - intros id c H.
    apply handle_comments in H as [H|(user & clipId & content & now & _ & -> & Hlen)];
      [now apply (IHm id)|exact Hlen].
Qed.

End Stored.

(** ** Comments that are refused *)

Section Refused.
Implicit Types (st : State).

Lemma ltrim_blank s : string_forallb is_space s = true -> ltrim s = EmptyString.
Proof.
  induction s as [|c s IH]; [reflexivity|]. cbn [string_forallb ltrim].
  intros H. apply andb_prop in H as [-> H]. auto.
Qed.

Lemma trim_blank s : string_forallb is_space s = true -> trim s = EmptyString.
Proof. intros H. unfold trim. now rewrite (ltrim_blank s H). Qed.

(** X25. A comment made of blanks only, or longer than 500 characters
    once trimmed, is answered 400 with the validation message and nothing
    is stored; the check comes before the lookup of the clip, so the answer
    is the same for a clip that does not exist. *)
Theorem POST_comment_refused (user clipId : ObjectId) (content : string) (now : N) st :
  string_forallb is_space content = true \/ 500 < String.length (trim content) ->
  POST_comment user clipId content now st
  = (st, {| status := 400;
            body := ValidationErrors
                      ["Comment cannot be empty and must be less than 500 characters"%string]
                      "Comment cannot be empty and must be less than 500 characters" |}).
Proof.
  intros H. unfold POST_comment.
  replace ((1 <=? String.length (trim content)) && (String.length (trim content) <=? 500))
    with false; [reflexivity|].
  symmetry. apply andb_false_iff. destruct H as [H|H].
  - left. now rewrite (trim_blank _ H).
  - right. apply Nat.leb_gt. exact H.
Qed.

Lemma POST_comment_refused_witness :
  POST_comment 5 99 "   " 30 demo_liked
  = (demo_liked,
     {| status := 400;
        body := ValidationErrors
                  ["Comment cannot be empty and must be less than 500 characters"%string]
                  "Comment cannot be empty and must be less than 500 characters" |}).
Proof. apply POST_comment_refused. left. reflexivity. Defined.

End Refused.

(** ** routes/users.js *)

Section Users.
Implicit Types (users : gmap ObjectId User) (st : State).

(** X21. The profile route answers 500 exactly when the path segment is
    no ObjectId, as for [/api/users/profile], and 404 exactly when it is the
    ObjectId of no user; for a known user it answers 200, and [clipsCount]
    is the number of clips the listing of this author returns. *)
Theorem GET_user_profile (path : path_id) users st :
  (user_status (GET_user path users st) = 500 <-> path = NotOid)
  /\ (user_status (GET_user path users st) = 404
      <-> exists id, path = Oid id /\ users !! id = None)
  /\ (forall id u, path = Oid id -> users !! id = Some u ->
        GET_user path users st
        = {| user_status := 200;
             user_body :=
               UserProfile {| profile_id := id;
                              profile_username := user_username u;
                              profile_bio := user_bio u;
                              profile_avatar := user_avatar u;
                              clipsCount := length (GET_user_clips id st) |} |}).
Proof.
  unfold GET_user, findById. split; [|split].
  - destruct path as [id|]; [|now split]. destruct (users !! id); cbn; split; congruence.
  - destruct path as [id|]; cbn.
    + destruct (users !! id) eqn:E; cbn; split.
      * discriminate.
      * intros (i & [= <-] & H). congruence.
      * eauto.
      * reflexivity.
    + split; [discriminate|]. now intros (i & H & _).
  - intros id u -> ->. cbn zeta. do 3 f_equal. unfold GET_user_clips.
    rewrite length_fmap. symmetry. apply find_sorted.
Qed.

Lemma PUT_profile_effect me b users users' resp :
  PUT_profile me b users = (users', resp) ->
  (exists name other u, provided (body_username b) = Some name
      /\ users !! other = Some u /\ user_username u = name /\ other <> me
      /\ users' = users /\ user_status resp = 400)
  \/ ((forall name, provided (body_username b) = Some name ->
         findOne (named name) users = None
         \/ exists u, findOne (named name) users = Some (me, u))
      /\ ((users !! me = None /\ users' = users /\ user_status resp = 200)
          \/ (exists u, users !! me = Some u
                /\ let u' := set_profile {| body_username := provided (body_username b);
                                            body_bio := provided (body_bio b);
                                            body_avatar := provided (body_avatar b) |} u in
                   users' = <[me := u']> users
                   /\ resp = {| user_status := 200;
                                user_body := UserAccount (Some (without_password me u')) |}))).
Proof.
  unfold PUT_profile.
  set (taken := match provided (body_username b) with Some _ => _ | None => _ end).
  assert (Htaken :
    (taken = true /\ exists name other u, provided (body_username b) = Some name
        /\ users !! other = Some u /\ user_username u = name /\ other <> me)
    \/ (taken = false /\
        forall name, provided (body_username b) = Some name ->
          findOne (named name) users = None
          \/ exists u, findOne (named name) users = Some (me, u))).
  { unfold taken. destruct (provided (body_username b)) as [name|]; [|right; now split].
    destruct (findOne (named name) users) as [[other u]|] eqn:E.
    - cbn [fst]. destruct (decide (other = me)) as [->|Hne].
      + right. rewrite bool_decide_eq_false_2 by (intros H; now apply H).
        split; [reflexivity|]. intros ? [= <-]. eauto.
      + left. rewrite bool_decide_eq_true_2 by assumption. split; [reflexivity|].
        apply findOne_Some in E as [Hu Hq]. unfold named in Hq.
        apply bool_decide_eq_true in Hq. exists name, other, u. auto.
    - right. split; [reflexivity|]. intros ? [= <-]. auto. }
  clearbody taken.
  destruct Htaken as [[-> (name & other & u & H)]|[-> Hfree]].
  - intros [= <- <-]. left. exists name, other, u. intuition.
  - intros E. right. split; [exact Hfree|]. revert E.
    unfold findById. destruct (users !! me) as [u|] eqn:Hme; intros [= <- <-]; [|auto].
    right. exists u. split; [reflexivity|]. split; reflexivity.
Qed.

Lemma named_true name u : named name u = true <-> user_username u = name.
Proof. unfold named. apply bool_decide_eq_true. Qed.

(** When the check lets a name through, whoever carries it is the caller. *)
Lemma free_name me name users other d :
  (findOne (named name) users = None
   \/ exists u, findOne (named name) users = Some (me, u)) ->
  usernames_unique users ->
  users !! other = Some d -> user_username d = name -> other = me.
Proof.
  intros [Hnone|[u Hsome]] Huniq Hd Hn.
  - pose proof (proj1 (findOne_None _ _) Hnone other d Hd) as Hq.
    apply not_true_iff_false in Hq. destruct Hq. now apply named_true.
  - apply findOne_Some in Hsome as [Hu Hq]. apply named_true in Hq.
    apply (Huniq other me d u); congruence.
Qed.

(** X22. Updating a profile keeps user names unique; and when the name
    asked for is carried by someone else the answer is 400 and nothing is
    written. *)
Theorem PUT_profile_usernames (me : ObjectId) (b : ProfileBody) users :
  usernames_unique users ->
  let '(users', resp) := PUT_profile me b users in
  usernames_unique users'
  /\ (forall name other u,
        provided (body_username b) = Some name ->
        users !! other = Some u -> user_username u = name -> other <> me ->
        users' = users /\ user_status resp = 400).
Proof.
  intros Huniq. destruct (PUT_profile me b users) as [users' resp] eqn:E.
  apply PUT_profile_effect in E
    as [(name & other & u & Hn & Hu & Hun & Hne & -> & Hs)|[Hfree Hcase]].
  { split; [exact Huniq|]. auto. }
  assert (Hother : forall name other u,
            provided (body_username b) = Some name ->
            users !! other = Some u -> user_username u = name -> other = me).
  { intros name other u Hn Hu Hun. eapply free_name; eauto. }
  split.
  - destruct Hcase as [(_ & -> & _)|(u & Hme & -> & _)]; [exact Huniq|].
    set (u' := set_profile _ u).
    assert (Hname : forall j d, users !! j = Some d ->
              user_username d = user_username u' -> j = me).
    { intros j d Hj Hd. unfold u', set_profile in Hd. cbn in Hd.
      destruct (provided (body_username b)) as [name|] eqn:Hn; cbn in Hd.
      - now apply (Hother name j d).
      - apply (Huniq j me d u); assumption. }
    intros i j x y Hi Hj Hxy.
    apply lookup_insert_Some in Hi as [[<- <-]|[Hi1 Hi]];
      apply lookup_insert_Some in Hj as [[<- <-]|[Hj1 Hj]]; try reflexivity.
    + symmetry. now apply (Hname j y).
    + now apply (Hname i x).
    + now apply (Huniq i j x y).
  - intros name other u Hn Hu Hun Hne. destruct Hne. now apply (Hother name other u).
Qed.

(** X23. Updating a profile touches no other user and creates none; the
    e-mail address and the password stay; and a field that is absent or
    empty in the body keeps its stored value, so that a biography or an
    avatar, once set, cannot be emptied. *)
Theorem PUT_profile_frame (me : ObjectId) (b : ProfileBody) users :
  let '(users', resp) := PUT_profile me b users in
  (forall other, other <> me -> users' !! other = users !! other)
  /\ (users !! me = None -> users' = users)
  /\ (forall u', users' !! me = Some u' ->
        exists u, users !! me = Some u
          /\ user_email u' = user_email u /\ user_password u' = user_password u
          /\ (provided (body_username b) = None -> user_username u' = user_username u)
          /\ (provided (body_bio b) = None -> user_bio u' = user_bio u)
          /\ (provided (body_avatar b) = None -> user_avatar u' = user_avatar u)
          /\ (user_status resp = 200 ->
                user_username u' = default (user_username u) (provided (body_username b))
                /\ user_bio u' = default (user_bio u) (provided (body_bio b))
                /\ user_avatar u' = default (user_avatar u) (provided (body_avatar b)))).
Proof.
  destruct (PUT_profile me b users) as [users' resp] eqn:E.
  apply PUT_profile_effect in E
    as [(name & other & u & _ & _ & _ & _ & -> & Hs)
       |[_ [(Hme & -> & _)|(u & Hme & -> & ->)]]].
  - split; [reflexivity|]. split; [reflexivity|]. intros u' Hu'. exists u'.
    split; [exact Hu'|]. do 5 (split; [reflexivity|]). intros H. congruence.
  - split; [reflexivity|]. split; [reflexivity|]. intros u' Hu'. congruence.
  - split; [intros other Hne; now apply lookup_insert_ne|].
    split; [congruence|]. intros u' Hu'. rewrite lookup_insert_eq in Hu'.
    injection Hu' as <-. exists u. split; [exact Hme|]. cbn.
    do 2 (split; [reflexivity|]). do 3 (split; [now intros ->|]). intros _.
    repeat split.
Qed.

End Users.

Lemma PUT_profile_usernames_witness :
  let users : gmap ObjectId User :=
    {[ 1%N := {| user_username := "ann"; user_email := "ann@example.org";
                 user_password := "x"; user_bio := "hello"; user_avatar := "" |};
       2%N := {| user_username := "bob"; user_email := "bob@example.org";
                 user_password := "y"; user_bio := ""; user_avatar := "" |} ]} in
  let b := {| body_username := Some "ann"%string; body_bio := None; body_avatar := None |} in
  PUT_profile 2 b users
  = (users, {| user_status := 400; user_body := UserMessage "Username is already taken" |})
  /\ usernames_unique (PUT_profile 2 b users).1.
Proof.
  intros users b.
  assert (Huniq : usernames_unique users).
  { intros i j x y Hi Hj Hxy. unfold users in Hi, Hj.
    apply lookup_insert_Some in Hi as [[<- <-]|[? Hi]];
      apply lookup_insert_Some in Hj as [[<- <-]|[? Hj]];
      try apply lookup_singleton_Some in Hi as [<- <-];
      try apply lookup_singleton_Some in Hj as [<- <-];
      try reflexivity; discriminate. }
  pose proof (PUT_profile_usernames 2 b users Huniq) as H.
  destruct (PUT_profile 2 b users) as [users' resp] eqn:E. destruct H as [H _].
  split; [|exact H]. vm_compute in E. injection E as <- <-. reflexivity.
Defined.
